(** * Verification of the feedback analysis pipeline (src/lib/analysis-engine.ts)

    A shallow embedding of [analyzeUserFeedback] and of the helpers it is
    built from.  JavaScript strings are modelled as [string], that is as
    sequences of code units below 256 (ASCII and Latin-1 text); numbers that
    are counts are [nat] or [Z], the similarity score is an exact rational.
    The rich variant of the engine (the first one in the source file, with
    clustering and the implicit-inference fallbacks) is the one modelled. *)

From Stdlib Require Import List String Ascii Bool Arith NArith ZArith QArith.
From Stdlib Require Import Lia Permutation Sorted DecimalString DecimalPos.
From Equations Require Import Equations.
Import ListNotations.

Local Close Scope Q_scope.
Local Open Scope nat_scope.
Local Open Scope list_scope.
Local Open Scope string_scope.

(** ** JavaScript string primitives *)

Module JS.

Fixpoint map_units (f : ascii -> ascii) (s : string) : string :=
  match s with
  | EmptyString => EmptyString
  | String c s' => String (f c) (map_units f s')
  end.

Fixpoint filter_units (f : ascii -> bool) (s : string) : string :=
  match s with
  | EmptyString => EmptyString
  | String c s' => if f c then String c (filter_units f s') else filter_units f s'
  end.

Definition in_range (lo hi : N) (c : ascii) : bool :=
  let n := N_of_ascii c in (N.leb lo n && N.leb n hi)%bool.

(** [String.prototype.toLowerCase] on code units below 256: the ASCII
    capitals and the Latin-1 capitals U+00C0..U+00DE (U+00D7, the
    multiplication sign, has no case). *)
Definition lower_unit (c : ascii) : ascii :=
  if (in_range 65 90 c
      || (in_range 192 222 c && negb (N.eqb (N_of_ascii c) 215)))%bool
  then ascii_of_N (N_of_ascii c + 32)
  else c.

Definition toLowerCase (s : string) : string := map_units lower_unit s.

(** [s.includes(k)]: [k] occurs in [s] as a substring. *)
Fixpoint includes (s k : string) : bool :=
  (String.prefix k s
   || match s with
      | EmptyString => false
      | String _ s' => includes s' k
      end)%bool.

(** WhiteSpace and LineTerminator code units below 256: TAB, LF, VT, FF,
    CR, SPACE and NO-BREAK SPACE.  This is the set [trim] removes and the
    class [\s] of regular expressions. *)
Definition isWhiteSpace (c : ascii) : bool :=
  (in_range 9 13 c || N.eqb (N_of_ascii c) 32 || N.eqb (N_of_ascii c) 160)%bool.

Fixpoint trimStart (s : string) : string :=
  match s with
  | EmptyString => EmptyString
  | String c s' => if isWhiteSpace c then trimStart s' else s
  end.

Fixpoint trimEnd (s : string) : string :=
  match s with
  | EmptyString => EmptyString
  | String c s' =>
      match trimEnd s' with
      | EmptyString => if isWhiteSpace c then EmptyString else String c EmptyString
      | t => String c t
      end
  end.

Definition trim (s : string) : string := trimEnd (trimStart s).

(** [s.split(/[cls]+/)] for a character class [cls]: the pieces between
    maximal runs of class members.  A run at the very start or end leaves
    an empty piece there, and the empty string splits into one empty
    piece, as the separator does not match the empty string. *)
Fixpoint split_go (cls : ascii -> bool) (s : string) (in_run : bool) : list string :=
  match s with
  | EmptyString => [EmptyString]
  | String c s' =>
      if cls c then
        if in_run then split_go cls s' true
        else EmptyString :: split_go cls s' true
      else
        match split_go cls s' false with
        | p :: ps => String c p :: ps
        | [] => [String c EmptyString]
        end
  end.

Definition split_class (cls : ascii -> bool) (s : string) : list string :=
  split_go cls s false.

(** [s.replace(/suf$/, "")]: the pattern is anchored at the end of the
    input, so the only possible match is the trailing [suf]. *)
Fixpoint replace_end (suf s : string) : string :=
  if String.eqb s suf then EmptyString
  else match s with
       | EmptyString => EmptyString
       | String c s' => String c (replace_end suf s')
       end.

(** [xs.join(sep)]. *)
Fixpoint join (sep : string) (xs : list string) : string :=
  match xs with
  | [] => EmptyString
  | [x] => x
  | x :: xs' => x ++ sep ++ join sep xs'
  end.

(** Template-literal rendering of an integer-valued number. *)
Definition show_nat (n : nat) : string := NilEmpty.string_of_uint (Nat.to_uint n).
Definition show_Z (z : Z) : string := NilEmpty.string_of_int (Z.to_int z).

(** [x || d] for a possibly undefined string [x]: [undefined] and the
    empty string are the falsy values. *)
Definition or_else (x : option string) (d : string) : string :=
  match x with
  | Some (String c s) => String c s
  | _ => d
  end.

Definition mem (x : string) (l : list string) : bool :=
  existsb (String.eqb x) l.

(** A [Set<string>] keeps its members once, in insertion order. *)
Definition Set_add (s : list string) (x : string) : list string :=
  if mem x s then s else (s ++ [x])%list.

Definition Set_of (l : list string) : list string := fold_left Set_add l [].

End JS.

(** ** Regular expressions of the engine

    Every regular expression that the engine calls [test] on has the shape
    [/\b(w1|w2|...)\b/i]: a word boundary, an alternation of literal words
    and phrases, a word boundary.  A [RegExp] object carries its flags and
    the mutable [lastIndex] property. *)

Module RegExp.

Record t := mk {
  alternatives : list string;
  ignoreCase : bool;
  global : bool;
  sticky : bool;
  lastIndex : nat
}.

(** [/\b(...)\b/i] as a literal: a fresh object, [lastIndex] 0. *)
Definition word_i (alts : list string) : t := mk alts true false false 0.

(** [\w] is [A-Za-z0-9_]; without the [u] flag the [i] flag does not
    extend it. *)
Definition isWordChar (c : option ascii) : bool :=
  match c with
  | None => false
  | Some c => (JS.in_range 48 57 c || JS.in_range 65 90 c
               || JS.in_range 97 122 c || N.eqb (N_of_ascii c) 95)%bool
  end.

(** The assertion [\b] between the unit before and the unit after. *)
Definition boundary (prev next : option ascii) : bool :=
  xorb (isWordChar prev) (isWordChar next).

(** Canonicalize of a non-Unicode case-insensitive match.  The patterns
    consist of ASCII letters and spaces, and no code unit above 127
    canonicalizes to an ASCII one, so only the ASCII letters fold. *)
Definition Canonicalize (ic : bool) (c : ascii) : ascii :=
  if (ic && JS.in_range 97 122 c)%bool then ascii_of_N (N_of_ascii c - 32) else c.

Definition head (s : string) : option ascii :=
  match s with
  | EmptyString => None
  | String c _ => Some c
  end.

(** Match the literal [pat] at the front of [s]; on success the unit
    consumed last (or [prev] when [pat] is empty) and the rest. *)
Fixpoint literal (ic : bool) (pat : string) (prev : option ascii) (s : string)
  : option (option ascii * string) :=
  match pat with
  | EmptyString => Some (prev, s)
  | String p pat' =>
      match s with
      | EmptyString => None
      | String c s' =>
          if Ascii.eqb (Canonicalize ic c) (Canonicalize ic p)
          then literal ic pat' (Some c) s'
          else None
      end
  end.

(** The alternation followed by [\b]: alternatives are tried in order and
    one is kept only if the boundary after it holds.  The result is the
    number of units matched. *)
Fixpoint alternation (ic : bool) (alts : list string) (prev : option ascii) (s : string)
  : option nat :=
  match alts with
  | [] => None
  | a :: alts' =>
      match literal ic a prev s with
      | Some (last, rest) =>
          if boundary last (head rest) then Some (String.length a)
          else alternation ic alts' prev s
      | None => alternation ic alts' prev s
      end
  end.

(** The whole pattern at one position. *)
Definition match_here (r : t) (prev : option ascii) (s : string) : option nat :=
  if boundary prev (head s) then alternation (ignoreCase r) (alternatives r) prev s
  else None.

(** Scan forward from index [i]; the result is the start and the end index
    of the leftmost match. *)
Fixpoint scan (r : t) (prev : option ascii) (s : string) (i : nat) : option (nat * nat) :=
  match match_here r prev s with
  | Some n => Some (i, i + n)
  | None =>
      match s with
      | EmptyString => None
      | String c s' => scan r (Some c) s' (S i)
      end
  end.

(** The unit before index [i] and the text from index [i] on; [None] when
    [i] is beyond the end of [s]. *)
Fixpoint seek (prev : option ascii) (s : string) (i : nat) : option (option ascii * string) :=
  match i with
  | 0 => Some (prev, s)
  | S i' =>
      match s with
      | EmptyString => None
      | String c s' => seek (Some c) s' i'
      end
  end.

(** RegExpBuiltinExec, reduced to what [test] observes: whether there is a
    match, and the object with its [lastIndex] after the call.  Only a
    global or sticky expression reads or writes [lastIndex]. *)
Definition exec (r : t) (s : string) : option (nat * nat) * t :=
  let stateful := (global r || sticky r)%bool in
  let start := if stateful then lastIndex r else 0 in
  let reset := mk (alternatives r) (ignoreCase r) (global r) (sticky r) 0 in
  let found :=
    match seek None s start with
    | None => None
    | Some (prev, rest) =>
        if sticky r
        then match match_here r prev rest with
             | Some n => Some (start, start + n)
             | None => None
             end
        else scan r prev rest start
    end in
  match found with
  | None => (None, if stateful then reset else r)
  | Some (b, e) =>
      (Some (b, e),
       if stateful
       then mk (alternatives r) (ignoreCase r) (global r) (sticky r) e
       else r)
  end.

(** [r.test(s)]. *)
Definition test (r : t) (s : string) : bool * t :=
  match exec r s with
  | (Some _, r') => (true, r')
  | (None, r') => (false, r')
  end.

End RegExp.

(** ** Segmentation, normalization, similarity, clustering *)

Definition isSentenceDelimiter (c : ascii) : bool :=
  (Ascii.eqb c "." || Ascii.eqb c "!" || Ascii.eqb c "?" || N.eqb (N_of_ascii c) 10)%bool.

(** [text.split(/[.!?\n]+/).map(s => s.trim()).filter(s => s.length > 10)] *)
Definition extractSentences (text : string) : list string :=
  filter (fun s => (10 <? String.length s)%nat)
         (map JS.trim (JS.split_class isSentenceDelimiter text)).

(** The chain of [replace] calls, each applied to the result of the one
    before it. *)
Definition normalizeToken (word : string) : string :=
  JS.replace_end "s"
  (JS.replace_end "es"
  (JS.replace_end "er"
  (JS.replace_end "ed"
  (JS.replace_end "ly"
  (JS.replace_end "ive"
  (JS.replace_end "ous"
  (JS.replace_end "less"
  (JS.replace_end "ful"
  (JS.replace_end "able"
  (JS.replace_end "ness"
  (JS.replace_end "ment"
  (JS.replace_end "tion"
  (JS.replace_end "ing" word))))))))))))).

(** The class [[^a-z0-9\s]]. *)
Definition isNoise (c : ascii) : bool :=
  negb (JS.in_range 97 122 c || JS.in_range 48 57 c || JS.isWhiteSpace c).

(** [text.toLowerCase().replace(/[^a-z0-9\s]/g, "").split(/\s+/).filter(w => w.length > 2)] *)
Definition getTokens (text : string) : list string :=
  filter (fun w => (2 <? String.length w)%nat)
         (JS.split_class JS.isWhiteSpace
            (JS.filter_units (fun c => negb (isNoise c)) (JS.toLowerCase text))).

(** The score is the quotient of two counts.  It is kept as an exact
    rational: the double the engine computes is the correctly rounded
    quotient, and comparing it with the (rounded) thresholds 0.35 and 0.25
    agrees with the exact comparison for every token set a text can give. *)
Definition semanticSimilarity (a b : string) : Q :=
  let tokensA := JS.Set_of (map normalizeToken (getTokens a)) in
  let tokensB := JS.Set_of (map normalizeToken (getTokens b)) in
  if ((List.length tokensA =? 0)%nat || (List.length tokensB =? 0)%nat)%bool then 0%Q
  else
    let overlap :=
      fold_left (fun n t => if JS.mem t tokensB then S n else n) tokensA 0 in
    Qmake (Z.of_nat overlap) (Pos.of_nat (Nat.min (List.length tokensA) (List.length tokensB))).

(** The set of root forms of a sentence, [new Set(getTokens(a).map(normalizeToken))]. *)
Definition tokenSet (a : string) : list string :=
  JS.Set_of (map normalizeToken (getTokens a)).

Definition has_index (i : nat) (assigned : list nat) : bool :=
  existsb (Nat.eqb i) assigned.

(** The inner loop [for (j = i + 1; ...)]: [rest] is the part of
    [sentences] from index [j] on. *)
Fixpoint absorb (seed : string) (threshold : Q) (rest : list string) (j : nat)
         (assigned : list nat) (cluster : list string) : list string * list nat :=
  match rest with
  | [] => (cluster, assigned)
  | sj :: rest' =>
      if has_index j assigned then absorb seed threshold rest' (S j) assigned cluster
      else if Qle_bool threshold (semanticSimilarity seed sj)
           then absorb seed threshold rest' (S j) (j :: assigned) (cluster ++ [sj])%list
           else absorb seed threshold rest' (S j) assigned cluster
  end.

(** The outer loop [for (i = 0; ...)]: [rest] is the part of [sentences]
    from index [i] on. *)
Fixpoint cluster_loop (threshold : Q) (rest : list string) (i : nat)
         (assigned : list nat) (clusters : list (list string)) : list (list string) :=
  match rest with
  | [] => clusters
  | si :: rest' =>
      if has_index i assigned then cluster_loop threshold rest' (S i) assigned clusters
      else
        let '(cluster, assigned') :=
          absorb si threshold rest' (S i) (i :: assigned) [si] in
        cluster_loop threshold rest' (S i) assigned' (clusters ++ [cluster])%list
  end.

Definition clusterSentences (sentences : list string) (threshold : Q) : list (list string) :=
  cluster_loop threshold sentences 0 [] [].

Definition default_threshold : Q := 35 # 100.

(** ** The report *)

Inductive Level := high | medium | low.
Inductive Sentiment := positive | negative | neutral.

Record PainPoint := {
  issue : string; frequency : string; severity : Level; quotes : list string }.
Record EmotionalPattern := {
  emotion : string; intensity : string; trigger : string; sentiment : Sentiment }.
Record BehavioralTheme := {
  theme : string; description : string; user_segment : string }.
Record CognitiveBias := {
  bias : string; evidence : string; impact : string }.
Record Persona := {
  name : string; role : string; goals : list string;
  frustrations : list string; quote : string }.
Record Recommendation := {
  priority : Level; category : string; action : string; expected_impact : string }.

Record AnalysisResult := {
  pain_points : list PainPoint;
  emotional_patterns : list EmotionalPattern;
  behavioral_themes : list BehavioralTheme;
  cognitive_biases : list CognitiveBias;
  personas : list Persona;
  recommendations : list Recommendation;
  executive_summary : string
}.

Definition Level_eqb (a b : Level) : bool :=
  match a, b with
  | high, high | medium, medium | low, low => true
  | _, _ => false
  end.

Definition Sentiment_eqb (a b : Sentiment) : bool :=
  match a, b with
  | positive, positive | negative, negative | neutral, neutral => true
  | _, _ => false
  end.

(** ** Sentiment inference *)

Definition negativeSignals : list string :=
  ["but"; "however"; "although"; "unfortunately"; "wish"; "if only"; "struggle";
   "hard"; "difficult"; "problem"; "issue"; "can't"; "cannot"; "won't";
   "shouldn't"; "bad"; "worse"; "worst"; "lack"; "poor"; "no way"; "not good";
   "not great"; "could be better"; "needs work"; "too much"; "too many";
   "not enough"].

Definition positiveSignals : list string :=
  ["thank"; "appreciate"; "glad"; "happy"; "enjoy"; "pleased"; "excellent";
   "wonderful"; "fantastic"; "good job"; "well done"; "perfect"; "works well";
   "impressed"; "helpful"; "nice"; "solid"; "clean"; "fast"; "quick"].

Definition inferSentiment (sentence : string) : Sentiment :=
  let lower := JS.toLowerCase sentence in
  let negScore := List.length (filter (fun s => JS.includes lower s) negativeSignals) in
  let posScore := List.length (filter (fun s => JS.includes lower s) positiveSignals) in
  if (posScore <? negScore)%nat then negative
  else if (negScore <? posScore)%nat then positive
  else neutral.

(** ** The static taxonomy tables *)

Module Pain.
Record t := mk { keywords : list string; issue : string }.
End Pain.

Module Emotion.
Record t := mk { keywords : list string; emotion : string; sentiment : Sentiment }.
End Emotion.

Module Bias.
Record t := mk { keywords : list string; bias : string; impact : string }.
End Bias.

Module ImplicitTheme.
Record t := mk {
  patterns : list RegExp.t; theme : string; description : string; user_segment : string }.
End ImplicitTheme.

Definition PAIN_KEYWORDS : list Pain.t :=
  [ Pain.mk ["slow"; "loading"; "wait"; "lag"; "performance"; "takes forever"; "too long"; "speed"]
            "Performance & Speed Issues";
    Pain.mk ["confus"; "unclear"; "hard to find"; "lost"; "where"; "navigate"; "find"; "hidden"; "buried"]
            "Navigation & Discoverability";
    Pain.mk ["bug"; "crash"; "error"; "broken"; "doesn't work"; "fail"; "glitch"; "freeze"; "stuck"; "hang"]
            "Reliability & Bugs";
    Pain.mk ["price"; "expensive"; "cost"; "pay"; "subscription"; "billing"; "charge"; "fee"; "worth"]
            "Pricing Concerns";
    Pain.mk ["support"; "help"; "response"; "contact"; "ticket"; "resolve"; "agent"; "wait time"; "reply"]
            "Customer Support Quality";
    Pain.mk ["design"; "ugly"; "outdated"; "look"; "ui"; "interface"; "layout"; "visual"; "aesthetic"; "cluttered"]
            "UI/UX Design Quality";
    Pain.mk ["feature"; "missing"; "need"; "wish"; "want"; "should"; "add"; "include"; "implement"; "request"]
            "Missing Features";
    Pain.mk ["mobile"; "phone"; "app"; "responsive"; "tablet"; "small screen"; "touch"]
            "Mobile Experience";
    Pain.mk ["security"; "privacy"; "data"; "breach"; "hack"; "protect"; "encrypt"; "password"]
            "Security & Privacy Concerns";
    Pain.mk ["document"; "docs"; "tutorial"; "guide"; "learn"; "how to"; "instruction"; "manual"]
            "Documentation & Learning Resources";
    Pain.mk ["integrat"; "connect"; "api"; "plugin"; "extension"; "third-party"; "sync"; "import"; "export"]
            "Integration & Compatibility" ].

Definition EMOTION_KEYWORDS : list Emotion.t :=
  [ Emotion.mk ["frustrat"; "annoyed"; "angry"; "hate"; "terrible"; "fed up"; "sick of"; "ridiculous"]
               "Frustration" negative;
    Emotion.mk ["confus"; "unclear"; "don't understand"; "complicated"; "complex"; "overwhelming"; "lost"]
               "Confusion" negative;
    Emotion.mk ["love"; "great"; "amazing"; "awesome"; "best"; "fantastic"; "wonderful"; "excellent"]
               "Delight" positive;
    Emotion.mk ["trust"; "reliable"; "secure"; "safe"; "depend"; "confident"; "consistent"]
               "Trust" positive;
    Emotion.mk ["disappoint"; "expected"; "letdown"; "underwhelm"; "let down"; "fell short"]
               "Disappointment" negative;
    Emotion.mk ["easy"; "simple"; "intuitive"; "smooth"; "seamless"; "effortless"; "straightforward"]
               "Satisfaction" positive;
    Emotion.mk ["anxious"; "worried"; "concern"; "nervous"; "afraid"; "scary"; "uncertain"]
               "Anxiety" negative;
    Emotion.mk ["excit"; "eager"; "look forward"; "can't wait"; "thrilled"; "pumped"]
               "Excitement" positive ].

Definition BIAS_PATTERNS : list Bias.t :=
  [ Bias.mk ["always"; "never"; "every time"; "constantly"; "without fail"]
            "Frequency Illusion" "Users may overstate issue frequency";
    Bias.mk ["used to"; "before"; "old version"; "previous"; "back when"; "the way it was"]
            "Status Quo Bias" "Resistance to change may skew feedback";
    Bias.mk ["everyone"; "nobody"; "all users"; "we all"; "most people"; "no one"]
            "False Consensus Effect" "Individual opinions projected as group sentiment";
    Bias.mk ["first time"; "initial"; "when i started"; "first impression"; "right away"]
            "Primacy Effect" "First impressions disproportionately shape perception";
    Bias.mk ["just now"; "recently"; "last time"; "today"; "this week"; "latest"]
            "Recency Bias" "Recent experiences weighted more heavily";
    Bias.mk ["compared to"; "unlike"; "better than"; "worse than"; "competitor"; "alternative"]
            "Anchoring Bias" "Comparisons to competitors anchor expectations" ].

(** The table of implicit themes holds [RegExp] objects: they are created
    once, when the module is loaded, and every call of the engine uses the
    same objects. *)
Definition IMPLICIT_THEME_PATTERNS : list ImplicitTheme.t :=
  [ ImplicitTheme.mk
      [RegExp.word_i ["quick"; "fast"; "hurry"; "rush"; "time"; "efficient"; "productive"]]
      "Efficiency Seeking" "Users prioritize speed and streamlined workflows"
      "Productivity-Focused Users";
    ImplicitTheme.mk
      [RegExp.word_i ["try"; "test"; "experiment"; "explore"; "discover"; "check out"; "play with"]]
      "Feature Exploration" "Users actively discover and evaluate capabilities"
      "Exploratory Users";
    ImplicitTheme.mk
      [RegExp.word_i ["reliable"; "stable"; "consistent"; "depend"; "count on"; "trust"]]
      "Reliability Dependence" "Users need predictable, stable experiences"
      "Mission-Critical Users";
    ImplicitTheme.mk
      [RegExp.word_i ["automat"; "workflow"; "repeat"; "batch"; "routine"; "template"; "preset"]]
      "Automation Desire" "Users seek to reduce repetitive manual work"
      "Power Users";
    ImplicitTheme.mk
      [RegExp.word_i ["compare"; "switch"; "migrate"; "alternative"; "option"; "choice"]]
      "Evaluation Mindset" "Users actively compare against alternatives"
      "Evaluating Users";
    ImplicitTheme.mk
      [RegExp.word_i ["learn"; "understand"; "figure out"; "how do"; "how to"; "tutorial"; "guide"]]
      "Learning Orientation" "Users invest in understanding the product deeply"
      "Self-Directed Learners";
    ImplicitTheme.mk
      [RegExp.word_i ["daily"; "every day"; "morning"; "routine"; "regular"; "habit"; "always use"]]
      "Habitual Usage" "Product is embedded in daily workflows"
      "Daily Active Users";
    ImplicitTheme.mk
      [RegExp.word_i ["suggest"; "recommend"; "feedback"; "idea"; "opinion"; "vote"; "survey"]]
      "Co-Creation Drive" "Users want to influence product direction"
      "Engaged Advocates" ].

(** ** Array helpers *)

Section Arrays.
Context {A : Type}.

(** [.filter(Boolean)] after a [map] that yields an object or [null]. *)
Fixpoint filter_Boolean (l : list (option A)) : list A :=
  match l with
  | [] => []
  | Some x :: l' => x :: filter_Boolean l'
  | None :: l' => filter_Boolean l'
  end.

(** [Array.prototype.sort] with a comparator is a stable sort: of two
    elements the comparator does not order, the one that came first stays
    first.  Insertion from the right end realises it. *)
Fixpoint insert_sorted (cmp : A -> A -> Z) (x : A) (l : list A) : list A :=
  match l with
  | [] => [x]
  | y :: l' => if (cmp x y <=? 0)%Z then x :: y :: l' else y :: insert_sorted cmp x l'
  end.

Fixpoint sort (cmp : A -> A -> Z) (l : list A) : list A :=
  match l with
  | [] => []
  | x :: l' => insert_sorted cmp x (sort cmp l')
  end.

(** [.map((x, i) => ...)] *)
Fixpoint mapi_from {B : Type} (i : nat) (f : A -> nat -> B) (l : list A) : list B :=
  match l with
  | [] => []
  | x :: l' => f x i :: mapi_from (S i) f l'
  end.

(** A callback that may throw, run over an array: the first exception
    ends the run. *)
Fixpoint mapM {B : Type} (f : A -> option B) (l : list A) : option (list B) :=
  match l with
  | [] => Some []
  | x :: l' =>
      match f x with
      | None => None
      | Some y =>
          match mapM f l' with
          | None => None
          | Some ys => Some (y :: ys)
          end
      end
  end.
End Arrays.

Definition dquote : string := String (ascii_of_N 34) EmptyString.

(** ** Pain points *)

Definition sevOrder (l : Level) : Z :=
  match l with high => 3 | medium => 2 | low => 1 end.

(** [n >= 3 ? "high" : n >= 2 ? "medium" : "low"] *)
Definition tier (n : Z) : Level :=
  if (3 <=? n)%Z then high else if (2 <=? n)%Z then medium else low.

(** [`${n} mention${n > 1 ? "s" : ""}`] *)
Definition mentions (n : Z) : string :=
  JS.show_Z n ++ " mention" ++ (if (1 <? n)%Z then "s" else "").

Definition matchesAny (keywords : list string) (s : string) : bool :=
  existsb (fun k => JS.includes (JS.toLowerCase s) k) keywords.

Definition clusterBoost (clusters : list (list string)) (matchingSentences : list string) : Z :=
  if (0 <? List.length matchingSentences)%nat
  then Z.of_nat
         (fold_left (fun sum c => sum + List.length c)
            (filter (fun c => existsb (fun s => JS.mem s matchingSentences) c) clusters) 0)
       - Z.of_nat (List.length matchingSentences)
  else 0%Z.

(** [Math.floor(clusterBoost * 0.5)] is the floored half, [Z.div] by 2. *)
Definition totalMentions (clusters : list (list string)) (matchingSentences : list string) : Z :=
  Z.of_nat (List.length matchingSentences) + clusterBoost clusters matchingSentences / 2.

Definition painPointOf (sentences : list string) (clusters : list (list string)) (p : Pain.t)
  : option PainPoint :=
  let matchingSentences := filter (matchesAny (Pain.keywords p)) sentences in
  let total := totalMentions clusters matchingSentences in
  if (total =? 0)%Z then None
  else Some {| issue := Pain.issue p;
               frequency := mentions total;
               severity := tier total;
               quotes := firstn 3 matchingSentences |}.

Definition bySeverity (a b : PainPoint) : Z := (sevOrder (severity b) - sevOrder (severity a))%Z.

Definition explicitPainPoints (sentences : list string) (clusters : list (list string))
  : list PainPoint :=
  sort bySeverity (filter_Boolean (map (painPointOf sentences clusters) PAIN_KEYWORDS)).

(** The body of the [forEach] over the inferred clusters.  [cluster[0]] is
    [undefined] for an empty cluster and reading its [length] throws. *)
Definition inferredIssue (cluster : list string) : option PainPoint :=
  match cluster with
  | [] => None
  | first :: _ =>
      let label :=
        if (60 <? String.length first)%nat then String.substring 0 57 first ++ "..." else first in
      let n := Z.of_nat (List.length cluster) in
      Some {| issue := "Inferred Issue: " ++ dquote ++ label ++ dquote;
              frequency := mentions n;
              severity := tier n;
              quotes := firstn 2 cluster |}
  end.

Definition painPoints (sentences : list string) (clusters : list (list string))
  : option (list PainPoint) :=
  let pain_points := explicitPainPoints sentences clusters in
  if (List.length pain_points =? 0)%nat then
    let negativeSentences :=
      filter (fun s => Sentiment_eqb (inferSentiment s) negative) sentences in
    if (0 <? List.length negativeSentences)%nat then
      let inferredClusters := clusterSentences negativeSentences (25 # 100) in
      match mapM inferredIssue (firstn 3 inferredClusters) with
      | None => None
      | Some inferred => Some (pain_points ++ inferred)%list
      end
    else Some pain_points
  else Some pain_points.

(** ** Emotional patterns *)

(** [n >= 3 ? "High" : n >= 2 ? "Medium" : "Low"] *)
Definition intensityOf (n : nat) : string :=
  if (3 <=? n)%nat then "High" else if (2 <=? n)%nat then "Medium" else "Low".

Definition emotionalPatternOf (sentences : list string) (e : Emotion.t)
  : option EmotionalPattern :=
  let matches := filter (matchesAny (Emotion.keywords e)) sentences in
  if (List.length matches =? 0)%nat then None
  else Some {| emotion := Emotion.emotion e;
               intensity := intensityOf (List.length matches);
               trigger := JS.or_else (nth_error matches 0) "";
               sentiment := Emotion.sentiment e |}.

(** [sentimentCounts] and [sentimentExamples], keyed by the sentiment. *)
Record Tally := {
  counts : Sentiment -> nat;
  examples : Sentiment -> option string
}.

Definition tally_sentence (t : Tally) (s : string) : Tally :=
  let sent := inferSentiment s in
  {| counts := fun k => if Sentiment_eqb k sent then S (counts t k) else counts t k;
     examples := fun k =>
       if Sentiment_eqb k sent
       then match examples t k with
            | Some (String c r) => Some (String c r)
            | _ => Some s
            end
       else examples t k |}.

Definition tally (sentences : list string) : Tally :=
  fold_left tally_sentence sentences
            {| counts := fun _ => 0; examples := fun _ => None |}.

Definition implicitEmotions (sentences : list string) : list EmotionalPattern :=
  let t := tally sentences in
  ((if (0 <? counts t negative)%nat
    then [ {| emotion := "Implicit Dissatisfaction";
              intensity := intensityOf (counts t negative);
              trigger := JS.or_else (examples t negative) "";
              sentiment := negative |} ]
    else [])
   ++ (if (0 <? counts t positive)%nat
       then [ {| emotion := "Implicit Approval";
                 intensity := intensityOf (counts t positive);
                 trigger := JS.or_else (examples t positive) "";
                 sentiment := positive |} ]
       else [])
   ++ (if ((0 <? counts t neutral)%nat && (counts t positive =? 0)%nat
           && (counts t negative =? 0)%nat)%bool
       then [ {| emotion := "Neutral Engagement";
                 intensity := "Low";
                 trigger := JS.or_else (examples t neutral) "";
                 sentiment := neutral |} ]
       else []))%list.

Definition emotionalPatterns (sentences : list string) : list EmotionalPattern :=
  let emotional_patterns := filter_Boolean (map (emotionalPatternOf sentences) EMOTION_KEYWORDS) in
  if (List.length emotional_patterns =? 0)%nat
  then (emotional_patterns ++ implicitEmotions sentences)%list
  else emotional_patterns.

(** ** Behavioral themes *)

Definition explicitThemes (lowerText : string) : list BehavioralTheme :=
  ((if (JS.includes lowerText "power user" || JS.includes lowerText "advanced"
        || JS.includes lowerText "shortcut")%bool
    then [ {| theme := "Power User Optimization";
              description := "Users seek efficiency and advanced workflows";
              user_segment := "Advanced Users" |} ]
    else [])
   ++ (if (JS.includes lowerText "first time" || JS.includes lowerText "new"
           || JS.includes lowerText "beginner" || JS.includes lowerText "onboard")%bool
       then [ {| theme := "Onboarding Friction";
                 description := "New users struggle with initial setup and learning curve";
                 user_segment := "New Users" |} ]
       else [])
   ++ (if (JS.includes lowerText "team" || JS.includes lowerText "collaborat"
           || JS.includes lowerText "share" || JS.includes lowerText "together")%bool
       then [ {| theme := "Collaboration Needs";
                 description := "Users want better team workflows and sharing capabilities";
                 user_segment := "Team Users" |} ]
       else [])
   ++ (if (JS.includes lowerText "custom" || JS.includes lowerText "configur"
           || JS.includes lowerText "personali" || JS.includes lowerText "setting")%bool
       then [ {| theme := "Customization Desire";
                 description := "Users want more control over their experience";
                 user_segment := "All Users" |} ]
       else []))%list.

(** [patterns.some(rx => rx.test(s))]: the objects are tested in order up
    to the first that matches; each tested object is returned as the call
    left it. *)
Fixpoint some_test (patterns : list RegExp.t) (s : string) : bool * list RegExp.t :=
  match patterns with
  | [] => (false, [])
  | rx :: patterns' =>
      let '(b, rx') := RegExp.test rx s in
      if b then (true, rx' :: patterns')
      else let '(b', rest) := some_test patterns' s in (b', rx' :: rest)
  end.

(** [sentences.filter(s => patterns.some(rx => rx.test(s))).length] *)
Fixpoint countMatches (patterns : list RegExp.t) (sentences : list string)
  : nat * list RegExp.t :=
  match sentences with
  | [] => (0, patterns)
  | s :: rest =>
      let '(b, patterns') := some_test patterns s in
      let '(n, patterns'') := countMatches patterns' rest in
      (if b then S n else n, patterns'')
  end.

(** [IMPLICIT_THEME_PATTERNS.forEach(...)], over the table as the call
    finds it; the table comes back as the call leaves it. *)
Fixpoint implicitThemes (table : list ImplicitTheme.t) (sentences : list string)
         (existingThemes : list string) (behavioral_themes : list BehavioralTheme)
  : list BehavioralTheme * list ImplicitTheme.t :=
  match table with
  | [] => (behavioral_themes, [])
  | p :: table' =>
      if JS.mem (ImplicitTheme.theme p) existingThemes then
        let '(themes, rest) :=
          implicitThemes table' sentences existingThemes behavioral_themes in
        (themes, p :: rest)
      else
        let '(matchCount, patterns') := countMatches (ImplicitTheme.patterns p) sentences in
        let p' := ImplicitTheme.mk patterns' (ImplicitTheme.theme p)
                    (ImplicitTheme.description p) (ImplicitTheme.user_segment p) in
        let pushed :=
          if (0 <? matchCount)%nat
          then (behavioral_themes
                ++ [ {| theme := ImplicitTheme.theme p;
                        description := ImplicitTheme.description p;
                        user_segment := ImplicitTheme.user_segment p |} ])%list
          else behavioral_themes in
        let '(themes, rest) := implicitThemes table' sentences existingThemes pushed in
        (themes, p' :: rest)
  end.

Definition bySize (a b : list string) : Z :=
  (Z.of_nat (List.length b) - Z.of_nat (List.length a))%Z.

(** The body of the [forEach] over [topClusters]; as in [inferredIssue],
    [cluster[0].length] throws for an empty cluster. *)
Definition recurringTheme (cluster : list string) : option BehavioralTheme :=
  match cluster with
  | [] => None
  | first :: _ =>
      let summary :=
        if (50 <? String.length first)%nat then String.substring 0 47 first ++ "..." else first in
      Some {| theme := "Recurring Theme: " ++ dquote ++ summary ++ dquote;
              description := JS.show_nat (List.length cluster)
                             ++ " semantically similar statements clustered around this topic";
              user_segment := "Detected Segment" |}
  end.

Definition fallbacks : list BehavioralTheme :=
  [ {| theme := "Efficiency Seeking";
       description := "Users prioritize speed and streamlined workflows";
       user_segment := "All Users" |};
    {| theme := "Feature Exploration";
       description := "Users actively discover and request new capabilities";
       user_segment := "Engaged Users" |} ].

(** The [while (behavioral_themes.length < 2)] loop of the final fallback.
    Every turn that does not [break] pushes a theme, so the shortfall
    [2 - length] decreases. *)
Equations? fallbackLoop (behavioral_themes : list BehavioralTheme) (existingThemes : list string)
  : list BehavioralTheme by wf (2 - List.length behavioral_themes) lt :=
  fallbackLoop behavioral_themes existingThemes with lt_dec (List.length behavioral_themes) 2 := {
    | right _ => behavioral_themes
    | left _ with find (fun f => negb (JS.mem (theme f) existingThemes)) fallbacks := {
        | Some fb => fallbackLoop (behavioral_themes ++ [fb])%list
                                  (JS.Set_add existingThemes (theme fb))
        | None => behavioral_themes } }.
Proof.
  rewrite length_app; simpl.
  destruct behavioral_themes0 as [|? [|? ?]]; simpl in *; lia.
Qed.

Definition behavioralThemes (table : list ImplicitTheme.t) (lowerText : string)
           (sentences : list string) (clusters : list (list string))
  : option (list BehavioralTheme) * list ImplicitTheme.t :=
  let explicit := explicitThemes lowerText in
  let existingThemes := JS.Set_of (map theme explicit) in
  let '(behavioral_themes, table') :=
    implicitThemes table sentences existingThemes explicit in
  if (List.length behavioral_themes <? 2)%nat then
    let topClusters :=
      firstn (2 - List.length behavioral_themes)
             (sort bySize (filter (fun c => (2 <=? List.length c)%nat) clusters)) in
    match mapM recurringTheme topClusters with
    | None => (None, table')
    | Some recurring =>
        (Some (fallbackLoop (behavioral_themes ++ recurring)%list existingThemes), table')
    end
  else (Some behavioral_themes, table').

(** ** Cognitive biases *)

Definition biasOf (lowerText : string) (b : Bias.t) : option CognitiveBias :=
  let matchedKeywords := filter (fun k => JS.includes lowerText k) (Bias.keywords b) in
  if (List.length matchedKeywords =? 0)%nat then None
  else Some {| bias := Bias.bias b;
               evidence := "Keywords detected: " ++ JS.join ", " matchedKeywords;
               impact := Bias.impact b |}.

Definition explicitBiases (lowerText : string) : list CognitiveBias :=
  filter_Boolean (map (biasOf lowerText) BIAS_PATTERNS).

(** A regular-expression literal inside the callback is a fresh object at
    every evaluation, so nothing of it outlives the [test]. *)
Definition test_literal (alts : list string) (s : string) : bool :=
  fst (RegExp.test (RegExp.word_i alts) s).

Definition plural (n : nat) : string := if (1 <? n)%nat then "s" else "".

Definition implicitBiases (sentences : list string) : list CognitiveBias :=
  let absoluteStatements :=
    filter (test_literal ["always"; "never"; "every"; "all"; "none"; "impossible";
                          "definitely"; "absolutely"; "completely"]) sentences in
  let comparisonStatements :=
    filter (test_literal ["better"; "worse"; "more"; "less"; "than"; "compared";
                          "versus"; "vs"]) sentences in
  ((if (0 <? List.length absoluteStatements)%nat
    then [ {| bias := "Absolutist Thinking";
              evidence := JS.show_nat (List.length absoluteStatements) ++ " statement"
                          ++ plural (List.length absoluteStatements)
                          ++ " using absolute language detected";
              impact := "Extreme language may indicate emotionally-driven rather than balanced feedback" |} ]
    else [])
   ++ (if (0 <? List.length comparisonStatements)%nat
       then [ {| bias := "Comparative Framing";
                 evidence := JS.show_nat (List.length comparisonStatements)
                             ++ " comparative statement"
                             ++ plural (List.length comparisonStatements) ++ " found";
                 impact := "Users evaluate features relative to past experience or competitors rather than absolute quality" |} ]
       else []))%list.

Definition cognitiveBiases (lowerText : string) (sentences : list string) : list CognitiveBias :=
  let cognitive_biases := explicitBiases lowerText in
  if (List.length cognitive_biases =? 0)%nat
  then (cognitive_biases ++ implicitBiases sentences)%list
  else cognitive_biases.

(** ** Personas, recommendations, summary *)

Definition countSentiment (k : Sentiment) (emotional_patterns : list EmotionalPattern) : nat :=
  List.length (filter (fun e => Sentiment_eqb (sentiment e) k) emotional_patterns).

Definition buildPersonas (sentences : list string) (pain_points : list PainPoint)
           (negativeCount positiveCount : nat) : list Persona :=
  let topFrustrations :=
    if (0 <? List.length pain_points)%nat
    then map issue (firstn 2 pain_points)
    else ["Unmet expectations"; "Workflow friction"] in
  [ {| name := "Alex the Advocate";
       role := if (negativeCount <? positiveCount)%nat
               then "Enthusiastic power user" else "Frustrated loyalist";
       goals := ["Get work done efficiently"; "Help improve the product"; "Share with team"];
       frustrations := topFrustrations;
       quote := JS.or_else (nth_error sentences 0)
                           "I use this daily but there's room to grow." |};
    {| name := "Jordan the Explorer";
       role := "Curious newcomer evaluating options";
       goals := ["Understand the product quickly"; "Compare with alternatives"; "Find value fast"];
       frustrations :=
         ("Steep learning curve"
          :: match pain_points with
             | p :: _ => [issue p]
             | [] => ["Unclear value proposition"]
             end)%list;
       quote := JS.or_else (nth_error sentences (List.length sentences / 2))
                           "I just want it to be straightforward." |} ].

Definition painRecommendation (p : PainPoint) (i : nat) : Recommendation :=
  {| priority := if (i =? 0)%nat then high else if (i =? 1)%nat then medium else low;
     category := issue p;
     action := "Address " ++ JS.toLowerCase (issue p) ++ " based on " ++ frequency p
               ++ " of user feedback";
     expected_impact :=
       if Level_eqb (severity p) high
       then "Significant improvement in user satisfaction"
       else "Moderate positive impact on user experience" |}.

Definition addEmotionRecommendation (recommendations : list Recommendation)
           (e : EmotionalPattern) : list Recommendation :=
  if negb (existsb (fun r => JS.includes (category r) (emotion e)) recommendations)
  then (recommendations
        ++ [ {| priority := if String.eqb (intensity e) "High" then high else medium;
                category := emotion e ++ " Mitigation";
                action := "Investigate and address triggers of user "
                          ++ JS.toLowerCase (emotion e) ++ " in the product experience";
                expected_impact :=
                  "Reduced negative sentiment and improved emotional engagement" |} ])%list
  else recommendations.

Definition addThemeRecommendation (recommendations : list Recommendation)
           (t : BehavioralTheme) : list Recommendation :=
  if negb (existsb (fun r => String.eqb (category r) (theme t)) recommendations)
  then (recommendations
        ++ [ {| priority := medium;
                category := theme t;
                action := "Optimize the experience for " ++ JS.toLowerCase (user_segment t)
                          ++ " around " ++ JS.toLowerCase (theme t);
                expected_impact :=
                  "Better alignment with observed user behavior patterns" |} ])%list
  else recommendations.

Definition defaults : list Recommendation :=
  [ {| priority := high; category := "User Research";
       action := "Conduct targeted user interviews to validate inferred patterns";
       expected_impact := "Stronger evidence base for product decisions" |};
    {| priority := medium; category := "Feedback Loop";
       action := "Implement structured in-app feedback collection to capture richer signals";
       expected_impact := "Better data quality for ongoing analysis" |} ].

Definition addDefault (recommendations : list Recommendation) (d : Recommendation)
  : list Recommendation :=
  if ((List.length recommendations <? 2)%nat
      && negb (existsb (fun r => String.eqb (category r) (category d)) recommendations))%bool
  then (recommendations ++ [d])%list
  else recommendations.

Definition buildRecommendations (pain_points : list PainPoint)
           (emotional_patterns : list EmotionalPattern)
           (behavioral_themes : list BehavioralTheme) : list Recommendation :=
  let fromPain := mapi_from 0 painRecommendation (firstn 3 pain_points) in
  let withEmotions :=
    fold_left addEmotionRecommendation
      (firstn 2
         (filter (fun e => (Sentiment_eqb (sentiment e) negative
                            && negb (String.eqb (intensity e) "Low"))%bool)
                 emotional_patterns))
      fromPain in
  let withThemes := fold_left addThemeRecommendation (firstn 2 behavioral_themes) withEmotions in
  if (List.length withThemes <? 2)%nat
  then fold_left addDefault defaults withThemes
  else withThemes.

Definition buildSummary (pain_points : list PainPoint)
           (emotional_patterns : list EmotionalPattern)
           (behavioral_themes : list BehavioralTheme)
           (cognitive_biases : list CognitiveBias)
           (recommendations : list Recommendation)
           (negativeCount positiveCount : nat) : string :=
  "Analysis of user feedback reveals " ++ JS.show_nat (List.length pain_points)
  ++ " key pain point" ++ (if (List.length pain_points =? 1)%nat then "" else "s")
  ++ " and " ++ JS.show_nat (List.length emotional_patterns)
  ++ " distinct emotional pattern"
  ++ (if (List.length emotional_patterns =? 1)%nat then "" else "s")
  ++ ". "
  ++ (if (positiveCount <? negativeCount)%nat
      then "Overall sentiment skews negative, suggesting urgent attention to core issues."
      else if (negativeCount <? positiveCount)%nat
           then "Overall sentiment is positive, with targeted areas for improvement."
           else "Sentiment is mixed, indicating both strengths and areas needing attention.")
  ++ " "
  ++ match pain_points with
     | p :: _ => "The most critical issue is " ++ dquote ++ issue p ++ dquote
                 ++ " with " ++ frequency p ++ "."
     | [] => ""
     end
  ++ " "
  ++ (if (0 <? List.length cognitive_biases)%nat
      then JS.show_nat (List.length cognitive_biases) ++ " cognitive bias"
           ++ (if (1 <? List.length cognitive_biases)%nat then "es were" else " was")
           ++ " detected, which should be considered when interpreting results."
      else "")
  ++ " " ++ JS.show_nat (List.length behavioral_themes) ++ " behavioral theme"
  ++ (if (List.length behavioral_themes =? 1)%nat then " was" else "s were")
  ++ " identified"
  ++ match behavioral_themes with
     | t :: _ => ", including " ++ dquote ++ theme t ++ dquote
     | [] => ""
     end
  ++ ". Two user personas were generated to guide product strategy, with "
  ++ JS.show_nat (List.length recommendations)
  ++ " actionable recommendations prioritized by impact.".

(** ** The pipeline *)

(** One call of the engine, in a process whose table of implicit themes is
    [table].  The result is the report, or [None] if the call throws, and
    the table as the call leaves it. *)
Definition analyzeUserFeedback_in (table : list ImplicitTheme.t) (rawText : string)
  : option AnalysisResult * list ImplicitTheme.t :=
  let sentences := extractSentences rawText in
  let lowerText := JS.toLowerCase rawText in
  let clusters := clusterSentences sentences default_threshold in
  match painPoints sentences clusters with
  | None => (None, table)
  | Some pain_points =>
      let emotional_patterns := emotionalPatterns sentences in
      match behavioralThemes table lowerText sentences clusters with
      | (None, table') => (None, table')
      | (Some behavioral_themes, table') =>
          let cognitive_biases := cognitiveBiases lowerText sentences in
          let negativeCount := countSentiment negative emotional_patterns in
          let positiveCount := countSentiment positive emotional_patterns in
          let personas := buildPersonas sentences pain_points negativeCount positiveCount in
          let recommendations :=
            buildRecommendations pain_points emotional_patterns behavioral_themes in
          let executive_summary :=
            buildSummary pain_points emotional_patterns behavioral_themes cognitive_biases
                         recommendations negativeCount positiveCount in
          (Some {| pain_points := pain_points;
                   emotional_patterns := emotional_patterns;
                   behavioral_themes := behavioral_themes;
                   cognitive_biases := cognitive_biases;
                   personas := personas;
                   recommendations := recommendations;
                   executive_summary := executive_summary |},
           table')
      end
  end.

(** The exported function, called in a freshly loaded module. *)
Definition analyzeUserFeedback (rawText : string) : option AnalysisResult :=
  fst (analyzeUserFeedback_in IMPLICIT_THEME_PATTERNS rawText).

(** ** The input panel (src/components/AnalysisInput.tsx)

    The expressions that the panel computes from its text at every render. *)

(** [text.trim() ? text.trim().split(/\s+/).length : 0] *)
Definition wordCount (text : string) : nat :=
  match JS.trim text with
  | EmptyString => 0
  | String c s => List.length (JS.split_class JS.isWhiteSpace (String c s))
  end.

(** [text.split(/[.!?\n]+/).filter(s => s.trim().length > 10).length] *)
Definition sentencesDetected (text : string) : nat :=
  List.length
    (filter (fun s => (10 <? String.length (JS.trim s))%nat)
            (JS.split_class isSentenceDelimiter text)).

(** [disabled={wordCount < 5 || isAnalyzing}] of the button that calls
    [onAnalyze(text)]. *)
Definition analyzeDisabled (text : string) (isAnalyzing : bool) : bool :=
  ((wordCount text <? 5)%nat || isAnalyzing)%bool.

(** ** The charts (src/components/AnalysisResults.tsx) *)

(** The value of a digit of the radix, [None] for any other unit. *)
Definition digitValue (radix : Z) (c : ascii) : option Z :=
  let n := Z.of_N (N_of_ascii c) in
  let v :=
    if JS.in_range 48 57 c then Some (n - 48)%Z
    else if JS.in_range 97 122 c then Some (n - 87)%Z
    else if JS.in_range 65 90 c then Some (n - 55)%Z
    else None in
  match v with
  | Some d => if (d <? radix)%Z then Some d else None
  | None => None
  end.

(** The value of the longest prefix of digits, from the value [acc] of the
    digits read so far ([None]: no digit yet). *)
Fixpoint digitsPrefix (radix : Z) (s : string) (acc : option Z) : option Z :=
  match s with
  | EmptyString => acc
  | String c s' =>
      match digitValue radix c with
      | Some d =>
          digitsPrefix radix s'
            (Some (radix * match acc with Some a => a | None => 0 end + d)%Z)
      | None => acc
      end
  end.

(** [parseInt(s)] without a radix argument: white space at the start is
    skipped, a sign is read, [0x] or [0X] switches to radix 16, and the
    longest prefix of digits is the value; [None] stands for [NaN].  The
    value is kept exact, as it is for a Number below 2^53. *)
Definition parseInt (s : string) : option Z :=
  let S := JS.trimStart s in
  let '(sign, S1) :=
    match S with
    | String c r =>
        if Ascii.eqb c "-" then ((-1)%Z, r)
        else if Ascii.eqb c "+" then (1%Z, r)
        else (1%Z, S)
    | EmptyString => (1%Z, S)
    end in
  let '(R, S2) :=
    match S1 with
    | String c (String x r) =>
        if (Ascii.eqb c "0" && (Ascii.eqb x "x" || Ascii.eqb x "X"))%bool
        then (16%Z, r) else (10%Z, S1)
    | _ => (10%Z, S1)
    end in
  match digitsPrefix R S2 None with
  | Some m => Some (sign * m)%Z
  | None => None
  end.

(** [s.split(" ")[0]]: the part of [s] before its first space. *)
Fixpoint firstWord (s : string) : string :=
  match s with
  | EmptyString => EmptyString
  | String c s' => if Ascii.eqb c " " then EmptyString else String c (firstWord s')
  end.

Module PainBar.
Record t := mk { name : string; fullName : string; count : Z }.
End PainBar.

(** [parseInt(p.frequency) || 1]: [NaN] and 0 are the falsy numbers. *)
Definition countOf (frequency : string) : Z :=
  match parseInt frequency with
  | Some n => if (n =? 0)%Z then 1%Z else n
  | None => 1%Z
  end.

Definition painChartData (result : AnalysisResult) : list PainBar.t :=
  map (fun p => PainBar.mk (firstWord (issue p)) (issue p) (countOf (frequency p)))
      (pain_points result).

Module RadarPoint.
Record t := mk { emotion : string; intensity : nat }.
End RadarPoint.

(** [e.intensity === "High" ? 3 : e.intensity === "Medium" ? 2 : 1] *)
Definition intensityValue (intensity : string) : nat :=
  if String.eqb intensity "High" then 3
  else if String.eqb intensity "Medium" then 2 else 1.

Definition emotionRadarData (result : AnalysisResult) : list RadarPoint.t :=
  map (fun e => RadarPoint.mk (emotion e) (intensityValue (intensity e)))
      (emotional_patterns result).

Module PieSlice.
Record t := mk { name : string; value : nat; color : string }.
End PieSlice.

Definition sentimentPieData (result : AnalysisResult) : list PieSlice.t :=
  filter (fun d => (0 <? PieSlice.value d)%nat)
    [ PieSlice.mk "Positive" (countSentiment positive (emotional_patterns result))
                  "hsl(160, 60%, 45%)";
      PieSlice.mk "Negative" (countSentiment negative (emotional_patterns result))
                  "hsl(0, 72%, 51%)";
      PieSlice.mk "Neutral" (countSentiment neutral (emotional_patterns result))
                  "hsl(220, 10%, 55%)" ].

(** ** The first version of the engine (src/lib/analysis-engine.ts, second part)

    The file also holds the version of the engine without clustering and
    without inference: the keyword tables are run once over the sentences.
    Its stages are written as in the source; where an expression is the
    one of the later version, the definition above is used. *)

Module Legacy.

(** [text.split(/[.!?\n]+/).map(s => s.trim()).filter(s => s.length > 10)] *)
Definition extractSentences (text : string) : list string :=
  filter (fun s => (10 <? String.length s)%nat)
         (map JS.trim (JS.split_class isSentenceDelimiter text)).

Definition PAIN_KEYWORDS : list Pain.t :=
  [ Pain.mk ["slow"; "loading"; "wait"; "lag"; "performance"] "Performance & Speed Issues";
    Pain.mk ["confus"; "unclear"; "hard to find"; "lost"; "where"] "Navigation & Discoverability";
    Pain.mk ["bug"; "crash"; "error"; "broken"; "doesn't work"; "fail"] "Reliability & Bugs";
    Pain.mk ["price"; "expensive"; "cost"; "pay"; "subscription"] "Pricing Concerns";
    Pain.mk ["support"; "help"; "response"; "contact"; "ticket"] "Customer Support Quality";
    Pain.mk ["design"; "ugly"; "outdated"; "look"; "ui"; "interface"] "UI/UX Design Quality";
    Pain.mk ["feature"; "missing"; "need"; "wish"; "want"; "should"] "Missing Features";
    Pain.mk ["mobile"; "phone"; "app"; "responsive"] "Mobile Experience" ].

Definition EMOTION_KEYWORDS : list Emotion.t :=
  [ Emotion.mk ["frustrat"; "annoyed"; "angry"; "hate"; "terrible"] "Frustration" negative;
    Emotion.mk ["confus"; "unclear"; "don't understand"; "complicated"] "Confusion" negative;
    Emotion.mk ["love"; "great"; "amazing"; "awesome"; "best"] "Delight" positive;
    Emotion.mk ["trust"; "reliable"; "secure"; "safe"; "depend"] "Trust" positive;
    Emotion.mk ["disappoint"; "expected"; "letdown"; "underwhelm"] "Disappointment" negative;
    Emotion.mk ["easy"; "simple"; "intuitive"; "smooth"] "Satisfaction" positive ].

Definition BIAS_PATTERNS : list Bias.t :=
  [ Bias.mk ["always"; "never"; "every time"; "constantly"]
            "Frequency Illusion" "Users may overstate issue frequency";
    Bias.mk ["used to"; "before"; "old version"; "previous"]
            "Status Quo Bias" "Resistance to change may skew feedback";
    Bias.mk ["everyone"; "nobody"; "all users"; "we all"]
            "False Consensus Effect" "Individual opinions projected as group sentiment";
    Bias.mk ["first time"; "initial"; "when i started"]
            "Primacy Effect" "First impressions disproportionately shape perception";
    Bias.mk ["just now"; "recently"; "last time"; "today"]
            "Recency Bias" "Recent experiences weighted more heavily" ].

(** The callback of the [map] over [PAIN_KEYWORDS]: the count is the
    number of matching sentences, and at most two of them are quoted. *)
Definition painPointOf (sentences : list string) (p : Pain.t) : option PainPoint :=
  let matchingSentences := filter (matchesAny (Pain.keywords p)) sentences in
  if (List.length matchingSentences =? 0)%nat then None
  else Some {| issue := Pain.issue p;
               frequency := mentions (Z.of_nat (List.length matchingSentences));
               severity := tier (Z.of_nat (List.length matchingSentences));
               quotes := firstn 2 matchingSentences |}.

(** [(b.severity === "high" ? 1 : 0) - (a.severity === "high" ? 1 : 0)] *)
Definition highFirst (a b : PainPoint) : Z :=
  ((if Level_eqb (severity b) high then 1 else 0)
   - (if Level_eqb (severity a) high then 1 else 0))%Z.

Definition painPoints (sentences : list string) : list PainPoint :=
  sort highFirst (filter_Boolean (map (painPointOf sentences) PAIN_KEYWORDS)).

Definition emotionalPatterns (sentences : list string) : list EmotionalPattern :=
  filter_Boolean (map (emotionalPatternOf sentences) EMOTION_KEYWORDS).

(** The four tests on the whole text, and the two themes pushed when none
    of them holds. *)
Definition behavioralThemes (lowerText : string) : list BehavioralTheme :=
  let behavioral_themes := explicitThemes lowerText in
  if (List.length behavioral_themes =? 0)%nat
  then (behavioral_themes
        ++ [ {| theme := "Efficiency Seeking";
                description := "Users prioritize speed and streamlined workflows";
                user_segment := "All Users" |};
             {| theme := "Feature Exploration";
                description := "Users actively discover and request new capabilities";
                user_segment := "Engaged Users" |} ])%list
  else behavioral_themes.

(** The callback of the [map] over [BIAS_PATTERNS]: the bias is found in
    the sentences, its evidence is collected from the whole text. *)
Definition biasOf (sentences : list string) (lowerText : string) (b : Bias.t)
  : option CognitiveBias :=
  let found := existsb (fun s => matchesAny (Bias.keywords b) s) sentences in
  if negb found then None
  else Some {| bias := Bias.bias b;
               evidence := "Keywords detected: "
                           ++ JS.join ", " (filter (fun k => JS.includes lowerText k)
                                                   (Bias.keywords b));
               impact := Bias.impact b |}.

Definition cognitiveBiases (sentences : list string) (lowerText : string)
  : list CognitiveBias :=
  filter_Boolean (map (biasOf sentences lowerText) BIAS_PATTERNS).

Definition buildPersonas (sentences : list string) (pain_points : list PainPoint)
           (negativeCount positiveCount : nat) : list Persona :=
  [ {| name := "Alex the Advocate";
       role := if (negativeCount <? positiveCount)%nat
               then "Enthusiastic power user" else "Frustrated loyalist";
       goals := ["Get work done efficiently"; "Help improve the product"; "Share with team"];
       frustrations := map issue (firstn 2 pain_points);
       quote := JS.or_else (nth_error sentences 0)
                           "I use this daily but there's room to grow." |};
    {| name := "Jordan the Explorer";
       role := "Curious newcomer evaluating options";
       goals := ["Understand the product quickly"; "Compare with alternatives"; "Find value fast"];
       frustrations := ("Steep learning curve" :: map issue (firstn 1 pain_points))%list;
       quote := JS.or_else (nth_error sentences (List.length sentences / 2))
                           "I just want it to be straightforward." |} ].

Definition generalUX : Recommendation :=
  {| priority := medium;
     category := "General UX";
     action := "Conduct deeper user interviews to uncover specific pain points";
     expected_impact := "Better understanding of user needs for targeted improvements" |}.

Definition buildRecommendations (pain_points : list PainPoint) : list Recommendation :=
  let recommendations := mapi_from 0 painRecommendation (firstn 3 pain_points) in
  if (List.length recommendations =? 0)%nat
  then (recommendations ++ [generalUX])%list
  else recommendations.

Definition buildSummary (pain_points : list PainPoint)
           (emotional_patterns : list EmotionalPattern)
           (cognitive_biases : list CognitiveBias)
           (negativeCount positiveCount : nat) : string :=
  "Analysis of user feedback reveals " ++ JS.show_nat (List.length pain_points)
  ++ " key pain point" ++ (if (List.length pain_points =? 1)%nat then "" else "s")
  ++ " and " ++ JS.show_nat (List.length emotional_patterns)
  ++ " distinct emotional pattern"
  ++ (if (List.length emotional_patterns =? 1)%nat then "" else "s")
  ++ ". "
  ++ (if (positiveCount <? negativeCount)%nat
      then "Overall sentiment skews negative, suggesting urgent attention to core issues."
      else if (negativeCount <? positiveCount)%nat
           then "Overall sentiment is positive, with targeted areas for improvement."
           else "Sentiment is mixed, indicating both strengths and areas needing attention.")
  ++ " "
  ++ match pain_points with
     | p :: _ => "The most critical issue is " ++ dquote ++ issue p ++ dquote
                 ++ " with " ++ frequency p ++ "."
     | [] => ""
     end
  ++ " "
  ++ (if (0 <? List.length cognitive_biases)%nat
      then JS.show_nat (List.length cognitive_biases) ++ " cognitive bias"
           ++ (if (1 <? List.length cognitive_biases)%nat then "es were" else " was")
           ++ " detected, which should be considered when interpreting results."
      else "")
  ++ " Two user personas were identified to guide product strategy.".

(** This version reads no index that can be missing without a default and
    keeps no state between calls: the call always returns a report. *)
Definition analyzeUserFeedback (rawText : string) : AnalysisResult :=
  let sentences := extractSentences rawText in
  let lowerText := JS.toLowerCase rawText in
  let pain_points := painPoints sentences in
  let emotional_patterns := emotionalPatterns sentences in
  let behavioral_themes := behavioralThemes lowerText in
  let cognitive_biases := cognitiveBiases sentences lowerText in
  let negativeCount := countSentiment negative emotional_patterns in
  let positiveCount := countSentiment positive emotional_patterns in
  let personas := buildPersonas sentences pain_points negativeCount positiveCount in
  let recommendations := buildRecommendations pain_points in
  let executive_summary :=
    buildSummary pain_points emotional_patterns cognitive_biases
                 negativeCount positiveCount in
  {| pain_points := pain_points;
     emotional_patterns := emotional_patterns;
     behavioral_themes := behavioral_themes;
     cognitive_biases := cognitive_biases;
     personas := personas;
     recommendations := recommendations;
     executive_summary := executive_summary |}.

End Legacy.

(** A pain point of the top tier. *)
Definition isHigh (p : PainPoint) : bool := Level_eqb (severity p) high.

(** ** More vocabulary *)

(** The units that a token is made of, [a-z0-9]. *)
Definition isTokenUnit (c : ascii) : bool :=
  (JS.in_range 97 122 c || JS.in_range 48 57 c)%bool.

(** [k] occurs in [s]: [s] is [k] with something before and after. *)
Definition substring_of (k s : string) : Prop := exists a b, s = a ++ k ++ b.

(** The value of a decimal numeral read from its first digit on, [a] being
    the value of the digits before it. *)
Fixpoint uint_fold (d : Decimal.uint) (a : Z) : Z :=
  match d with
  | Decimal.Nil => a
  | Decimal.D0 d => uint_fold d (10 * a + 0)
  | Decimal.D1 d => uint_fold d (10 * a + 1)
  | Decimal.D2 d => uint_fold d (10 * a + 2)
  | Decimal.D3 d => uint_fold d (10 * a + 3)
  | Decimal.D4 d => uint_fold d (10 * a + 4)
  | Decimal.D5 d => uint_fold d (10 * a + 5)
  | Decimal.D6 d => uint_fold d (10 * a + 6)
  | Decimal.D7 d => uint_fold d (10 * a + 7)
  | Decimal.D8 d => uint_fold d (10 * a + 8)
  | Decimal.D9 d => uint_fold d (10 * a + 9)
  end%Z.

(** Each of the three steps that add recommendations pushes one
    recommendation or none. *)
Definition pushes_one {A : Type} (add : list Recommendation -> A -> list Recommendation)
  : Prop :=
  forall acc x, add acc x = acc \/ exists y, add acc x = (acc ++ [y])%list.

(** The sentence has the sentiment [k]. *)
Definition has_sentiment (k : Sentiment) (s : string) : bool :=
  Sentiment_eqb (inferSentiment s) k.

(** A sentence in which the engine finds nothing to complain about: it is
    not negative and has no keyword of the pain table. *)
Definition quiet (s : string) : bool :=
  (negb (has_sentiment negative s)
   && forallb (fun p => negb (matchesAny (Pain.keywords p) s)) PAIN_KEYWORDS)%bool.

Definition value_so_far (acc : option Z) : Z :=
  match acc with Some a => a | None => 0%Z end.

(** A cluster as the clusterer builds it: the seed, then members each of
    which reaches the threshold against the seed. *)
Definition around_seed (threshold : Q) (cluster : list string) : Prop :=
  match cluster with
  | [] => False
  | seed :: members =>
      Forall (fun s => (threshold <= semanticSimilarity seed s)%Q) members
  end.

(** ** Clustering by position

    The clusters hold sentences, and a text may repeat a sentence.  To say
    which occurrence went where, the two loops are run once more recording
    the index of a sentence where [clusterSentences] records the sentence. *)

Fixpoint absorb_pos (seed : string) (threshold : Q) (rest : list string) (j : nat)
         (assigned : list nat) (cluster : list nat) : list nat * list nat :=
  match rest with
  | [] => (cluster, assigned)
  | sj :: rest' =>
      if has_index j assigned then absorb_pos seed threshold rest' (S j) assigned cluster
      else if Qle_bool threshold (semanticSimilarity seed sj)
           then absorb_pos seed threshold rest' (S j) (j :: assigned) (cluster ++ [j])%list
           else absorb_pos seed threshold rest' (S j) assigned cluster
  end.

Fixpoint cluster_loop_pos (threshold : Q) (rest : list string) (i : nat)
         (assigned : list nat) (clusters : list (list nat)) : list (list nat) :=
  match rest with
  | [] => clusters
  | si :: rest' =>
      if has_index i assigned then cluster_loop_pos threshold rest' (S i) assigned clusters
      else
        let '(cluster, assigned') :=
          absorb_pos si threshold rest' (S i) (i :: assigned) [i] in
        cluster_loop_pos threshold rest' (S i) assigned' (clusters ++ [cluster])%list
  end.

Definition clusterPositions (sentences : list string) (threshold : Q) : list (list nat) :=
  cluster_loop_pos threshold sentences 0 [] [].

Definition unassigned (assigned : list nat) (k : nat) : bool := negb (has_index k assigned).

(** ** Vocabulary of the statements *)

Fixpoint all_units (P : ascii -> bool) (s : string) : bool :=
  match s with
  | EmptyString => true
  | String c s' => (P c && all_units P s')%bool
  end.

(** [p0 ++ d0 ++ p1 ++ d1 ++ ... ++ pn]: the text that the pieces and the
    separators between them came from. *)
Fixpoint interleave (pieces seps : list string) : string :=
  match pieces, seps with
  | p :: pieces', d :: seps' => p ++ d ++ interleave pieces' seps'
  | p :: _, [] => p
  | [], _ => EmptyString
  end.

Fixpoint all_but_last_nonempty (pieces : list string) : Prop :=
  match pieces with
  | p :: ((_ :: _) as rest) => p <> EmptyString /\ all_but_last_nonempty rest
  | _ => True
  end.

(** Every piece but the first and the last has a unit: no two separators
    are adjacent, each is a whole run. *)
Definition inner_nonempty (pieces : list string) : Prop :=
  match pieces with
  | _ :: rest => all_but_last_nonempty rest
  | [] => True
  end.

Fixpoint last_unit (s : string) : option ascii :=
  match s with
  | EmptyString => None
  | String c EmptyString => Some c
  | String _ s' => last_unit s'
  end.

Definition not_space (c : option ascii) : Prop :=
  match c with
  | Some c => JS.isWhiteSpace c = false
  | None => True
  end.

(** [s] is [p] without the white space at its two ends. *)
Definition trimmed_of (p s : string) : Prop :=
  exists l r,
    p = l ++ s ++ r
    /\ all_units JS.isWhiteSpace l = true
    /\ all_units JS.isWhiteSpace r = true
    /\ not_space (RegExp.head s)
    /\ not_space (last_unit s).

Fixpoint endsWith (s suf : string) : bool :=
  (String.eqb s suf
   || match s with
      | EmptyString => false
      | String _ s' => endsWith s' suf
      end)%bool.

(** The suffixes in the order in which [normalizeToken] goes through them. *)
Definition suffixes : list string :=
  ["ing"; "tion"; "ment"; "ness"; "able"; "ful"; "less"; "ous"; "ive"; "ly";
   "ed"; "er"; "es"; "s"].

(** The first suffix of the order that the token ends with, and the
    suffixes that come after it in the order. *)
Fixpoint firstSuffix (sufs : list string) (w : string) : option (string * list string) :=
  match sufs with
  | [] => None
  | suf :: later => if endsWith w suf then Some (suf, later) else firstSuffix later w
  end.

(** The normalizer as the specification words it: one suffix is stripped,
    the first of the order that matches. *)
Definition stripFirstSuffix (w : string) : string :=
  match firstSuffix suffixes w with
  | Some (suf, _) => JS.replace_end suf w
  | None => w
  end.

(** Each suffix of [sufs] in turn, from what the one before it left. *)
Fixpoint stripInTurn (sufs : list string) (w : string) : string :=
  match sufs with
  | [] => w
  | suf :: later => stripInTurn later (JS.replace_end suf w)
  end.

(** The table of implicit themes after the engine has been called on each
    text of [history], in that order. *)
Fixpoint after_calls (table : list ImplicitTheme.t) (history : list string)
  : list ImplicitTheme.t :=
  match history with
  | [] => table
  | text :: history' => after_calls (snd (analyzeUserFeedback_in table text)) history'
  end.

(** An expression without the [g] and [y] flags. *)
Definition stateless (r : RegExp.t) : Prop :=
  RegExp.global r = false /\ RegExp.sticky r = false.

Definition stateless_table (table : list ImplicitTheme.t) : Prop :=
  Forall (fun p => Forall stateless (ImplicitTheme.patterns p)) table.

Section ClusteringProofs.

Variable threshold : Q.

Lemma has_index_In (k : nat) (l : list nat) : has_index k l = true <-> In k l.
Proof.
  unfold has_index. rewrite existsb_exists. split.
  - intros [x [Hin Heq]]. apply Nat.eqb_eq in Heq. now subst.
  - intros Hin. exists k. split; [assumption | apply Nat.eqb_refl].
Qed.

(** The two runs take the same branches: the recorded positions name the
    recorded sentences. *)
Lemma absorb_pos_sentences (get : nat -> string) (seed : string) :
  forall n j assigned cluster,
    absorb seed threshold (map get (seq j n)) j assigned (map get cluster)
    = (map get (fst (absorb_pos seed threshold (map get (seq j n)) j assigned cluster)),
       snd (absorb_pos seed threshold (map get (seq j n)) j assigned cluster)).
Proof.
  induction n as [|n IH]; intros j assigned cluster; simpl.
  - reflexivity.
  - destruct (has_index j assigned); [apply IH|].
    destruct (Qle_bool threshold (semanticSimilarity seed (get j))); [|apply IH].
    rewrite <- IH. now rewrite map_app.
Qed.

Lemma cluster_loop_pos_sentences (get : nat -> string) :
  forall n i assigned clusters,
    cluster_loop threshold (map get (seq i n)) i assigned (map (map get) clusters)
    = map (map get) (cluster_loop_pos threshold (map get (seq i n)) i assigned clusters).
Proof.
  induction n as [|n IH]; intros i assigned clusters; simpl.
  - reflexivity.
  - destruct (has_index i assigned); [apply IH|].
    change [get i] with (map get [i]).
    rewrite absorb_pos_sentences.
    destruct (absorb_pos (get i) threshold (map get (seq (S i) n)) (S i) (i :: assigned) [i])
      as [cluster assigned'].
    simpl fst; simpl snd.
    rewrite <- IH. now rewrite map_app.
Qed.

Lemma map_nth_seq (l : list string) :
  map (fun i => nth i l "") (seq 0 (List.length l)) = l.
Proof.
  induction l as [|x l IH]; simpl; [reflexivity|].
  f_equal. rewrite <- seq_shift, map_map. exact IH.
Qed.

Lemma clusterSentences_positions (sentences : list string) :
  clusterSentences sentences threshold
  = map (map (fun i => nth i sentences "")) (clusterPositions sentences threshold).
Proof.
  unfold clusterSentences, clusterPositions.
  pose proof (cluster_loop_pos_sentences (fun i => nth i sentences "")
                (List.length sentences) 0 [] []) as H.
  rewrite map_nth_seq in H. exact H.
Qed.

(** What the inner loop does to [assigned]: it keeps what was there and
    only adds indices from [j] on. *)
Lemma absorb_pos_keeps (seed : string) (k : nat) :
  forall rest j assigned cluster,
    has_index k assigned = true ->
    has_index k (snd (absorb_pos seed threshold rest j assigned cluster)) = true.
Proof.
  induction rest as [|sj rest IH]; intros j assigned cluster Hk; simpl.
  - exact Hk.
  - destruct (has_index j assigned); [now apply IH|].
    destruct (Qle_bool threshold (semanticSimilarity seed sj)); [|now apply IH].
    apply IH. simpl. rewrite Hk. apply orb_true_r.
Qed.

Lemma absorb_pos_below (seed : string) (k : nat) :
  forall rest j assigned cluster,
    k < j ->
    has_index k (snd (absorb_pos seed threshold rest j assigned cluster))
    = has_index k assigned.
Proof.
  induction rest as [|sj rest IH]; intros j assigned cluster Hk; simpl.
  - reflexivity.
  - destruct (has_index j assigned); [apply IH; lia|].
    destruct (Qle_bool threshold (semanticSimilarity seed sj)); [|apply IH; lia].
    rewrite IH by lia. simpl.
    destruct (Nat.eqb_spec k j); [lia | reflexivity].
Qed.

Lemma filter_unassigned_cons (j : nat) (assigned : list nat) (l : list nat) :
  ~ In j l ->
  filter (unassigned (j :: assigned)) l = filter (unassigned assigned) l.
Proof.
  intros Hj. apply filter_ext_in. intros k Hk. unfold unassigned. simpl.
  destruct (Nat.eqb_spec k j); [subst; contradiction | reflexivity].
Qed.

(** The inner loop moves positions from the unassigned ones into the
    cluster and loses none. *)
Lemma absorb_pos_conserves (seed : string) :
  forall rest j assigned cluster,
    Permutation
      (fst (absorb_pos seed threshold rest j assigned cluster)
       ++ filter (unassigned (snd (absorb_pos seed threshold rest j assigned cluster)))
                 (seq j (List.length rest)))
      (cluster ++ filter (unassigned assigned) (seq j (List.length rest))).
Proof.
  induction rest as [|sj rest IH]; intros j assigned cluster.
  - reflexivity.
  - cbn [absorb_pos List.length seq filter].
    destruct (has_index j assigned) eqn:Hj.
    + assert (E1 : unassigned assigned j = false)
        by (unfold unassigned; now rewrite Hj).
      assert (E2 : unassigned
                     (snd (absorb_pos seed threshold rest (S j) assigned cluster)) j
                   = false)
        by (unfold unassigned; now rewrite absorb_pos_keeps).
      rewrite E1, E2. apply IH.
    + assert (E1 : unassigned assigned j = true)
        by (unfold unassigned; now rewrite Hj).
      rewrite E1.
      destruct (Qle_bool threshold (semanticSimilarity seed sj)).
      * assert (E2 : unassigned
                       (snd (absorb_pos seed threshold rest (S j) (j :: assigned)
                                        (cluster ++ [j]))) j
                     = false).
        { unfold unassigned. rewrite absorb_pos_keeps; [reflexivity|].
          simpl. now rewrite Nat.eqb_refl. }
        rewrite E2, IH, <- app_assoc. cbn [app].
        rewrite filter_unassigned_cons; [reflexivity|].
        rewrite in_seq. lia.
      * assert (E2 : unassigned
                       (snd (absorb_pos seed threshold rest (S j) assigned cluster)) j
                     = true).
        { unfold unassigned. rewrite absorb_pos_below by lia. now rewrite Hj. }
        rewrite E2, <- !Permutation_middle. apply perm_skip. apply IH.
Qed.

Lemma cluster_loop_pos_conserves :
  forall rest i assigned clusters,
    Permutation
      (List.concat (cluster_loop_pos threshold rest i assigned clusters))
      (List.concat clusters ++ filter (unassigned assigned) (seq i (List.length rest))).
Proof.
  induction rest as [|si rest IH]; intros i assigned clusters.
  - simpl. now rewrite app_nil_r.
  - cbn [cluster_loop_pos List.length seq filter].
    destruct (has_index i assigned) eqn:Hi.
    + assert (E : unassigned assigned i = false)
        by (unfold unassigned; now rewrite Hi).
      rewrite E. apply IH.
    + assert (E : unassigned assigned i = true)
        by (unfold unassigned; now rewrite Hi).
      rewrite E.
      pose proof (absorb_pos_conserves si rest (S i) (i :: assigned) [i]) as Hc.
      destruct (absorb_pos si threshold rest (S i) (i :: assigned) [i])
        as [cluster assigned'].
      cbn [fst snd] in Hc.
      rewrite IH, concat_app. cbn [List.concat]. rewrite app_nil_r, <- app_assoc.
      apply Permutation_app_head.
      rewrite Hc. cbn [app]. apply perm_skip.
      rewrite filter_unassigned_cons; [reflexivity|].
      rewrite in_seq. lia.
Qed.

Lemma clusterPositions_partition (sentences : list string) :
  Permutation (List.concat (clusterPositions sentences threshold))
              (seq 0 (List.length sentences)).
Proof.
  unfold clusterPositions. rewrite cluster_loop_pos_conserves. simpl.
  induction (seq 0 (List.length sentences)) as [|k l IH]; simpl; auto.
Qed.

(** A cluster starts with its seed and only grows. *)
Lemma absorb_pos_nonempty (seed : string) :
  forall rest j assigned cluster,
    cluster <> [] -> fst (absorb_pos seed threshold rest j assigned cluster) <> [].
Proof.
  induction rest as [|sj rest IH]; intros j assigned cluster Hne; simpl.
  - exact Hne.
  - destruct (has_index j assigned); [now apply IH|].
    destruct (Qle_bool threshold (semanticSimilarity seed sj)); [|now apply IH].
    apply IH. destruct cluster; discriminate.
Qed.

Lemma cluster_loop_pos_nonempty :
  forall rest i assigned clusters,
    Forall (fun c => c <> []) clusters ->
    Forall (fun c => c <> []) (cluster_loop_pos threshold rest i assigned clusters).
Proof.
  induction rest as [|si rest IH]; intros i assigned clusters Hne; simpl.
  - exact Hne.
  - destruct (has_index i assigned); [now apply IH|].
    pose proof (absorb_pos_nonempty si rest (S i) (i :: assigned) [i]) as Hc.
    destruct (absorb_pos si threshold rest (S i) (i :: assigned) [i])
      as [cluster assigned'].
    apply IH. apply Forall_app. split; [exact Hne|].
    constructor; [|constructor]. apply Hc. discriminate.
Qed.

Lemma clusterSentences_nonempty (sentences : list string) :
  Forall (fun c => c <> []) (clusterSentences sentences threshold).
Proof.
  rewrite clusterSentences_positions. apply Forall_map.
  eapply Forall_impl; [|apply cluster_loop_pos_nonempty; constructor].
  intros c Hc. destruct c; [contradiction | discriminate].
Qed.

Lemma clusterSentences_concat (sentences : list string) :
  Permutation (List.concat (clusterSentences sentences threshold)) sentences.
Proof.
  rewrite clusterSentences_positions, <- concat_map.
  etransitivity;
    [apply Permutation_map, clusterPositions_partition | now rewrite map_nth_seq].
Qed.

End ClusteringProofs.

(** ** Similarity *)

Section SimilarityProofs.

Lemma mem_In (x : string) (l : list string) : JS.mem x l = true <-> In x l.
Proof.
  unfold JS.mem. rewrite existsb_exists. split.
  - intros [y [Hin Heq]]. apply String.eqb_eq in Heq. now subst.
  - intros Hin. exists x. split; [assumption | apply String.eqb_refl].
Qed.

Lemma mem_false (x : string) (l : list string) : JS.mem x l = false <-> ~ In x l.
Proof.
  rewrite <- mem_In. destruct (JS.mem x l); split; intros; congruence.
Qed.

Lemma Set_fold_NoDup (l : list string) :
  forall acc, NoDup acc -> NoDup (fold_left JS.Set_add l acc).
Proof.
  induction l as [|x l IH]; intros acc Hacc; simpl; [exact Hacc|].
  apply IH. unfold JS.Set_add.
  destruct (JS.mem x acc) eqn:Hx; [exact Hacc|].
  apply mem_false in Hx.
  apply (Permutation_NoDup (Permutation_cons_append acc x)).
  now constructor.
Qed.

Lemma tokenSet_NoDup (a : string) : NoDup (tokenSet a).
Proof. apply Set_fold_NoDup. constructor. Qed.

(** The [forEach] that counts the overlap counts the members of the one
    set that the other has. *)
Lemma overlap_count (A B : list string) :
  forall n,
    fold_left (fun n t => if JS.mem t B then S n else n) A n
    = n + List.length (filter (fun t => JS.mem t B) A).
Proof.
  induction A as [|t A IH]; intros n; simpl; [lia|].
  rewrite IH. destruct (JS.mem t B); simpl; lia.
Qed.

Lemma common_symmetric (A B : list string) :
  NoDup A -> NoDup B ->
  List.length (filter (fun t => JS.mem t B) A)
  = List.length (filter (fun t => JS.mem t A) B).
Proof.
  intros HA HB. apply Permutation_length, NoDup_Permutation.
  - now apply NoDup_filter.
  - now apply NoDup_filter.
  - intros x. rewrite !filter_In, !mem_In. tauto.
Qed.

Lemma common_all (A : list string) : filter (fun t => JS.mem t A) A = A.
Proof.
  apply forallb_filter_id, forallb_forall. intros x Hx. now apply mem_In.
Qed.

Lemma common_le (A B : list string) :
  NoDup A -> NoDup B ->
  List.length (filter (fun t => JS.mem t B) A) <= Nat.min (List.length A) (List.length B).
Proof.
  intros HA HB. apply Nat.min_glb.
  - apply filter_length_le.
  - rewrite common_symmetric by assumption. apply filter_length_le.
Qed.

Lemma Zpos_of_nat (n : nat) : n <> 0 -> Zpos (Pos.of_nat n) = Z.of_nat n.
Proof.
  intros Hn. rewrite <- positive_nat_Z. now rewrite Nat2Pos.id.
Qed.

Lemma length_zero_nil {X : Type} (l : list X) :
  (List.length l =? 0)%nat = true <-> l = [].
Proof.
  destruct l; simpl; split; intros; congruence.
Qed.

(** The score, once both sets are known to have members. *)
Lemma semanticSimilarity_quotient (a b : string) :
  tokenSet a <> [] -> tokenSet b <> [] ->
  semanticSimilarity a b
  = Qmake (Z.of_nat (List.length (filter (fun t => JS.mem t (tokenSet b)) (tokenSet a))))
          (Pos.of_nat (Nat.min (List.length (tokenSet a)) (List.length (tokenSet b)))).
Proof.
  intros Ha Hb. unfold semanticSimilarity. fold (tokenSet a) (tokenSet b).
  destruct (tokenSet a) as [|x A] eqn:EA; [contradiction|].
  destruct (tokenSet b) as [|y B] eqn:EB; [contradiction|].
  cbn [List.length Nat.eqb orb]. now rewrite overlap_count.
Qed.

Lemma semanticSimilarity_empty (a b : string) :
  tokenSet a = [] \/ tokenSet b = [] -> semanticSimilarity a b = 0%Q.
Proof.
  intros H. unfold semanticSimilarity. fold (tokenSet a) (tokenSet b).
  destruct H as [H | H]; rewrite H; simpl; [reflexivity|].
  now rewrite orb_true_r.
Qed.

Lemma semanticSimilarity_sym (a b : string) :
  semanticSimilarity a b = semanticSimilarity b a.
Proof.
  destruct (tokenSet a) as [|x A] eqn:EA.
  { rewrite !semanticSimilarity_empty; auto. }
  destruct (tokenSet b) as [|y B] eqn:EB.
  { rewrite !semanticSimilarity_empty; auto. }
  rewrite !semanticSimilarity_quotient by congruence.
  rewrite (common_symmetric (tokenSet a) (tokenSet b)) by apply tokenSet_NoDup.
  now rewrite Nat.min_comm.
Qed.

Lemma semanticSimilarity_refl (a : string) :
  tokenSet a <> [] -> (semanticSimilarity a a == 1)%Q.
Proof.
  intros Ha. rewrite semanticSimilarity_quotient by assumption.
  rewrite common_all, Nat.min_id.
  unfold Qeq. simpl. rewrite Zpos_of_nat; [lia|].
  destruct (tokenSet a); [contradiction | discriminate].
Qed.

Lemma semanticSimilarity_range (a b : string) :
  (0 <= semanticSimilarity a b /\ semanticSimilarity a b <= 1)%Q.
Proof.
  destruct (tokenSet a) as [|x A] eqn:EA.
  { rewrite semanticSimilarity_empty by auto. split; discriminate. }
  destruct (tokenSet b) as [|y B] eqn:EB.
  { rewrite semanticSimilarity_empty by auto. split; discriminate. }
  rewrite semanticSimilarity_quotient by congruence.
  pose proof (common_le (tokenSet a) (tokenSet b) (tokenSet_NoDup a) (tokenSet_NoDup b)) as Hle.
  assert (Hm : Nat.min (List.length (tokenSet a)) (List.length (tokenSet b)) <> 0).
  { rewrite EA, EB. simpl. lia. }
  unfold Qle. simpl. rewrite Zpos_of_nat by exact Hm. lia.
Qed.

End SimilarityProofs.

(** C4.  The similarity score is symmetric in its two sentences; it is 1
    for a sentence against itself when its set of root forms has a member;
    it is 0 as soon as one of the two sets is empty; when both have members
    it is the number of common root forms over the size of the smaller set;
    and it lies between 0 and 1. *)
Theorem semanticSimilarity_properties (a b : string) :
  semanticSimilarity a b = semanticSimilarity b a
  /\ (tokenSet a <> [] -> (semanticSimilarity a a == 1)%Q)
  /\ (tokenSet a = [] \/ tokenSet b = [] -> semanticSimilarity a b = 0%Q)
  /\ (tokenSet a <> [] -> tokenSet b <> [] ->
      semanticSimilarity a b
      = Qmake (Z.of_nat (List.length (filter (fun t => JS.mem t (tokenSet b)) (tokenSet a))))
              (Pos.of_nat (Nat.min (List.length (tokenSet a)) (List.length (tokenSet b)))))
  /\ (0 <= semanticSimilarity a b /\ semanticSimilarity a b <= 1)%Q.
Proof.
  split; [apply semanticSimilarity_sym|].
  split; [apply semanticSimilarity_refl|].
  split; [apply semanticSimilarity_empty|].
  split; [apply semanticSimilarity_quotient | apply semanticSimilarity_range].
Qed.

Lemma semanticSimilarity_properties_witness :
  (semanticSimilarity "The app is loading slowly" "The app is loading slowly" == 1)%Q
  /\ semanticSimilarity "The app is loading slowly" "ok" = 0%Q
  /\ semanticSimilarity "The app is loading slowly" "app loads slow every day" = (3 # 4)%Q.
Proof.
  pose proof (semanticSimilarity_properties "The app is loading slowly" "ok")
    as [_ [Hrefl [Hempty _]]].
  pose proof (semanticSimilarity_properties "The app is loading slowly"
                                            "app loads slow every day")
    as [_ [_ [_ [Hquot _]]]].
  split; [|split].
  - apply Hrefl. vm_compute. discriminate.
  - apply Hempty. right. vm_compute. reflexivity.
  - rewrite Hquot.
    + vm_compute. reflexivity.
    + vm_compute. discriminate.
    + vm_compute. discriminate.
Defined.

(** C3.  For every list of sentences and every threshold (those of [0,1]
    included) the clusters are a partition of the input by position: there
    are clusters of positions that name the clusters of sentences, that
    hold every position of the input exactly once, and none of which is
    empty; so the sentences of all clusters together are the input
    sentences, each occurrence once. *)
Theorem clusterSentences_partition (sentences : list string) (threshold : Q) :
  exists positions : list (list nat),
    clusterSentences sentences threshold
    = map (map (fun i => nth i sentences "")) positions
    /\ Permutation (List.concat positions) (seq 0 (List.length sentences))
    /\ NoDup (List.concat positions)
    /\ Forall (fun c => c <> []) positions
    /\ Forall (fun c => c <> []) (clusterSentences sentences threshold)
    /\ Permutation (List.concat (clusterSentences sentences threshold)) sentences.
Proof.
  exists (clusterPositions sentences threshold).
  split; [apply clusterSentences_positions|].
  split; [apply clusterPositions_partition|].
  split.
  { eapply Permutation_NoDup;
      [symmetry; apply clusterPositions_partition | apply seq_NoDup]. }
  split; [apply cluster_loop_pos_nonempty; constructor|].
  split; [apply clusterSentences_nonempty | apply clusterSentences_concat].
Qed.

(** ** Segmentation *)

Section SegmentationProofs.

Lemma append_nil_r (s : string) : s ++ "" = s.
Proof. induction s as [|c s IH]; simpl; [reflexivity | now rewrite IH]. Qed.

Lemma append_assoc (s t u : string) : (s ++ t) ++ u = s ++ t ++ u.
Proof. induction s as [|c s IH]; simpl; [reflexivity | now rewrite IH]. Qed.

Variable cls : ascii -> bool.

Let clean (p : string) : Prop := all_units (fun c => negb (cls c)) p = true.
Let run (d : string) : Prop := d <> "" /\ all_units cls d = true.

(** The split, with the scanner outside a run ([split_go _ _ false]) and
    inside one ([split_go _ _ true]).  Inside a run the text goes on with
    the rest [d] of the run, and the piece after it has a unit unless the
    text ends there. *)
Lemma split_go_spec (s : string) :
  (exists p ps seps,
      JS.split_go cls s false = p :: ps
      /\ List.length ps = List.length seps
      /\ s = interleave (p :: ps) seps
      /\ Forall clean (p :: ps) /\ Forall run seps
      /\ all_but_last_nonempty ps)
  /\ (exists d p ps seps,
         JS.split_go cls s true = p :: ps
         /\ List.length ps = List.length seps
         /\ s = d ++ interleave (p :: ps) seps
         /\ all_units cls d = true
         /\ Forall clean (p :: ps) /\ Forall run seps
         /\ all_but_last_nonempty (p :: ps)).
Proof.
  induction s as [|c s [IHout IHin]].
  - split.
    + exists "", [], []. repeat split; constructor; [reflexivity | constructor].
    + exists "", "", [], []. repeat split; constructor; [reflexivity | constructor].
  - destruct IHout as (p & ps & seps & Hsplit & Hlen & Htext & Hclean & Hrun & Hmid).
    destruct IHin as (d & p' & ps' & seps' & Hsplit' & Hlen' & Htext' & Hd & Hclean' & Hrun' & Hmid').
    simpl. destruct (cls c) eqn:Hc.
    + split.
      * exists "", (p' :: ps'), (String c d :: seps').
        rewrite Hsplit'. repeat split.
        -- simpl. now rewrite Hlen'.
        -- simpl. now rewrite Htext'.
        -- constructor; [reflexivity | exact Hclean'].
        -- constructor; [|exact Hrun']. split; [discriminate|]. simpl. now rewrite Hc.
        -- exact Hmid'.
      * exists (String c d), p', ps', seps'.
        rewrite Hsplit'. repeat split; try assumption.
        -- simpl. now rewrite Htext'.
        -- simpl. now rewrite Hc.
    + rewrite Hsplit.
      assert (Htext2 : String c s = interleave (String c p :: ps) seps).
      { rewrite Htext at 1. destruct seps; reflexivity. }
      assert (Hclean2 : Forall clean (String c p :: ps)).
      { inversion Hclean; subst. constructor; [|assumption].
        unfold clean in *. simpl. now rewrite Hc. }
      split.
      * exists (String c p), ps, seps. repeat split; assumption.
      * exists "", (String c p), ps, seps. repeat split; try assumption.
        simpl. destruct ps; [exact I | split; [discriminate | exact Hmid]].
Qed.

Lemma split_class_spec (s : string) :
  exists pieces seps,
    JS.split_class cls s = pieces
    /\ List.length pieces = S (List.length seps)
    /\ s = interleave pieces seps
    /\ Forall clean pieces /\ Forall run seps
    /\ inner_nonempty pieces.
Proof.
  destruct (proj1 (split_go_spec s)) as (p & ps & seps & H1 & H2 & H3 & H4 & H5 & H6).
  exists (p :: ps), seps. repeat split; try assumption.
  simpl. now rewrite H2.
Qed.

End SegmentationProofs.

Section TrimProofs.

Lemma trimStart_spec (s : string) :
  exists l, s = l ++ JS.trimStart s
            /\ all_units JS.isWhiteSpace l = true
            /\ not_space (RegExp.head (JS.trimStart s)).
Proof.
  induction s as [|c s (l & Hs & Hl & Hhead)]; simpl.
  - exists "". repeat split.
  - destruct (JS.isWhiteSpace c) eqn:Hc.
    + exists (String c l). repeat split; simpl.
      * now rewrite <- Hs.
      * now rewrite Hc.
      * exact Hhead.
    + exists "". repeat split. exact Hc.
Qed.

Lemma trimEnd_spec (s : string) :
  exists r, s = JS.trimEnd s ++ r
            /\ all_units JS.isWhiteSpace r = true
            /\ not_space (last_unit (JS.trimEnd s)).
Proof.
  induction s as [|c s (r & Hs & Hr & Hlast)]; simpl.
  - exists "". repeat split.
  - destruct (JS.trimEnd s) as [|c' t] eqn:Ht.
    + destruct (JS.isWhiteSpace c) eqn:Hc.
      * exists (String c r). simpl in Hs. repeat split; simpl.
        -- now rewrite <- Hs.
        -- now rewrite Hc.
      * exists r. simpl in Hs. repeat split; simpl; [now rewrite <- Hs | exact Hr | exact Hc].
    + exists r. repeat split; [simpl in Hs |- *; now rewrite <- Hs | exact Hr | exact Hlast].
Qed.

(** Trimming the end leaves a first unit that is not white space where it
    is. *)
Lemma trimEnd_head (s : string) :
  not_space (RegExp.head s) -> not_space (RegExp.head (JS.trimEnd s)).
Proof.
  destruct s as [|c s]; simpl; [trivial|].
  intros Hc. destruct (JS.trimEnd s); [rewrite Hc|]; exact Hc.
Qed.

Lemma trim_spec (p : string) : trimmed_of p (JS.trim p).
Proof.
  unfold trimmed_of, JS.trim.
  destruct (trimStart_spec p) as (l & Hp & Hl & Hhead).
  destruct (trimEnd_spec (JS.trimStart p)) as (r & Hq & Hr & Hlast).
  exists l, r. repeat split; try assumption.
  - now rewrite <- Hq.
  - now apply trimEnd_head.
Qed.

End TrimProofs.

(** C9.  The segmenter cuts the text at the runs of [.], [!], [?] and
    newline: the text is its pieces with a non-empty run of those units
    between each two, no piece holds such a unit, and no piece between two
    runs is empty, so each run is a single separator.  The sentences are
    the pieces, trimmed of the white space at their two ends, that are
    longer than 10 units after trimming, in the order of the text.  Every
    text has a result; for the empty text it has no sentence. *)
Theorem extractSentences_spec (text : string) :
  (exists pieces seps,
      List.length pieces = S (List.length seps)
      /\ text = interleave pieces seps
      /\ Forall (fun p => all_units (fun c => negb (isSentenceDelimiter c)) p = true) pieces
      /\ Forall (fun d => d <> "" /\ all_units isSentenceDelimiter d = true) seps
      /\ inner_nonempty pieces
      /\ Forall (fun p => trimmed_of p (JS.trim p)) pieces
      /\ extractSentences text
         = filter (fun s => (10 <? String.length s)%nat) (map JS.trim pieces))
  /\ Forall (fun s => 10 < String.length s) (extractSentences text)
  /\ extractSentences "" = [].
Proof.
  split; [|split].
  - destruct (split_class_spec isSentenceDelimiter text)
      as (pieces & seps & Hsplit & Hlen & Htext & Hclean & Hrun & Hinner).
    exists pieces, seps. repeat split; try assumption.
    + apply Forall_forall. intros p _. apply trim_spec.
    + unfold extractSentences. now rewrite Hsplit.
  - unfold extractSentences. apply Forall_forall. intros s Hs.
    apply filter_In in Hs. destruct Hs as [_ Hs]. now apply Nat.ltb_lt in Hs.
  - reflexivity.
Qed.

(** ** Normalization *)

Section NormalizationProofs.

Lemma replace_end_no_match (suf s : string) :
  endsWith s suf = false -> JS.replace_end suf s = s.
Proof.
  induction s as [|c s IH]; cbn [endsWith JS.replace_end]; intros H.
  - now destruct (String.eqb "" suf).
  - apply orb_false_elim in H. destruct H as [H1 H2].
    rewrite H1. now rewrite IH.
Qed.

Lemma replace_end_match (suf s : string) :
  endsWith s suf = true -> s = JS.replace_end suf s ++ suf.
Proof.
  induction s as [|c s IH]; cbn [endsWith JS.replace_end]; intros H.
  - destruct (String.eqb_spec "" suf) as [E | E]; [now subst | discriminate].
  - destruct (String.eqb_spec (String c s) suf) as [E | E].
    + now subst.
    + cbn [orb] in H. cbn [append]. now rewrite <- IH.
Qed.

Lemma stripInTurn_no_match (sufs : list string) (w : string) :
  firstSuffix sufs w = None -> stripInTurn sufs w = w.
Proof.
  induction sufs as [|suf sufs IH]; simpl; [reflexivity|].
  destruct (endsWith w suf) eqn:E; [discriminate|].
  intros H. rewrite replace_end_no_match by exact E. now apply IH.
Qed.

Lemma stripInTurn_first (sufs : list string) (w suf : string) (later : list string) :
  firstSuffix sufs w = Some (suf, later) ->
  stripInTurn sufs w = stripInTurn later (JS.replace_end suf w).
Proof.
  induction sufs as [|x sufs IH]; simpl; [discriminate|].
  destruct (endsWith w x) eqn:E.
  - intros H. now inversion H.
  - intros H. rewrite replace_end_no_match by exact E. now apply IH.
Qed.

Lemma firstSuffix_match (sufs : list string) (w suf : string) (later : list string) :
  firstSuffix sufs w = Some (suf, later) -> endsWith w suf = true.
Proof.
  induction sufs as [|x sufs IH]; simpl; [discriminate|].
  destruct (endsWith w x) eqn:E; [|exact IH].
  intros H. inversion H. now subst.
Qed.

Lemma normalizeToken_stripInTurn (w : string) : normalizeToken w = stripInTurn suffixes w.
Proof. reflexivity. Qed.

Lemma replace_end_not_longer (suf s : string) :
  String.length (JS.replace_end suf s) <= String.length s.
Proof.
  induction s as [|c s IH]; cbn [JS.replace_end].
  - destruct (String.eqb "" suf); cbn [String.length]; lia.
  - destruct (String.eqb (String c s) suf); cbn [String.length]; lia.
Qed.

Lemma replace_end_shorter (suf s : string) :
  suf <> "" -> endsWith s suf = true ->
  String.length (JS.replace_end suf s) < String.length s.
Proof.
  intros Hsuf. induction s as [|c s IH]; cbn [endsWith JS.replace_end]; intros H.
  - destruct (String.eqb_spec "" suf) as [E | E]; [now subst | discriminate].
  - destruct (String.eqb (String c s) suf); cbn [String.length]; [lia|].
    cbn [orb] in H. specialize (IH H). lia.
Qed.

Lemma stripInTurn_not_longer (sufs : list string) :
  forall w, String.length (stripInTurn sufs w) <= String.length w.
Proof.
  induction sufs as [|suf sufs IH]; intros w; cbn [stripInTurn]; [lia|].
  etransitivity; [apply IH | apply replace_end_not_longer].
Qed.

Lemma stripInTurn_unchanged (sufs : list string) (w : string) :
  Forall (fun suf => suf <> "") sufs ->
  stripInTurn sufs w = w -> firstSuffix sufs w = None.
Proof.
  induction sufs as [|suf sufs IH]; cbn [stripInTurn firstSuffix]; [reflexivity|].
  intros Hne H. inversion Hne as [|? ? Hsuf Hrest]; subst.
  destruct (endsWith w suf) eqn:E.
  - exfalso.
    pose proof (replace_end_shorter suf w Hsuf E) as Hshort.
    pose proof (stripInTurn_not_longer sufs (JS.replace_end suf w)) as Hle.
    rewrite H in Hle. lia.
  - rewrite replace_end_no_match in H by exact E. now apply IH.
Qed.

Lemma firstSuffix_later (P : string -> Prop) (sufs : list string) (w suf : string)
      (later : list string) :
  Forall P sufs -> firstSuffix sufs w = Some (suf, later) -> Forall P later.
Proof.
  induction sufs as [|x sufs IH]; cbn [firstSuffix]; [discriminate|].
  intros HP H. inversion HP as [|? ? Hx Hrest]; subst.
  destruct (endsWith w x).
  - inversion H. now subst.
  - now apply IH.
Qed.

Lemma suffixes_nonempty : Forall (fun suf => suf <> "") suffixes.
Proof. unfold suffixes. repeat constructor; discriminate. Qed.

End NormalizationProofs.

(** C5, as the engine has it.  The normalizer goes through the whole
    order of suffixes, each from what the one before it left.  A token that
    ends with none of them is returned as it is.  Otherwise the first
    suffix of the order that the token ends with is removed from its end,
    and the suffixes after it in the order are then tried in turn on the
    stem; the result is the stem of the first match exactly when the stem
    ends with none of those later suffixes. *)
Theorem normalizeToken_in_turn (w : string) :
  (firstSuffix suffixes w = None -> normalizeToken w = w)
  /\ (forall suf later,
         firstSuffix suffixes w = Some (suf, later) ->
         let stem := JS.replace_end suf w in
         w = stem ++ suf
         /\ stripFirstSuffix w = stem
         /\ normalizeToken w = stripInTurn later stem
         /\ (firstSuffix later stem = None <-> normalizeToken w = stripFirstSuffix w)).
Proof.
  split.
  - intros H. rewrite normalizeToken_stripInTurn. now apply stripInTurn_no_match.
  - intros suf later H stem.
    assert (Hfirst : stripFirstSuffix w = stem) by (unfold stripFirstSuffix; now rewrite H).
    split; [apply replace_end_match; eapply firstSuffix_match; exact H|].
    split; [exact Hfirst|].
    split.
    + rewrite normalizeToken_stripInTurn. now apply stripInTurn_first.
    + rewrite normalizeToken_stripInTurn, Hfirst, (stripInTurn_first _ _ _ _ H).
      fold stem. split.
      * apply stripInTurn_no_match.
      * apply stripInTurn_unchanged.
        exact (firstSuffix_later _ _ _ _ _ suffixes_nonempty H).
Qed.

Lemma normalizeToken_in_turn_witness :
  normalizeToken "hello" = "hello"
  /\ normalizeToken "walking" = stripFirstSuffix "walking"
  /\ normalizeToken "uses" = stripInTurn ["s"] "us"
  /\ firstSuffix ["s"] "box" = None.
Proof.
  split; [|split; [|split]].
  - apply (proj1 (normalizeToken_in_turn "hello")). reflexivity.
  - destruct (proj2 (normalizeToken_in_turn "walking") "ing"
                ["tion"; "ment"; "ness"; "able"; "ful"; "less"; "ous"; "ive"; "ly";
                 "ed"; "er"; "es"; "s"] eq_refl) as (_ & _ & _ & Hiff).
    apply (proj1 Hiff). reflexivity.
  - destruct (proj2 (normalizeToken_in_turn "uses") "es" ["s"] eq_refl) as (_ & _ & Hn & _).
    exact Hn.
  - destruct (proj2 (normalizeToken_in_turn "boxes") "es" ["s"] eq_refl)
      as (_ & _ & _ & Hiff).
    apply (proj2 Hiff). reflexivity.
Defined.

(** C5, as the specification has it, fails: from "uses" the first match
    [es] leaves "us", and the engine goes on to strip [s] from that. *)
Lemma normalizeToken_strips_twice :
  stripFirstSuffix "uses" = "us"
  /\ normalizeToken "uses" = "u"
  /\ normalizeToken "uses" <> stripFirstSuffix "uses".
Proof.
  split; [reflexivity|]. split; [reflexivity|]. discriminate.
Qed.

(** ** The pipeline never throws and keeps its minimum counts *)

Section TotalityProofs.

Lemma mapM_total {A B : Type} (f : A -> option B) (l : list A) :
  Forall (fun x => f x <> None) l -> exists ys, mapM f l = Some ys.
Proof.
  induction 1 as [|x l Hx _ [ys IH]]; simpl.
  - now exists [].
  - destruct (f x) as [y|]; [|contradiction]. rewrite IH. now exists (y :: ys).
Qed.

Lemma Forall_firstn {A : Type} (P : A -> Prop) (n : nat) (l : list A) :
  Forall P l -> Forall P (firstn n l).
Proof.
  intros H. rewrite <- (firstn_skipn n l) in H. now apply Forall_app in H.
Qed.

Lemma insert_sorted_perm {A : Type} (cmp : A -> A -> Z) (x : A) (l : list A) :
  Permutation (insert_sorted cmp x l) (x :: l).
Proof.
  induction l as [|y l IH]; simpl; [reflexivity|].
  destruct (cmp x y <=? 0)%Z; [reflexivity|].
  rewrite IH. apply perm_swap.
Qed.

Lemma sort_perm {A : Type} (cmp : A -> A -> Z) (l : list A) :
  Permutation (sort cmp l) l.
Proof.
  induction l as [|x l IH]; simpl; [reflexivity|].
  rewrite insert_sorted_perm. now apply perm_skip.
Qed.

Lemma painPoints_total (sentences : list string) (clusters : list (list string)) :
  exists pain_points, painPoints sentences clusters = Some pain_points.
Proof.
  unfold painPoints.
  destruct (List.length (explicitPainPoints sentences clusters) =? 0)%nat; [|eauto].
  match goal with |- context [(0 <? ?n)%nat] => destruct (0 <? n)%nat end; [|eauto].
  match goal with |- context [mapM inferredIssue ?l] =>
    destruct (mapM_total inferredIssue l) as [ys Hys] end.
  - apply Forall_firstn.
    eapply Forall_impl; [|apply clusterSentences_nonempty].
    intros c Hc. destruct c; [contradiction | discriminate].
  - rewrite Hys. eauto.
Qed.

Lemma Set_fold_In (x : string) (l : list string) :
  forall acc, In x (fold_left JS.Set_add l acc) <-> In x acc \/ In x l.
Proof.
  induction l as [|y l IH]; intros acc; simpl; [tauto|].
  rewrite IH. unfold JS.Set_add.
  destruct (JS.mem y acc) eqn:Hy.
  - apply mem_In in Hy. split; [tauto|]. intros [H | [H | H]]; subst; auto.
  - rewrite in_app_iff. simpl. tauto.
Qed.

Lemma Set_of_In (x : string) (l : list string) : In x (JS.Set_of l) <-> In x l.
Proof. unfold JS.Set_of. rewrite Set_fold_In. simpl. tauto. Qed.

Lemma explicitThemes_labels (lowerText : string) (t : BehavioralTheme) :
  In t (explicitThemes lowerText) ->
  In (theme t) ["Power User Optimization"; "Onboarding Friction";
                "Collaboration Needs"; "Customization Desire"].
Proof.
  unfold explicitThemes.
  repeat match goal with
         | |- context [if ?c then _ else _] => destruct c
         end;
    simpl; intros H;
    repeat match goal with
           | H : _ \/ _ |- _ => destruct H as [H | H]
           end;
    try contradiction; subst; simpl; auto.
Qed.

(** The set [existingThemes] is built from the explicit themes only, and
    neither fallback label is an explicit label. *)
Lemma existingThemes_no_fallback (lowerText : string) (t : BehavioralTheme) :
  In t fallbacks ->
  JS.mem (theme t) (JS.Set_of (map theme (explicitThemes lowerText))) = false.
Proof.
  intros Ht. apply mem_false. intros Hin.
  apply Set_of_In, in_map_iff in Hin. destruct Hin as (t' & Heq & Hin).
  apply explicitThemes_labels in Hin. rewrite Heq in Hin.
  simpl in Ht, Hin.
  repeat match goal with
         | H : _ \/ _ |- _ => destruct H as [H | H]
         end;
    try contradiction; subst; discriminate.
Qed.

Lemma fallbackLoop_unroll (themes : list BehavioralTheme) (existing : list string) :
  fallbackLoop themes existing
  = if (List.length themes <? 2)%nat
    then match find (fun f => negb (JS.mem (theme f) existing)) fallbacks with
         | Some fb => fallbackLoop (themes ++ [fb]) (JS.Set_add existing (theme fb))
         | None => themes
         end
    else themes.
Proof.
  rewrite fallbackLoop_equation_1.
  destruct (Compare_dec.lt_dec (List.length themes) 2) as [Hlt | Hge]; simpl.
  - apply Nat.ltb_lt in Hlt as Hb. rewrite Hb.
    destruct (find (fun f => negb (JS.mem (theme f) existing)) fallbacks); reflexivity.
  - apply Nat.ltb_nlt in Hge. now rewrite Hge.
Qed.

Lemma mem_Set_add (x y : string) (s : list string) :
  JS.mem x (JS.Set_add s y) = (JS.mem x s || String.eqb x y)%bool.
Proof.
  unfold JS.Set_add. destruct (JS.mem y s) eqn:Hy.
  - destruct (String.eqb_spec x y) as [-> | _];
      [now rewrite Hy | now rewrite orb_false_r].
  - unfold JS.mem. rewrite existsb_app. simpl. now rewrite orb_false_r.
Qed.

(** Two turns of the loop are enough: with neither fallback label in
    [existingThemes], each turn that runs finds a fallback to push. *)
Lemma fallbackLoop_length (themes : list BehavioralTheme) (existing : list string) :
  (forall t, In t fallbacks -> JS.mem (theme t) existing = false) ->
  2 <= List.length (fallbackLoop themes existing).
Proof.
  intros Hfree.
  assert (H1 : JS.mem "Efficiency Seeking" existing = false)
    by (apply (Hfree (nth 0 fallbacks (Build_BehavioralTheme "" "" ""))); simpl; auto).
  assert (H2 : JS.mem "Feature Exploration" existing = false)
    by (apply (Hfree (nth 1 fallbacks (Build_BehavioralTheme "" "" ""))); simpl; auto).
  rewrite fallbackLoop_unroll.
  destruct (List.length themes <? 2)%nat eqn:E1; [|apply Nat.ltb_ge in E1; exact E1].
  unfold fallbacks at 1. cbn [find theme]. rewrite H1. cbn [negb].
  rewrite fallbackLoop_unroll.
  destruct (List.length (themes ++ [_]) <? 2)%nat eqn:E2; [|apply Nat.ltb_ge in E2; exact E2].
  unfold fallbacks at 1. cbn [find theme].
  rewrite !mem_Set_add, H1, H2. cbn [negb orb].
  replace ("Efficiency Seeking" =? "Efficiency Seeking") with true by reflexivity.
  replace ("Feature Exploration" =? "Efficiency Seeking") with false by reflexivity.
  cbn [negb orb].
  rewrite fallbackLoop_unroll.
  rewrite !length_app. cbn [List.length].
  replace (List.length themes + 1 + 1 <? 2)%nat with false
    by (symmetry; apply Nat.ltb_ge; lia).
  rewrite !length_app. simpl. lia.
Qed.

Lemma recurringTheme_total (clusters : list (list string)) (k : nat) :
  exists recurring,
    mapM recurringTheme
         (firstn k (sort bySize (filter (fun c => (2 <=? List.length c)%nat) clusters)))
    = Some recurring.
Proof.
  apply mapM_total, Forall_firstn.
  eapply Permutation_Forall; [symmetry; apply sort_perm|].
  apply Forall_forall. intros c Hc. apply filter_In in Hc. destruct Hc as [_ Hc].
  destruct c; [discriminate | discriminate].
Qed.

Lemma behavioralThemes_total (table : list ImplicitTheme.t) (lowerText : string)
      (sentences : list string) (clusters : list (list string)) :
  exists themes,
    fst (behavioralThemes table lowerText sentences clusters) = Some themes
    /\ 2 <= List.length themes.
Proof.
  unfold behavioralThemes.
  destruct (implicitThemes table sentences _ _) as [themes table'].
  destruct (List.length themes <? 2)%nat eqn:E.
  - destruct (recurringTheme_total clusters (2 - List.length themes)) as [recurring Hrec].
    rewrite Hrec. eexists. split; [reflexivity|].
    apply fallbackLoop_length. apply existingThemes_no_fallback.
  - apply Nat.ltb_ge in E. exists themes. split; [reflexivity | exact E].
Qed.

Lemma addDefault_length (recommendations : list Recommendation) :
  2 <= List.length (fold_left addDefault defaults recommendations).
Proof.
  destruct recommendations as [|[pr cat act imp] [|r' rest]].
  - cbv. lia.
  - unfold defaults. cbn [fold_left]. unfold addDefault.
    cbn [List.length Nat.ltb Nat.leb andb existsb category orb].
    destruct (String.eqb_spec cat "User Research") as [E | E]; cbn [negb app].
    + subst cat. cbn. lia.
    + cbn. lia.
  - unfold defaults, addDefault. cbn. lia.
Qed.

Lemma buildRecommendations_length (pain_points : list PainPoint)
      (emotional_patterns : list EmotionalPattern) (behavioral_themes : list BehavioralTheme) :
  2 <= List.length (buildRecommendations pain_points emotional_patterns behavioral_themes).
Proof.
  unfold buildRecommendations.
  match goal with |- context [(List.length ?l <? 2)%nat] =>
    destruct (List.length l <? 2)%nat eqn:E end.
  - apply addDefault_length.
  - now apply Nat.ltb_ge in E.
Qed.

Lemma analyzeUserFeedback_in_total (table : list ImplicitTheme.t) (rawText : string) :
  exists r,
    fst (analyzeUserFeedback_in table rawText) = Some r
    /\ 2 <= List.length (behavioral_themes r)
    /\ 2 <= List.length (recommendations r)
    /\ List.length (personas r) = 2.
Proof.
  unfold analyzeUserFeedback_in.
  destruct (painPoints_total (extractSentences rawText)
              (clusterSentences (extractSentences rawText) default_threshold))
    as [pain Hpain].
  rewrite Hpain.
  destruct (behavioralThemes_total table (JS.toLowerCase rawText) (extractSentences rawText)
              (clusterSentences (extractSentences rawText) default_threshold))
    as (themes & Hthemes & Hlen).
  destruct (behavioralThemes _ _ _ _) as [o table'].
  simpl in Hthemes. subst o.
  eexists. split; [reflexivity|]. cbn [behavioral_themes recommendations personas].
  split; [exact Hlen|]. split; [apply buildRecommendations_length | reflexivity].
Qed.

End TotalityProofs.

(** C1.  On every input text, the empty one included, the engine returns a
    report (it does not throw), and the report has at least two behavioral
    themes, at least two recommendations and exactly two personas. *)
Theorem analyzeUserFeedback_minimum_counts (rawText : string) :
  exists r,
    analyzeUserFeedback rawText = Some r
    /\ 2 <= List.length (behavioral_themes r)
    /\ 2 <= List.length (recommendations r)
    /\ List.length (personas r) = 2.
Proof.
  apply analyzeUserFeedback_in_total.
Qed.

(** ** The only state that outlives a call

    Nothing in the engine reads a clock, a random source or the outside
    world.  The one thing a call could leave behind is [lastIndex] of the
    expressions in [IMPLICIT_THEME_PATTERNS], the only objects that [test]
    is called on and that live as long as the module. *)

Section StateProofs.

Lemma test_stateless (r : RegExp.t) (s : string) :
  stateless r -> snd (RegExp.test r s) = r.
Proof.
  intros [Hg Hs]. unfold RegExp.test, RegExp.exec. rewrite Hg, Hs. cbn [orb].
  destruct (RegExp.seek None s 0) as [[prev rest]|];
    [destruct (RegExp.scan r prev rest 0) as [[b e]|]|]; reflexivity.
Qed.

Lemma some_test_stateless (patterns : list RegExp.t) (s : string) :
  Forall stateless patterns -> snd (some_test patterns s) = patterns.
Proof.
  induction 1 as [|r patterns Hr _ IH]; simpl; [reflexivity|].
  pose proof (test_stateless r s Hr) as Ht.
  destruct (RegExp.test r s) as [b r']. simpl in Ht. subst r'.
  destruct b; [reflexivity|].
  destruct (some_test patterns s) as [b' rest]. simpl in IH. now subst rest.
Qed.

Lemma countMatches_stateless (patterns : list RegExp.t) (sentences : list string) :
  Forall stateless patterns -> snd (countMatches patterns sentences) = patterns.
Proof.
  intros Hp. induction sentences as [|s sentences IH]; simpl; [reflexivity|].
  pose proof (some_test_stateless patterns s Hp) as Hs.
  destruct (some_test patterns s) as [b patterns']. simpl in Hs. subst patterns'.
  destruct (countMatches patterns sentences) as [n patterns'']. simpl in IH. now subst.
Qed.

Lemma implicitThemes_stateless (sentences existing : list string) :
  forall table themes,
    stateless_table table ->
    snd (implicitThemes table sentences existing themes) = table.
Proof.
  induction table as [|p table IH]; intros themes Ht; simpl; [reflexivity|].
  inversion Ht as [|? ? Hp Htable]; subst.
  destruct (JS.mem (ImplicitTheme.theme p) existing).
  - specialize (IH themes Htable).
    destruct (implicitThemes table sentences existing themes) as [themes' rest].
    simpl in IH. now subst.
  - pose proof (countMatches_stateless _ sentences Hp) as Hc.
    destruct (countMatches (ImplicitTheme.patterns p) sentences) as [n patterns'].
    simpl in Hc. subst patterns'.
    match goal with |- context [implicitThemes table sentences existing ?t] =>
      specialize (IH t Htable);
      destruct (implicitThemes table sentences existing t) as [themes' rest]
    end.
    simpl in IH. subst rest. simpl. now destruct p.
Qed.

Lemma behavioralThemes_stateless (table : list ImplicitTheme.t) (lowerText : string)
      (sentences : list string) (clusters : list (list string)) :
  stateless_table table ->
  snd (behavioralThemes table lowerText sentences clusters) = table.
Proof.
  intros Ht. unfold behavioralThemes.
  match goal with |- context [implicitThemes table sentences ?e ?t] =>
    pose proof (implicitThemes_stateless sentences e table t Ht) as Hi;
    destruct (implicitThemes table sentences e t) as [themes table']
  end.
  simpl in Hi. subst table'.
  destruct (List.length themes <? 2)%nat; [|reflexivity].
  now destruct (mapM recurringTheme _).
Qed.

Lemma analyzeUserFeedback_in_stateless (table : list ImplicitTheme.t) (rawText : string) :
  stateless_table table -> snd (analyzeUserFeedback_in table rawText) = table.
Proof.
  intros Ht. unfold analyzeUserFeedback_in.
  destruct (painPoints _ _); [|reflexivity].
  pose proof (behavioralThemes_stateless table (JS.toLowerCase rawText)
                (extractSentences rawText)
                (clusterSentences (extractSentences rawText) default_threshold) Ht) as Hb.
  destruct (behavioralThemes _ _ _ _) as [[themes|] table']; exact Hb.
Qed.

Lemma IMPLICIT_THEME_PATTERNS_stateless : stateless_table IMPLICIT_THEME_PATTERNS.
Proof.
  unfold stateless_table, IMPLICIT_THEME_PATTERNS.
  repeat constructor.
Qed.

Lemma after_calls_stateless (history : list string) :
  forall table, stateless_table table -> after_calls table history = table.
Proof.
  induction history as [|text history IH]; intros table Ht; simpl; [reflexivity|].
  rewrite analyzeUserFeedback_in_stateless by exact Ht. now apply IH.
Qed.

End StateProofs.

(** C2.  Whatever texts the engine was called on before, a call on
    [rawText] returns the report that the first call in a fresh module
    returns for it, a second call on the same text right after returns the
    same report field for field, and there is a report (the call does not
    throw).  The calls before leave nothing behind that a later call could
    read. *)
Theorem analyzeUserFeedback_deterministic (history : list string) (rawText : string) :
  let table := after_calls IMPLICIT_THEME_PATTERNS history in
  let first := analyzeUserFeedback_in table rawText in
  let second := analyzeUserFeedback_in (snd first) rawText in
  fst first = analyzeUserFeedback rawText
  /\ fst second = fst first
  /\ snd second = IMPLICIT_THEME_PATTERNS
  /\ exists r, fst first = Some r.
Proof.
  cbn zeta.
  rewrite after_calls_stateless by apply IMPLICIT_THEME_PATTERNS_stateless.
  rewrite !analyzeUserFeedback_in_stateless by apply IMPLICIT_THEME_PATTERNS_stateless.
  repeat split.
  destruct (analyzeUserFeedback_in_total IMPLICIT_THEME_PATTERNS rawText) as (r & Hr & _).
  now exists r.
Qed.

(** ** Pain points: mention counts and tiers *)

Section PainPointProofs.

Lemma In_filter_Boolean {A B : Type} (g : A -> option B) (l : list A) (y : B) :
  In y (filter_Boolean (map g l)) <-> exists x, In x l /\ g x = Some y.
Proof.
  induction l as [|x l IH]; simpl.
  - split; [contradiction | intros (x & [] & _)].
  - destruct (g x) as [y'|] eqn:E; simpl; rewrite IH; split.
    + intros [H | (x' & Hin & Hg)]; [subst; eauto | eauto].
    + intros (x' & [H | Hin] & Hg); [subst; left; congruence | eauto].
    + intros (x' & Hin & Hg). eauto.
    + intros (x' & [H | Hin] & Hg); [subst; congruence | eauto].
Qed.

(** What a report was built from. *)
Lemma analyzeUserFeedback_parts (rawText : string) (r : AnalysisResult) :
  analyzeUserFeedback rawText = Some r ->
  let sentences := extractSentences rawText in
  painPoints sentences (clusterSentences sentences default_threshold) = Some (pain_points r)
  /\ emotional_patterns r = emotionalPatterns sentences
  /\ cognitive_biases r = cognitiveBiases (JS.toLowerCase rawText) sentences.
Proof.
  unfold analyzeUserFeedback, analyzeUserFeedback_in. cbn zeta.
  destruct (painPoints _ _) as [pain|]; [|discriminate].
  destruct (behavioralThemes _ _ _ _) as [[themes|] table']; [|discriminate].
  cbn [fst]. intros H. inversion H. now cbn.
Qed.

Lemma mapM_In {A B : Type} (f : A -> option B) (l : list A) (ys : list B) (y : B) :
  mapM f l = Some ys -> In y ys -> exists x, In x l /\ f x = Some y.
Proof.
  revert ys. induction l as [|x l IH]; simpl; intros ys H Hy.
  - inversion H. subst. contradiction.
  - destruct (f x) as [y'|] eqn:E; [|discriminate].
    destruct (mapM f l) as [ys'|]; [|discriminate].
    inversion H. subst. destruct Hy as [-> | Hy]; [eauto|].
    destruct (IH ys' eq_refl Hy) as (x' & Hin & Hf). eauto.
Qed.

(** The two ways the list of pain points comes about. *)
Lemma painPoints_cases (sentences : list string) (clusters : list (list string))
      (pain : list PainPoint) :
  painPoints sentences clusters = Some pain ->
  (explicitPainPoints sentences clusters <> [] /\ pain = explicitPainPoints sentences clusters)
  \/ (explicitPainPoints sentences clusters = []
      /\ forall f, In f pain -> exists c, inferredIssue c = Some f).
Proof.
  unfold painPoints.
  destruct (explicitPainPoints sentences clusters) as [|f0 fs] eqn:E.
  - intros H. right. split; [reflexivity|]. cbn [List.length Nat.eqb] in H.
    match type of H with context [(0 <? ?n)%nat] => destruct (0 <? n)%nat end.
    + destruct (mapM inferredIssue _) as [inferred|] eqn:Em; [|discriminate].
      inversion H. subst. cbn [app]. intros f Hf.
      destruct (mapM_In _ _ _ _ Em Hf) as (c & _ & Hc). eauto.
    + inversion H. contradiction.
  - intros H. left. cbn in H. inversion H. split; [discriminate | reflexivity].
Qed.

Lemma inferredIssue_label (c : list string) (f : PainPoint) (p : Pain.t) :
  inferredIssue c = Some f -> In p PAIN_KEYWORDS -> issue f <> Pain.issue p.
Proof.
  destruct c as [|first rest]; [discriminate|].
  intros H Hp. inversion H. cbn [issue].
  simpl in Hp.
  repeat match goal with
         | H : _ \/ _ |- _ => destruct H as [H | H]
         end;
    try contradiction; subst; discriminate.
Qed.

Lemma NoDup_map_injective {A B : Type} (g : A -> B) (l : list A) (x y : A) :
  NoDup (map g l) -> In x l -> In y l -> g x = g y -> x = y.
Proof.
  induction l as [|z l IH]; simpl; [contradiction|].
  intros Hnd Hx Hy Hg. inversion Hnd as [|? ? Hz Hnd']; subst.
  destruct Hx as [-> | Hx], Hy as [-> | Hy]; auto.
  - exfalso. apply Hz. rewrite Hg. now apply in_map.
  - exfalso. apply Hz. rewrite <- Hg. now apply in_map.
Qed.

Lemma PAIN_KEYWORDS_labels_distinct : NoDup (map Pain.issue PAIN_KEYWORDS).
Proof.
  unfold PAIN_KEYWORDS. cbn [map Pain.issue].
  repeat (constructor;
          [cbn [In]; intros H;
           repeat match goal with
                  | H : _ \/ _ |- _ => destruct H as [H | H]
                  end; try contradiction; discriminate|]).
  constructor.
Qed.

Lemma fold_sum_lengths {A : Type} (l : list (list A)) :
  forall n, fold_left (fun sum c => sum + List.length c) l n
            = n + list_sum (map (@List.length A) l).
Proof.
  induction l as [|c l IH]; intros n; simpl; [lia|].
  rewrite IH. lia.
Qed.

Lemma Permutation_filter_length {A : Type} (f : A -> bool) (l l' : list A) :
  Permutation l l' -> List.length (filter f l) = List.length (filter f l').
Proof.
  induction 1 as [|x l l' _ IH|x y l|l l' l'' _ IH1 _ IH2]; simpl.
  - reflexivity.
  - destruct (f x); simpl; now rewrite IH.
  - destruct (f x), (f y); reflexivity.
  - now rewrite IH1.
Qed.

(** The clusters that hold a matched sentence hold, between them, at least
    as many sentences as were matched: the boost is never negative. *)
Lemma matched_within_clusters (pred : string -> bool) (matching : list string) :
  forall clusters,
    (forall c s, In c clusters -> In s c -> pred s = true -> JS.mem s matching = true) ->
    List.length (filter pred (List.concat clusters))
    <= list_sum (map (@List.length string)
                     (filter (fun c => existsb (fun s => JS.mem s matching) c) clusters)).
Proof.
  induction clusters as [|c clusters IH]; intros Hin; simpl; [lia|].
  rewrite filter_app, length_app.
  assert (IH' := IH (fun c' s Hc => Hin c' s (or_intror Hc))).
  destruct (existsb (fun s => JS.mem s matching) c) eqn:E.
  - simpl. pose proof (filter_length_le pred c). lia.
  - assert (Hnone : filter pred c = []).
    { destruct (filter pred c) as [|s rest] eqn:Ef; [reflexivity|].
      assert (Hs : In s (filter pred c)) by (rewrite Ef; now left).
      apply filter_In in Hs. destruct Hs as [Hs Hp].
      assert (Hex : existsb (fun s => JS.mem s matching) c = true).
      { apply existsb_exists. exists s. split; [assumption|].
        apply (Hin c s); auto. now left. }
      congruence. }
    rewrite Hnone. simpl. lia.
Qed.

Lemma clusterBoost_nonneg (pred : string -> bool) (sentences : list string) (threshold : Q) :
  let matching := filter pred sentences in
  (Z.of_nat (List.length matching)
   <= Z.of_nat (list_sum (map (@List.length string)
                   (filter (fun c => existsb (fun s => JS.mem s matching) c)
                           (clusterSentences sentences threshold)))))%Z.
Proof.
  intros matching. apply Nat2Z.inj_le.
  unfold matching at 1.
  rewrite <- (Permutation_filter_length pred _ _ (clusterSentences_concat threshold sentences)).
  apply matched_within_clusters.
  intros c s Hc Hs Hp. apply mem_In. unfold matching. apply filter_In. split; [|exact Hp].
  apply (Permutation_in _ (clusterSentences_concat threshold sentences)).
  apply in_concat. eauto.
Qed.

Lemma tier_cases (n : Z) :
  (n = 1%Z -> tier n = low) /\ (n = 2%Z -> tier n = medium) /\ ((3 <= n)%Z -> tier n = high).
Proof.
  unfold tier. repeat split; intros H.
  - now subst.
  - now subst.
  - apply Z.leb_le in H. now rewrite H.
Qed.

End PainPointProofs.

(** C6.  A pain point of the report that carries the label of a taxonomy
    entry comes from the explicit stage.  Its mention count is the number
    of sentences that contain one of the entry's keywords (in lower case),
    plus the floored half of the boost, the boost being the total size of
    the clusters that hold a matched sentence less the number of matched
    sentences.  The boost is not negative, the count is at least 1, it is
    what the [frequency] text shows, and the tier is [low] for a count of
    1, [medium] for 2 and [high] for 3 or more. *)
Theorem explicit_pain_point_mentions
        (rawText : string) (r : AnalysisResult) (f : PainPoint) (p : Pain.t) :
  analyzeUserFeedback rawText = Some r ->
  In f (pain_points r) ->
  In p PAIN_KEYWORDS ->
  issue f = Pain.issue p ->
  let sentences := extractSentences rawText in
  let clusters := clusterSentences sentences default_threshold in
  let matching :=
    filter (fun s => existsb (fun k => JS.includes (JS.toLowerCase s) k) (Pain.keywords p))
           sentences in
  let explicitCount := Z.of_nat (List.length matching) in
  let boost :=
    (Z.of_nat (list_sum (map (@List.length string)
                 (filter (fun c => existsb (fun s => JS.mem s matching) c) clusters)))
     - explicitCount)%Z in
  let total := (explicitCount + boost / 2)%Z in
  (1 <= explicitCount)%Z
  /\ (0 <= boost)%Z
  /\ (1 <= total)%Z
  /\ frequency f = JS.show_Z total ++ " mention" ++ (if (1 <? total)%Z then "s" else "")
  /\ (total = 1%Z -> severity f = low)
  /\ (total = 2%Z -> severity f = medium)
  /\ ((3 <= total)%Z -> severity f = high).
Proof.
  intros Hr Hf Hp Hlabel sentences clusters matching explicitCount boost total.
  destruct (analyzeUserFeedback_parts rawText r Hr) as [Hpain _].
  fold sentences in Hpain. fold clusters in Hpain.
  destruct (painPoints_cases _ _ _ Hpain) as [[_ Hexp] | [_ Hinf]].
  2:{ destruct (Hinf f Hf) as [c Hc].
      exfalso. exact (inferredIssue_label c f p Hc Hp Hlabel). }
  rewrite Hexp in Hf. unfold explicitPainPoints in Hf.
  apply (Permutation_in _ (sort_perm _ _)) in Hf.
  apply In_filter_Boolean in Hf. destruct Hf as (p' & Hp' & Hf).
  assert (p' = p).
  { apply (NoDup_map_injective Pain.issue PAIN_KEYWORDS);
      auto using PAIN_KEYWORDS_labels_distinct.
    rewrite <- Hlabel. unfold painPointOf in Hf.
    destruct (totalMentions _ _ =? 0)%Z; [discriminate|]. now inversion Hf. }
  subst p'. unfold painPointOf in Hf.
  change (filter (matchesAny (Pain.keywords p)) sentences) with matching in Hf.
  pose proof (clusterBoost_nonneg
                (fun s => existsb (fun k => JS.includes (JS.toLowerCase s) k) (Pain.keywords p))
                sentences default_threshold) as Hboost.
  cbn zeta in Hboost. fold matching in Hboost. fold clusters in Hboost.
  assert (Htotal : totalMentions clusters matching
                   = if (0 <? List.length matching)%nat then total else 0%Z).
  { unfold totalMentions, clusterBoost. rewrite fold_sum_lengths.
    destruct (0 <? List.length matching)%nat eqn:E; [reflexivity|].
    apply Nat.ltb_ge in E. assert (List.length matching = 0) as -> by lia. reflexivity. }
  rewrite Htotal in Hf.
  destruct (0 <? List.length matching)%nat eqn:Epos; [|discriminate].
  apply Nat.ltb_lt in Epos.
  assert (H1 : (1 <= explicitCount)%Z) by (unfold explicitCount; lia).
  assert (H0 : (0 <= boost)%Z) by (unfold boost, explicitCount; lia).
  assert (Ht : (1 <= total)%Z).
  { unfold total. pose proof (Z.div_pos boost 2 H0 ltac:(lia)). lia. }
  destruct (total =? 0)%Z eqn:Ez; [apply Z.eqb_eq in Ez; lia|].
  inversion Hf. cbn [frequency severity].
  split; [exact H1|]. split; [exact H0|]. split; [exact Ht|].
  split; [reflexivity|]. apply tier_cases.
Qed.

Lemma explicit_pain_point_mentions_witness :
  exists r f,
    analyzeUserFeedback "Pages are slow here. Pages are sluggish here. Pages are heavy here."
    = Some r
    /\ In f (pain_points r)
    /\ issue f = "Performance & Speed Issues"
    /\ frequency f = "2 mentions"
    /\ severity f = medium.
Proof.
  destruct (analyzeUserFeedback
              "Pages are slow here. Pages are sluggish here. Pages are heavy here.")
    as [r|] eqn:E; [|vm_compute in E; discriminate].
  pose proof E as E'. vm_compute in E'. injection E' as <-.
  match type of E with
  | _ = Some ?r =>
      pose (f := hd (Build_PainPoint "" "" low []) (pain_points r));
      pose proof (explicit_pain_point_mentions _ r f
                    (Pain.mk ["slow"; "loading"; "wait"; "lag"; "performance";
                              "takes forever"; "too long"; "speed"]
                             "Performance & Speed Issues")
                    E (or_introl eq_refl) (or_introl eq_refl) eq_refl) as H;
      exists r, f
  end.
  cbn zeta in H. destruct H as (_ & _ & _ & Hfreq & _ & Hmedium & _).
  split; [reflexivity|]. split; [now left|]. split; [reflexivity|].
  split.
  - rewrite Hfreq. vm_compute. reflexivity.
  - apply Hmedium. vm_compute. reflexivity.
Defined.

(** ** Pain points: the order of the list *)

Section SortProofs.

Context {A : Type}.
Variable key : A -> Z.

(** The comparator of both sorts of the engine: the greater key first. *)
Let cmp (a b : A) : Z := (key b - key a)%Z.

Lemma insert_sorted_descending (x : A) (l : list A) :
  StronglySorted (fun a b => (key b <= key a)%Z) l ->
  StronglySorted (fun a b => (key b <= key a)%Z) (insert_sorted cmp x l).
Proof.
  induction 1 as [|y l Hl IH Hy]; simpl.
  - repeat constructor.
  - unfold cmp at 1. destruct (Z.leb_spec (key y - key x) 0) as [Hle | Hgt].
    + constructor; [now constructor|].
      constructor; [lia|].
      eapply Forall_impl; [|exact Hy]. simpl. intros z Hz. lia.
    + constructor; [exact IH|].
      eapply Permutation_Forall; [symmetry; apply insert_sorted_perm|].
      constructor; [lia | exact Hy].
Qed.

Lemma sort_descending (l : list A) :
  StronglySorted (fun a b => (key b <= key a)%Z) (sort cmp l).
Proof.
  induction l as [|x l IH]; simpl; [constructor | now apply insert_sorted_descending].
Qed.

(** Stability: among the elements of one key the order of the input is
    kept. *)
Lemma insert_sorted_stable (k : Z) (x : A) (l : list A) :
  StronglySorted (fun a b => (key b <= key a)%Z) l ->
  filter (fun a => (key a =? k)%Z) (insert_sorted cmp x l)
  = filter (fun a => (key a =? k)%Z) (x :: l).
Proof.
  induction 1 as [|y l Hl IH Hy]; [reflexivity|].
  cbn [insert_sorted]. unfold cmp at 1.
  destruct (Z.leb_spec (key y - key x) 0) as [Hle | Hgt]; [reflexivity|].
  cbn [filter] in *. rewrite IH.
  destruct (Z.eqb_spec (key x) k) as [Ex | Ex], (Z.eqb_spec (key y) k) as [Ey | Ey];
    try reflexivity.
  lia.
Qed.

Lemma sort_stable (k : Z) (l : list A) :
  filter (fun a => (key a =? k)%Z) (sort cmp l) = filter (fun a => (key a =? k)%Z) l.
Proof.
  induction l as [|x l IH]; [reflexivity|].
  cbn [sort]. rewrite insert_sorted_stable by apply sort_descending.
  cbn [filter]. now rewrite IH.
Qed.

End SortProofs.

(** The explicit stage does sort: greater tier first, and the findings of
    one tier in the order of the taxonomy table. *)
Lemma explicitPainPoints_sorted (sentences : list string) (clusters : list (list string)) :
  StronglySorted (fun a b => (sevOrder (severity b) <= sevOrder (severity a))%Z)
                 (explicitPainPoints sentences clusters)
  /\ forall k,
      filter (fun f => (sevOrder (severity f) =? k)%Z) (explicitPainPoints sentences clusters)
      = filter (fun f => (sevOrder (severity f) =? k)%Z)
               (filter_Boolean (map (painPointOf sentences clusters) PAIN_KEYWORDS)).
Proof.
  split.
  - apply (sort_descending (fun f => sevOrder (severity f))).
  - intros k. apply (sort_stable (fun f => sevOrder (severity f))).
Qed.

(** C7, at a failing input.  No sentence has a pain keyword, all three are
    negative, and the second and third cluster together: the fallback
    pushes the single sentence first, as [low], and the pair after it, as
    [medium].  The list is returned in this order. *)
Theorem inferred_pain_points_unsorted :
  exists r,
    analyzeUserFeedback
      "The colors are really bad. Everything here is poor however. Everything here is poor indeed."
    = Some r
    /\ explicitPainPoints
         (extractSentences
            "The colors are really bad. Everything here is poor however. Everything here is poor indeed.")
         (clusterSentences
            (extractSentences
               "The colors are really bad. Everything here is poor however. Everything here is poor indeed.")
            default_threshold)
       = []
    /\ map severity (pain_points r) = [low; medium]
    /\ ~ StronglySorted (fun a b => (sevOrder (severity b) <= sevOrder (severity a))%Z)
                        (pain_points r).
Proof.
  eexists. split; [vm_compute; reflexivity|].
  split; [vm_compute; reflexivity|].
  split; [reflexivity|].
  intros H. inversion H as [|? ? _ Hall]; subst.
  inversion Hall as [|? ? Hle _]; subst.
  cbn in Hle. lia.
Qed.

(** C8, at a failing input.  The one sentence matches the implicit pattern
    of "Efficiency Seeking", so the theme is in the list when the final
    fallback runs; [existingThemes] was filled before the implicit stage
    and does not have the label, and the fallback pushes the theme a second
    time. *)
Theorem fallback_theme_pushed_twice :
  exists r,
    analyzeUserFeedback "This is really quick to use." = Some r
    /\ map theme (behavioral_themes r) = ["Efficiency Seeking"; "Efficiency Seeking"]
    /\ ~ NoDup (map theme (behavioral_themes r)).
Proof.
  eexists. split; [vm_compute; reflexivity|].
  split; [reflexivity|].
  intros H. inversion H as [|? ? Hnot _]; subst. apply Hnot. now left.
Qed.

(** ** Cognitive biases *)

Section BiasProofs.

Lemma BIAS_PATTERNS_labels_distinct : NoDup (map Bias.bias BIAS_PATTERNS).
Proof.
  unfold BIAS_PATTERNS. cbn [map Bias.bias].
  repeat (constructor;
          [cbn [In]; intros H;
           repeat match goal with
                  | H : _ \/ _ |- _ => destruct H as [H | H]
                  end; try contradiction; discriminate|]).
  constructor.
Qed.

Lemma implicitBiases_labels (sentences : list string) (f : CognitiveBias) (b : Bias.t) :
  In f (implicitBiases sentences) -> In b BIAS_PATTERNS -> bias f <> Bias.bias b.
Proof.
  unfold implicitBiases. cbn zeta. intros Hf Hb.
  apply in_app_iff in Hf.
  assert (Hlabel : bias f = "Absolutist Thinking" \/ bias f = "Comparative Framing").
  { destruct Hf as [Hf | Hf];
      match type of Hf with context [if ?c then _ else _] => destruct c end;
      simpl in Hf; try contradiction;
      destruct Hf as [<- | Hf]; try contradiction; auto. }
  simpl in Hb.
  repeat match goal with
         | H : _ \/ _ |- _ => destruct H as [H | H]
         end;
    try contradiction; subst; rewrite Hlabel; discriminate.
Qed.

Lemma biasOf_Some (lowerText : string) (b : Bias.t) (f : CognitiveBias) :
  biasOf lowerText b = Some f ->
  bias f = Bias.bias b
  /\ exists k, In k (Bias.keywords b) /\ JS.includes lowerText k = true.
Proof.
  unfold biasOf.
  destruct (filter (fun k => JS.includes lowerText k) (Bias.keywords b)) as [|k ks] eqn:E;
    [discriminate|].
  cbn [List.length Nat.eqb]. intros H. inversion H. split; [reflexivity|].
  assert (Hin : In k (filter (fun k => JS.includes lowerText k) (Bias.keywords b)))
    by (rewrite E; now left).
  apply filter_In in Hin. now exists k.
Qed.

Lemma biasOf_matched (lowerText : string) (b : Bias.t) (k : string) :
  In k (Bias.keywords b) -> JS.includes lowerText k = true ->
  exists f, biasOf lowerText b = Some f.
Proof.
  intros Hk Hinc. unfold biasOf.
  assert (Hin : In k (filter (fun k => JS.includes lowerText k) (Bias.keywords b)))
    by (apply filter_In; auto).
  destruct (filter _ (Bias.keywords b)); [contradiction|].
  cbn [List.length Nat.eqb]. eauto.
Qed.

Lemma cognitiveBiases_explicit (lowerText : string) (sentences : list string) :
  explicitBiases lowerText <> [] ->
  cognitiveBiases lowerText sentences = explicitBiases lowerText.
Proof.
  unfold cognitiveBiases. destruct (explicitBiases lowerText); [contradiction | reflexivity].
Qed.

Lemma explicit_bias_iff (lowerText : string) (sentences : list string) (b : Bias.t) :
  In b BIAS_PATTERNS ->
  (exists f, In f (cognitiveBiases lowerText sentences) /\ bias f = Bias.bias b)
  <-> (exists k, In k (Bias.keywords b) /\ JS.includes lowerText k = true).
Proof.
  intros Hb. split.
  - intros (f & Hf & Hlabel).
    assert (Hexp : In f (explicitBiases lowerText)).
    { unfold cognitiveBiases in Hf.
      destruct (List.length (explicitBiases lowerText) =? 0)%nat; [|exact Hf].
      apply in_app_iff in Hf. destruct Hf as [Hf | Hf]; [exact Hf|].
      exfalso. exact (implicitBiases_labels sentences f b Hf Hb Hlabel). }
    apply In_filter_Boolean in Hexp. destruct Hexp as (b' & Hb' & Hof).
    apply biasOf_Some in Hof. destruct Hof as [Hlabel' Hk].
    assert (b' = b).
    { apply (NoDup_map_injective Bias.bias BIAS_PATTERNS);
        auto using BIAS_PATTERNS_labels_distinct. congruence. }
    now subst.
  - intros (k & Hk & Hinc).
    destruct (biasOf_matched lowerText b k Hk Hinc) as [f Hf].
    assert (Hexp : In f (explicitBiases lowerText)).
    { apply In_filter_Boolean. eauto. }
    exists f. split; [|apply (biasOf_Some _ _ _ Hf)].
    rewrite cognitiveBiases_explicit; [exact Hexp|].
    intros Hnil. rewrite Hnil in Hexp. contradiction.
Qed.

End BiasProofs.

(** C10.  The explicit bias stage looks at the whole text in lower case
    and not at the sentences.  For every entry of the bias table, the
    report has a finding with the entry's label exactly when one of the
    entry's keywords occurs in the lower-cased text; when the stage finds
    anything the list of the report is what the stage computes from the
    lower-cased text.  So the text "always!", which has no sentence, gets a
    report with a bias and with no pain point and no emotional pattern. *)
Theorem explicit_biases_from_whole_text :
  (forall rawText r b,
      analyzeUserFeedback rawText = Some r ->
      In b BIAS_PATTERNS ->
      ((exists f, In f (cognitive_biases r) /\ bias f = Bias.bias b)
       <-> (exists k, In k (Bias.keywords b)
                      /\ JS.includes (JS.toLowerCase rawText) k = true)))
  /\ (forall rawText r,
         analyzeUserFeedback rawText = Some r ->
         explicitBiases (JS.toLowerCase rawText) <> [] ->
         cognitive_biases r = explicitBiases (JS.toLowerCase rawText))
  /\ (exists r,
         analyzeUserFeedback "always!" = Some r
         /\ extractSentences "always!" = []
         /\ map bias (cognitive_biases r) = ["Frequency Illusion"]
         /\ pain_points r = []
         /\ emotional_patterns r = []).
Proof.
  split; [|split].
  - intros rawText r b Hr Hb.
    destruct (analyzeUserFeedback_parts rawText r Hr) as (_ & _ & ->).
    now apply explicit_bias_iff.
  - intros rawText r Hr Hne.
    destruct (analyzeUserFeedback_parts rawText r Hr) as (_ & _ & ->).
    now apply cognitiveBiases_explicit.
  - eexists. split; [vm_compute; reflexivity|]. repeat split.
Qed.

Lemma explicit_biases_from_whole_text_witness :
  exists r f,
    analyzeUserFeedback "NEVER!" = Some r
    /\ extractSentences "NEVER!" = []
    /\ In f (cognitive_biases r)
    /\ bias f = "Frequency Illusion"
    /\ cognitive_biases r = explicitBiases "never!".
Proof.
  destruct (analyzeUserFeedback "NEVER!") as [r|] eqn:E; [|vm_compute in E; discriminate].
  pose proof E as E'. vm_compute in E'. injection E' as <-.
  match type of E with
  | _ = Some ?r =>
      destruct explicit_biases_from_whole_text as (Hiff & Hexplicit & _);
      pose proof (proj2 (Hiff "NEVER!" r
                           (Bias.mk ["always"; "never"; "every time"; "constantly";
                                     "without fail"]
                                    "Frequency Illusion"
                                    "Users may overstate issue frequency")
                           E (or_introl eq_refl))) as Hfound;
      pose proof (Hexplicit "NEVER!" r E) as Hlist;
      exists r
  end.
  destruct Hfound as (f & Hf & Hlabel).
  { exists "never". split; [right; now left | vm_compute; reflexivity]. }
  exists f. split; [reflexivity|]. split; [reflexivity|].
  split; [exact Hf|]. split; [exact Hlabel|].
  apply Hlist. vm_compute. discriminate.
Defined.

(** ** Strings: substrings, case, classes of units *)

Section StringFacts.

Lemma prefix_append (k s : string) :
  String.prefix k s = true <-> exists b, s = k ++ b.
Proof.
  revert s. induction k as [|c k IH]; intros s.
  - split; [intros _; now exists s | intros _; now destruct s].
  - destruct s as [|c' s]; cbn [String.prefix append].
    + split; [discriminate | intros [b Hb]; discriminate].
    + destruct (ascii_dec c c') as [-> | Hne].
      * rewrite IH. split; intros [b Hb]; exists b; [now rewrite Hb | now inversion Hb].
      * split; [discriminate | intros [b Hb]; inversion Hb; subst; contradiction].
Qed.

Lemma includes_substring (s k : string) :
  JS.includes s k = true <-> substring_of k s.
Proof.
  unfold substring_of. induction s as [|c s IH].
  - cbn [JS.includes]. rewrite orb_false_r, prefix_append. split.
    + intros [b Hb]. now exists "", b.
    + intros (a & b & H). destruct a; [now exists b | discriminate].
  - cbn [JS.includes]. rewrite orb_true_iff, prefix_append, IH. split.
    + intros [[b Hb] | (a & b & Hab)].
      * now exists "", b.
      * exists (String c a), b. simpl. now rewrite Hab.
    + intros (a & b & H). destruct a as [|c' a].
      * left. now exists b.
      * right. exists a, b. simpl in H. now inversion H.
Qed.

Lemma substring_of_trans (a b c : string) :
  substring_of a b -> substring_of b c -> substring_of a c.
Proof.
  intros (x & y & Hb) (u & v & Hc). exists (u ++ x), (y ++ v).
  rewrite Hc, Hb. now rewrite !append_assoc.
Qed.

Lemma map_units_append (f : ascii -> ascii) (a b : string) :
  JS.map_units f (a ++ b) = JS.map_units f a ++ JS.map_units f b.
Proof. induction a as [|c a IH]; simpl; [reflexivity | now rewrite IH]. Qed.

Lemma substring_of_lower (k s : string) :
  substring_of k s -> substring_of (JS.toLowerCase k) (JS.toLowerCase s).
Proof.
  intros (a & b & ->). exists (JS.toLowerCase a), (JS.toLowerCase b).
  unfold JS.toLowerCase. now rewrite !map_units_append.
Qed.

Lemma lower_unit_idempotent (c : ascii) : JS.lower_unit (JS.lower_unit c) = JS.lower_unit c.
Proof. destruct c as [[] [] [] [] [] [] [] []]; reflexivity. Qed.

Lemma toLowerCase_idempotent (s : string) :
  JS.toLowerCase (JS.toLowerCase s) = JS.toLowerCase s.
Proof.
  unfold JS.toLowerCase. induction s as [|c s IH]; simpl; [reflexivity|].
  now rewrite lower_unit_idempotent, IH.
Qed.

Lemma all_units_append (P : ascii -> bool) (a b : string) :
  all_units P (a ++ b) = (all_units P a && all_units P b)%bool.
Proof.
  induction a as [|c a IH]; simpl; [reflexivity|].
  now rewrite IH, andb_assoc.
Qed.

Lemma all_units_impl (P Q : ascii -> bool) (s : string) :
  (forall c, P c = true -> Q c = true) -> all_units P s = true -> all_units Q s = true.
Proof.
  intros HPQ. induction s as [|c s IH]; simpl; [reflexivity|].
  intros H. apply andb_true_iff in H. destruct H as [Hc Hs].
  now rewrite (HPQ c Hc), IH.
Qed.

Lemma all_units_both (P Q : ascii -> bool) (s : string) :
  all_units P s = true -> all_units Q s = true ->
  all_units (fun c => (P c && Q c)%bool) s = true.
Proof.
  induction s as [|c s IH]; simpl; [reflexivity|].
  intros HP HQ. apply andb_true_iff in HP, HQ.
  destruct HP as [-> HP], HQ as [-> HQ]. now rewrite IH.
Qed.

Lemma all_units_filter (f : ascii -> bool) (s : string) :
  all_units f (JS.filter_units f s) = true.
Proof.
  induction s as [|c s IH]; simpl; [reflexivity|].
  destruct (f c) eqn:E; simpl; [now rewrite E | exact IH].
Qed.

(** A piece of a split is a part of the text that was split. *)
Lemma interleave_piece (pieces seps : list string) (p : string) :
  List.length pieces = S (List.length seps) -> In p pieces ->
  substring_of p (interleave pieces seps).
Proof.
  revert seps. induction pieces as [|q pieces IH]; intros seps Hlen Hin; [contradiction|].
  destruct seps as [|d seps].
  - destruct pieces; [|discriminate]. destruct Hin as [-> | []].
    exists "", "". simpl. now rewrite append_nil_r.
  - cbn [interleave]. destruct Hin as [-> | Hin].
    + now exists "", (d ++ interleave pieces seps).
    + assert (Hlen' : List.length pieces = S (List.length seps)) by (simpl in Hlen; lia).
      destruct (IH seps Hlen' Hin) as (a & b & Hab).
      exists (q ++ d ++ a), b. rewrite Hab. now rewrite !append_assoc.
Qed.

Lemma all_units_substring (P : ascii -> bool) (k s : string) :
  substring_of k s -> all_units P s = true -> all_units P k = true.
Proof.
  intros (a & b & ->). rewrite !all_units_append.
  intros H. apply andb_true_iff in H. destruct H as [_ H].
  apply andb_true_iff in H. now destruct H.
Qed.

Lemma trim_substring (p : string) : substring_of (JS.trim p) p.
Proof.
  destruct (trim_spec p) as (l & r & Hp & _). now exists l, r.
Qed.

Lemma split_go_clean (cls : ascii -> bool) (s : string) :
  all_units (fun c => negb (cls c)) s = true ->
  forall in_run, JS.split_go cls s in_run = [s].
Proof.
  induction s as [|c s IH]; simpl; intros H in_run; [reflexivity|].
  apply andb_true_iff in H. destruct H as [Hc Hs].
  apply negb_true_iff in Hc. rewrite Hc. now rewrite (IH Hs).
Qed.

Lemma trimStart_id (s : string) : not_space (RegExp.head s) -> JS.trimStart s = s.
Proof. destruct s as [|c s]; simpl; [reflexivity | now intros ->]. Qed.

Lemma trimEnd_id (s : string) : not_space (last_unit s) -> JS.trimEnd s = s.
Proof.
  induction s as [|c s IH]; [reflexivity|].
  destruct s as [|c' s].
  - simpl. now intros ->.
  - intros H. change (last_unit (String c (String c' s))) with (last_unit (String c' s)) in H.
    cbn [JS.trimEnd]. cbn [JS.trimEnd] in IH. rewrite (IH H). reflexivity.
Qed.

End StringFacts.

(** ** Sentences of a text *)

Section SentenceFacts.

Variable text : string.

Lemma sentence_piece (s : string) :
  In s (extractSentences text) ->
  exists p, In p (JS.split_class isSentenceDelimiter text)
            /\ s = JS.trim p /\ 10 < String.length s.
Proof.
  unfold extractSentences. intros H. apply filter_In in H. destruct H as [H Hlen].
  apply in_map_iff in H. destruct H as (p & Hp & Hin).
  exists p. repeat split; auto. now apply Nat.ltb_lt.
Qed.

Lemma sentence_substring (s : string) :
  In s (extractSentences text) -> substring_of s text.
Proof.
  intros H. destruct (sentence_piece s H) as (p & Hp & -> & _).
  apply (substring_of_trans _ p); [apply trim_substring|].
  destruct (split_class_spec isSentenceDelimiter text)
    as (pieces & seps & Hsplit & Hlen & Htext & _).
  rewrite Hsplit in Hp. rewrite Htext at 1. now apply interleave_piece.
Qed.

Lemma sentence_clean (s : string) :
  In s (extractSentences text) ->
  all_units (fun c => negb (isSentenceDelimiter c)) s = true.
Proof.
  intros H. destruct (sentence_piece s H) as (p & Hp & -> & _).
  apply (all_units_substring _ _ p (trim_substring p)).
  destruct (split_class_spec isSentenceDelimiter text)
    as (pieces & seps & Hsplit & _ & _ & Hclean & _).
  rewrite Hsplit in Hp. exact (proj1 (Forall_forall _ _) Hclean p Hp).
Qed.

Lemma sentence_trimmed (s : string) :
  In s (extractSentences text) ->
  not_space (RegExp.head s) /\ not_space (last_unit s).
Proof.
  intros H. destruct (sentence_piece s H) as (p & _ & -> & _).
  destruct (trim_spec p) as (l & r & _ & _ & _ & Hhead & Hlast). now split.
Qed.

Lemma sentence_long (s : string) :
  In s (extractSentences text) -> 10 < String.length s.
Proof. intros H. now destruct (sentence_piece s H) as (p & _ & _ & Hlen). Qed.

Lemma sentence_nonempty (s : string) :
  In s (extractSentences text) -> exists c r, s = String c r.
Proof.
  intros H. apply sentence_long in H. destruct s as [|c r]; [simpl in H; lia | eauto].
Qed.

Lemma sentence_fixed (s : string) :
  In s (extractSentences text) -> extractSentences s = [s].
Proof.
  intros H. unfold extractSentences, JS.split_class.
  rewrite (split_go_clean _ _ (sentence_clean s H)).
  destruct (sentence_trimmed s H) as [Hhead Hlast].
  cbn [map]. unfold JS.trim. rewrite (trimStart_id s Hhead), (trimEnd_id s Hlast).
  cbn [filter]. apply sentence_long, Nat.ltb_lt in H. now rewrite H.
Qed.

End SentenceFacts.

(** X1.  Every sentence of the segmenter is a part of the text as it
    stands there, holds none of the units that end a sentence, neither
    starts nor ends with white space, and is longer than 10 units. *)
Theorem extractSentences_verbatim (text : string) :
  Forall (fun s =>
            substring_of s text
            /\ all_units (fun c => negb (isSentenceDelimiter c)) s = true
            /\ not_space (RegExp.head s) /\ not_space (last_unit s)
            /\ 10 < String.length s)
         (extractSentences text).
Proof.
  apply Forall_forall. intros s H.
  split; [exact (sentence_substring text s H)|].
  split; [exact (sentence_clean text s H)|].
  split; [apply (sentence_trimmed text s H)|].
  split; [apply (sentence_trimmed text s H) | now apply (sentence_long text)].
Qed.

(** X2.  Segmenting is idempotent on its results: a sentence that the
    segmenter found, given to the segmenter as a text, comes back as the one
    sentence of that text. *)
Theorem extractSentences_fixed_point (text : string) :
  Forall (fun s => extractSentences s = [s]) (extractSentences text).
Proof.
  apply Forall_forall. intros s H. now apply (sentence_fixed text).
Qed.

(** X3.  A keyword that a sentence contains in lower case is contained in
    the lower-cased text: what a per-sentence keyword test finds, the test
    of the whole text finds too. *)
Theorem sentence_keyword_in_text (text s k : string) :
  In s (extractSentences text) ->
  JS.includes (JS.toLowerCase s) k = true ->
  JS.includes (JS.toLowerCase text) k = true.
Proof.
  intros Hs Hk. apply includes_substring. apply includes_substring in Hk.
  apply (substring_of_trans _ _ _ Hk), substring_of_lower.
  exact (sentence_substring text s Hs).
Qed.

Lemma sentence_keyword_in_text_witness :
  JS.includes (JS.toLowerCase "Hi. The App is SLOW today! Bye.") "slow" = true.
Proof.
  apply (sentence_keyword_in_text _ "The App is SLOW today").
  - vm_compute. now left.
  - vm_compute. reflexivity.
Defined.

(** ** Tokens and root forms *)

Section TokenFacts.

Lemma interleave_units (P : ascii -> bool) (pieces seps : list string) :
  List.length pieces = S (List.length seps) ->
  all_units P (interleave pieces seps) = true ->
  Forall (fun p => all_units P p = true) pieces.
Proof.
  intros Hlen Hall. apply Forall_forall. intros p Hp.
  exact (all_units_substring P p _ (interleave_piece pieces seps p Hlen Hp) Hall).
Qed.

Lemma kept_unit (c : ascii) :
  (negb (isNoise c) && negb (JS.isWhiteSpace c))%bool = true -> isTokenUnit c = true.
Proof.
  unfold isNoise, isTokenUnit. rewrite negb_involutive.
  destruct (JS.isWhiteSpace c); [now rewrite andb_false_r|].
  now rewrite orb_false_r, andb_true_r.
Qed.

Lemma getTokens_units (text w : string) :
  In w (getTokens text) -> 2 < String.length w /\ all_units isTokenUnit w = true.
Proof.
  unfold getTokens. intros H. apply filter_In in H. destruct H as [H Hlen].
  split; [now apply Nat.ltb_lt|].
  set (kept := JS.filter_units (fun c => negb (isNoise c)) (JS.toLowerCase text)) in *.
  destruct (split_class_spec JS.isWhiteSpace kept)
    as (pieces & seps & Hsplit & Hlen' & Htext & Hclean & _).
  rewrite Hsplit in H.
  assert (Hkept : Forall (fun p => all_units (fun c => negb (isNoise c)) p = true) pieces).
  { apply (interleave_units _ pieces seps Hlen'). rewrite <- Htext. apply all_units_filter. }
  apply (all_units_impl _ _ _ kept_unit).
  apply all_units_both.
  - exact (proj1 (Forall_forall _ _) Hkept w H).
  - exact (proj1 (Forall_forall _ _) Hclean w H).
Qed.

Lemma replace_end_prefix (suf s : string) : exists r, s = JS.replace_end suf s ++ r.
Proof.
  destruct (endsWith s suf) eqn:E.
  - exists suf. now apply replace_end_match.
  - exists "". rewrite (replace_end_no_match suf s E). now rewrite append_nil_r.
Qed.

Lemma stripInTurn_prefix (sufs : list string) :
  forall w, exists r, w = stripInTurn sufs w ++ r.
Proof.
  induction sufs as [|suf sufs IH]; intros w; simpl.
  - exists "". now rewrite append_nil_r.
  - destruct (replace_end_prefix suf w) as [r1 H1].
    destruct (IH (JS.replace_end suf w)) as [r2 H2].
    exists (r2 ++ r1). rewrite H1 at 1. rewrite H2 at 1. now rewrite append_assoc.
Qed.

Lemma length_append (a b : string) :
  String.length (a ++ b) = String.length a + String.length b.
Proof. induction a as [|c a IH]; simpl; [reflexivity | now rewrite IH]. Qed.

End TokenFacts.

(** X4.  Every token of a text is longer than 2 units and is made of the
    units [a-z] and [0-9] only: no capitals, no white space, no
    punctuation reach the similarity computation. *)
Theorem getTokens_alphanumeric (text : string) :
  Forall (fun w => 2 < String.length w /\ all_units isTokenUnit w = true)
         (getTokens text).
Proof.
  apply Forall_forall. intros w H. now apply (getTokens_units text).
Qed.

(** X5.  The normalizer only cuts at the end: the token is its root form
    followed by what was removed, and the root form is never longer than
    the token. *)
Theorem normalizeToken_prefix (word : string) :
  exists removed,
    word = normalizeToken word ++ removed
    /\ String.length (normalizeToken word) <= String.length word.
Proof.
  destruct (stripInTurn_prefix suffixes word) as [r Hr].
  change (stripInTurn suffixes word) with (normalizeToken word) in Hr.
  exists r. split; [exact Hr|].
  assert (H : String.length word
              = String.length (normalizeToken word) + String.length r)
    by (rewrite <- length_append; now rewrite <- Hr).
  lia.
Qed.

(** ** The input panel *)

Section InputPanelFacts.

Lemma filter_map_swap {A B : Type} (f : A -> B) (p : B -> bool) (l : list A) :
  filter p (map f l) = map f (filter (fun x => p (f x)) l).
Proof.
  induction l as [|x l IH]; simpl; [reflexivity|].
  destruct (p (f x)); simpl; now rewrite IH.
Qed.

Variable cls : ascii -> bool.

(** A text whose last unit is not in the class: the split leaves no empty
    piece after the first one, and none at all when the scanner starts
    inside a run. *)
Let ends_outside (s : string) : Prop :=
  match last_unit s with
  | Some c => cls c = false
  | None => False
  end.

Lemma split_go_words (s : string) :
  ends_outside s ->
  Forall (fun p => p <> "") (JS.split_go cls s true)
  /\ Forall (fun p => p <> "") (tl (JS.split_go cls s false)).
Proof.
  unfold ends_outside. induction s as [|c s IH]; [contradiction|].
  intros Hend. cbn [JS.split_go].
  destruct s as [|c' s].
  - simpl in Hend. rewrite Hend. simpl. split; repeat constructor; discriminate.
  - change (last_unit (String c (String c' s))) with (last_unit (String c' s)) in Hend.
    destruct (IH Hend) as [IHin IHout].
    destruct (cls c).
    + split; [exact IHin | exact IHin].
    + destruct (JS.split_go cls (String c' s) false) as [|p ps].
      * split; repeat constructor; discriminate.
      * simpl in IHout. split; [constructor; [discriminate | exact IHout] | exact IHout].
Qed.

Lemma split_class_words (s : string) :
  ends_outside s ->
  match RegExp.head s with Some c => cls c = false | None => False end ->
  Forall (fun p => p <> "") (JS.split_class cls s).
Proof.
  intros Hend Hhead. destruct (split_go_words s Hend) as [_ Htail].
  unfold JS.split_class in *. destruct s as [|c s]; [contradiction|].
  simpl in Hhead. cbn [JS.split_go] in *. rewrite Hhead in *.
  destruct (JS.split_go cls s false) as [|p ps].
  - repeat constructor. discriminate.
  - simpl in Htail. constructor; [discriminate | exact Htail].
Qed.

End InputPanelFacts.

Lemma trim_edges (text : string) (c : ascii) (r : string) :
  JS.trim text = String c r ->
  JS.isWhiteSpace c = false
  /\ match last_unit (String c r) with
     | Some c' => JS.isWhiteSpace c' = false
     | None => False
     end.
Proof.
  intros H. destruct (trim_spec text) as (l & r' & _ & _ & _ & Hhead & Hlast).
  rewrite H in Hhead, Hlast. split; [exact Hhead|].
  destruct (last_unit (String c r)) eqn:E; [exact Hlast|].
  exfalso. clear -E. revert c E. induction r as [|c' r IH]; intros c E; [discriminate|].
  exact (IH c' E).
Qed.

(** X6.  The number of sentences that the input panel shows is the number
    of sentences that the engine will analyse for the same text. *)
Theorem sentencesDetected_agrees (text : string) :
  sentencesDetected text = List.length (extractSentences text).
Proof.
  unfold sentencesDetected, extractSentences.
  now rewrite filter_map_swap, length_map.
Qed.

(** X7.  The word count of the input panel is 0 exactly for a text of
    white space only; for any other text it is the number of pieces of the
    trimmed text between runs of white space, and each of these is a word:
    not empty and free of white space.  So the count is at least 1. *)
Theorem wordCount_counts_words (text : string) :
  match JS.trim text with
  | EmptyString => wordCount text = 0
  | String c r =>
      let words := JS.split_class JS.isWhiteSpace (String c r) in
      wordCount text = List.length words
      /\ 1 <= wordCount text
      /\ Forall (fun w => w <> ""
                          /\ all_units (fun u => negb (JS.isWhiteSpace u)) w = true)
                words
  end.
Proof.
  unfold wordCount. destruct (JS.trim text) as [|c r] eqn:E; [reflexivity|].
  cbn zeta. destruct (trim_edges text c r E) as [Hhead Hlast].
  pose proof (split_class_words JS.isWhiteSpace (String c r) Hlast Hhead) as Hwords.
  destruct (split_class_spec JS.isWhiteSpace (String c r))
    as (pieces & seps & Hsplit & Hlen & _ & Hclean & _).
  rewrite Hsplit in *. split; [reflexivity|]. split; [lia|].
  apply Forall_forall. intros w Hw. split.
  - exact (proj1 (Forall_forall _ _) Hwords w Hw).
  - exact (proj1 (Forall_forall _ _) Hclean w Hw).
Qed.

(** ** Clusters: seeds, members and the two extreme thresholds *)

Section ClusterShapeProofs.

Variable threshold : Q.

Lemma absorb_members (seed : string) :
  forall rest j assigned cluster,
  exists members,
    fst (absorb seed threshold rest j assigned cluster) = (cluster ++ members)%list
    /\ Forall (fun s => (threshold <= semanticSimilarity seed s)%Q) members.
Proof.
  induction rest as [|sj rest IH]; intros j assigned cluster; simpl.
  - exists []. split; [now rewrite app_nil_r | constructor].
  - destruct (has_index j assigned); [apply IH|].
    destruct (Qle_bool threshold (semanticSimilarity seed sj)) eqn:E; [|apply IH].
    destruct (IH (S j) (j :: assigned) (cluster ++ [sj])%list) as (members & Hm & Hall).
    exists (sj :: members). split.
    + rewrite Hm, <- app_assoc. reflexivity.
    + constructor; [now apply Qle_bool_iff | exact Hall].
Qed.

Lemma cluster_loop_around :
  forall rest i assigned clusters,
    Forall (around_seed threshold) clusters ->
    Forall (around_seed threshold) (cluster_loop threshold rest i assigned clusters).
Proof.
  induction rest as [|si rest IH]; intros i assigned clusters Hc; simpl; [exact Hc|].
  destruct (has_index i assigned); [now apply IH|].
  destruct (absorb_members si rest (S i) (i :: assigned) [si]) as (members & Hm & Hall).
  destruct (absorb si threshold rest (S i) (i :: assigned) [si]) as [cluster assigned'].
  simpl in Hm. subst cluster. apply IH, Forall_app. split; [exact Hc|].
  constructor; [exact Hall | constructor].
Qed.

(** With a threshold that the score always reaches, the inner loop takes
    every sentence that is still free. *)
Lemma absorb_all (seed : string) :
  (threshold <= 0)%Q ->
  forall rest j assigned cluster,
    (forall k, j <= k -> has_index k assigned = false) ->
    absorb seed threshold rest j assigned cluster
    = ((cluster ++ rest)%list, (rev (seq j (List.length rest)) ++ assigned)%list).
Proof.
  intros Hth. induction rest as [|sj rest IH]; intros j assigned cluster Hfree; simpl.
  - now rewrite app_nil_r.
  - rewrite (Hfree j (le_n j)).
    assert (E : Qle_bool threshold (semanticSimilarity seed sj) = true).
    { apply Qle_bool_iff. eapply Qle_trans; [exact Hth|].
      apply semanticSimilarity_range. }
    rewrite E, IH.
    + now rewrite <- !app_assoc.
    + intros k Hk. simpl. rewrite (Hfree k) by lia.
      destruct (Nat.eqb_spec k j); [lia | reflexivity].
Qed.

Lemma cluster_loop_skip :
  forall rest i assigned clusters,
    (forall k, i <= k < i + List.length rest -> has_index k assigned = true) ->
    cluster_loop threshold rest i assigned clusters = clusters.
Proof.
  induction rest as [|si rest IH]; intros i assigned clusters Hall; simpl; [reflexivity|].
  rewrite (Hall i) by (simpl; lia). apply IH.
  intros k Hk. apply Hall. simpl. lia.
Qed.

Lemma clusterSentences_low (sentences : list string) :
  (threshold <= 0)%Q ->
  clusterSentences sentences threshold
  = match sentences with [] => [] | _ :: _ => [sentences] end.
Proof.
  intros Hth. destruct sentences as [|s rest]; [reflexivity|].
  unfold clusterSentences. cbn [cluster_loop has_index existsb].
  rewrite (absorb_all s Hth).
  - apply cluster_loop_skip. intros k Hk.
    apply has_index_In, in_app_iff. left. rewrite <- in_rev. apply in_seq. lia.
  - intros k Hk. simpl. destruct (Nat.eqb_spec k 0); [lia | reflexivity].
Qed.

(** With a threshold above every score, the inner loop takes nothing. *)
Lemma absorb_none (seed : string) :
  (1 < threshold)%Q ->
  forall rest j assigned cluster,
    absorb seed threshold rest j assigned cluster = (cluster, assigned).
Proof.
  intros Hth. induction rest as [|sj rest IH]; intros j assigned cluster; simpl.
  - reflexivity.
  - destruct (has_index j assigned); [apply IH|].
    destruct (Qle_bool threshold (semanticSimilarity seed sj)) eqn:E; [|apply IH].
    exfalso. apply Qle_bool_iff in E.
    apply (Qlt_not_le _ _ Hth). eapply Qle_trans; [exact E|].
    apply semanticSimilarity_range.
Qed.

Lemma cluster_loop_singletons :
  (1 < threshold)%Q ->
  forall rest i assigned clusters,
    (forall k, i <= k -> has_index k assigned = false) ->
    cluster_loop threshold rest i assigned clusters
    = (clusters ++ map (fun s => [s]) rest)%list.
Proof.
  intros Hth. induction rest as [|si rest IH]; intros i assigned clusters Hfree; simpl.
  - now rewrite app_nil_r.
  - rewrite (Hfree i (le_n i)), (absorb_none si Hth), IH.
    + now rewrite <- app_assoc.
    + intros k Hk. simpl. rewrite (Hfree k) by lia.
      destruct (Nat.eqb_spec k i); [lia | reflexivity].
Qed.

End ClusterShapeProofs.

(** X8.  Every cluster is built around its seed: its first sentence is the
    seed, and each other sentence of the cluster reaches the threshold in
    similarity against the seed (nothing is said about two members against
    each other). *)
Theorem clusterSentences_around_seed (sentences : list string) (threshold : Q) :
  Forall (around_seed threshold) (clusterSentences sentences threshold).
Proof.
  apply cluster_loop_around. constructor.
Qed.

(** X9.  At a threshold of 0 or less every sentence joins the first one:
    the clusterer returns the whole input as its single cluster, in the
    order of the input (and no cluster for no sentence). *)
Theorem clusterSentences_threshold_zero (sentences : list string) (threshold : Q) :
  (threshold <= 0)%Q ->
  clusterSentences sentences threshold
  = match sentences with [] => [] | _ :: _ => [sentences] end.
Proof.
  apply clusterSentences_low.
Qed.

Lemma clusterSentences_threshold_zero_witness :
  clusterSentences ["the sky is blue"; "my cat sleeps"] 0
  = [["the sky is blue"; "my cat sleeps"]].
Proof.
  apply (clusterSentences_threshold_zero ["the sky is blue"; "my cat sleeps"] 0).
  discriminate.
Defined.

(** X10.  At a threshold above 1 no sentence joins another: the clusterer
    returns one cluster per sentence, in the order of the input, even for
    sentences that are equal. *)
Theorem clusterSentences_threshold_above_one (sentences : list string) (threshold : Q) :
  (1 < threshold)%Q ->
  clusterSentences sentences threshold = map (fun s => [s]) sentences.
Proof.
  intros Hth. unfold clusterSentences.
  now rewrite (cluster_loop_singletons threshold Hth).
Qed.

Lemma clusterSentences_threshold_above_one_witness :
  clusterSentences ["my cat sleeps"; "my cat sleeps"] (3 # 2)
  = [["my cat sleeps"]; ["my cat sleeps"]].
Proof.
  apply (clusterSentences_threshold_above_one ["my cat sleeps"; "my cat sleeps"] (3 # 2)).
  reflexivity.
Defined.

(** ** Emotional patterns *)

Section EmotionProofs.

Lemma Sentiment_eqb_eq (a b : Sentiment) : Sentiment_eqb a b = true <-> a = b.
Proof. destruct a, b; simpl; split; intros; congruence. Qed.

Lemma Sentiment_eqb_sym (a b : Sentiment) : Sentiment_eqb a b = Sentiment_eqb b a.
Proof. now destruct a, b. Qed.

Lemma tally_counts_from (k : Sentiment) (sentences : list string) :
  forall t,
    counts (fold_left tally_sentence sentences t) k
    = counts t k + List.length (filter (has_sentiment k) sentences).
Proof.
  induction sentences as [|s sentences IH]; intros t; simpl; [lia|].
  rewrite IH. unfold tally_sentence, has_sentiment. cbn [counts].
  rewrite (Sentiment_eqb_sym k). destruct (Sentiment_eqb (inferSentiment s) k); simpl; lia.
Qed.

Lemma tally_examples_from (k : Sentiment) (sentences : list string) :
  Forall (fun s => s <> "") sentences ->
  forall t,
    examples (fold_left tally_sentence sentences t) k
    = match examples t k with
      | Some (String c r) => Some (String c r)
      | _ => match hd_error (filter (has_sentiment k) sentences) with
             | Some s => Some s
             | None => examples t k
             end
      end.
Proof.
  induction 1 as [|s sentences Hs _ IH]; intros t; simpl.
  - now destruct (examples t k) as [[|c r]|].
  - rewrite IH. unfold tally_sentence, has_sentiment. cbn [examples].
    rewrite (Sentiment_eqb_sym k).
    destruct s as [|c0 r0]; [contradiction|].
    destruct (Sentiment_eqb (inferSentiment (String c0 r0)) k); simpl.
    + now destruct (examples t k) as [[|c r]|].
    + reflexivity.
Qed.

Lemma tally_spec (sentences : list string) (k : Sentiment) :
  Forall (fun s => s <> "") sentences ->
  counts (tally sentences) k = List.length (filter (has_sentiment k) sentences)
  /\ examples (tally sentences) k = hd_error (filter (has_sentiment k) sentences).
Proof.
  intros Hne. unfold tally. split.
  - now rewrite tally_counts_from.
  - rewrite (tally_examples_from k sentences Hne). cbn [examples].
    now destruct (hd_error (filter (has_sentiment k) sentences)).
Qed.

Lemma sentiments_cover (sentences : list string) :
  List.length (filter (has_sentiment negative) sentences)
  + List.length (filter (has_sentiment positive) sentences)
  + List.length (filter (has_sentiment neutral) sentences)
  = List.length sentences.
Proof.
  induction sentences as [|s sentences IH]; simpl; [reflexivity|].
  assert (E : forall k, has_sentiment k s = Sentiment_eqb (inferSentiment s) k)
    by reflexivity.
  rewrite !E. destruct (inferSentiment s); simpl; lia.
Qed.

Lemma hd_error_filter_In {A : Type} (p : A -> bool) (l : list A) (x : A) :
  hd_error (filter p l) = Some x -> In x l /\ p x = true.
Proof.
  intros H. apply filter_In. destruct (filter p l) as [|y l']; [discriminate|].
  inversion H. now left.
Qed.

Lemma or_else_nonempty (s d : string) : s <> "" -> JS.or_else (Some s) d = s.
Proof. destruct s; [contradiction | reflexivity]. Qed.

Lemma sentences_nonempty (text : string) :
  Forall (fun s => s <> "") (extractSentences text).
Proof.
  apply Forall_forall. intros s H.
  destruct (sentence_nonempty text s H) as (c & r & ->). discriminate.
Qed.

Lemma emotionalPatternOf_Some (sentences : list string) (e : Emotion.t) (f : EmotionalPattern) :
  Forall (fun s => s <> "") sentences ->
  emotionalPatternOf sentences e = Some f ->
  emotion f = Emotion.emotion e /\ In (trigger f) sentences.
Proof.
  intros Hne. unfold emotionalPatternOf.
  destruct (filter (matchesAny (Emotion.keywords e)) sentences) as [|m ms] eqn:E;
    [discriminate|].
  cbn [List.length Nat.eqb nth_error]. intros H. injection H as <-.
  cbn [emotion trigger].
  assert (Hm : In m sentences).
  { assert (Hin : In m (filter (matchesAny (Emotion.keywords e)) sentences))
      by (rewrite E; now left).
    now apply filter_In in Hin. }
  split; [reflexivity|].
  change (In (JS.or_else (Some m) "") sentences).
  rewrite or_else_nonempty; [exact Hm|].
  exact (proj1 (Forall_forall _ _) Hne m Hm).
Qed.

Lemma implicit_trigger (sentences : list string) (k : Sentiment) :
  Forall (fun s => s <> "") sentences ->
  (0 <? counts (tally sentences) k)%nat = true ->
  In (JS.or_else (examples (tally sentences) k) "") sentences.
Proof.
  intros Hne Hpos. unfold tally in *.
  rewrite tally_counts_from in Hpos. rewrite (tally_examples_from k sentences Hne).
  cbn [counts examples] in *. apply Nat.ltb_lt in Hpos.
  destruct (filter (has_sentiment k) sentences) as [|s l] eqn:E; [simpl in Hpos; lia|].
  cbn [hd_error].
  assert (Hs : In s sentences).
  { assert (Hin : In s (filter (has_sentiment k) sentences)) by (rewrite E; now left).
    now apply filter_In in Hin. }
  rewrite or_else_nonempty; [exact Hs|].
  exact (proj1 (Forall_forall _ _) Hne s Hs).
Qed.

Lemma implicitEmotions_triggers (sentences : list string) :
  Forall (fun s => s <> "") sentences ->
  Forall (fun f => In (trigger f) sentences) (implicitEmotions sentences).
Proof.
  intros Hne. unfold implicitEmotions. cbn zeta.
  apply Forall_app; split; [|apply Forall_app; split].
  - destruct (0 <? counts (tally sentences) negative)%nat eqn:E; constructor;
      [now apply implicit_trigger | constructor].
  - destruct (0 <? counts (tally sentences) positive)%nat eqn:E; constructor;
      [now apply implicit_trigger | constructor].
  - destruct (0 <? counts (tally sentences) neutral)%nat eqn:E; cbn [andb];
      [|constructor].
    destruct (_ && _)%bool; constructor; [now apply implicit_trigger | constructor].
Qed.

Lemma implicitEmotions_labels (sentences : list string) :
  NoDup (map emotion (implicitEmotions sentences)).
Proof.
  unfold implicitEmotions. cbn zeta.
  repeat match goal with
         | |- context [if ?c then _ else _] => destruct c
         end;
    cbn [app map emotion];
    repeat (constructor; [cbn [In]; intros H;
                          repeat match goal with
                                 | H : _ \/ _ |- _ => destruct H as [H | H]
                                 end; try contradiction; discriminate|]);
    constructor.
Qed.

Lemma implicitEmotions_nonempty (sentences : list string) :
  sentences <> [] -> implicitEmotions sentences <> [].
Proof.
  intros Hne. unfold implicitEmotions, tally. cbn zeta.
  rewrite !tally_counts_from. cbn [counts Nat.add].
  pose proof (sentiments_cover sentences) as Hcover.
  assert (Hlen : 0 < List.length sentences) by (destruct sentences; [contradiction | simpl; lia]).
  destruct (List.length (filter (has_sentiment negative) sentences)) as [|n] eqn:En;
    [|discriminate].
  destruct (List.length (filter (has_sentiment positive) sentences)) as [|p] eqn:Ep;
    [|discriminate].
  destruct (List.length (filter (has_sentiment neutral) sentences)) as [|u] eqn:Eu;
    [simpl in Hcover; lia | discriminate].
Qed.

Lemma table_labels_NoDup {A B : Type} (f : A -> option B) (g : B -> string)
      (h : A -> string) (l : list A) :
  (forall x y, f x = Some y -> g y = h x) ->
  NoDup (map h l) -> NoDup (map g (filter_Boolean (map f l))).
Proof.
  intros Hfg. induction l as [|x l IH]; simpl; intros Hnd; [constructor|].
  inversion Hnd as [|? ? Hx Hl]; subst.
  destruct (f x) as [y|] eqn:E; [|now apply IH].
  simpl. constructor; [|now apply IH].
  rewrite (Hfg x y E). intros Hin. apply Hx.
  apply in_map_iff in Hin. destruct Hin as (y' & Hy' & Hin).
  apply In_filter_Boolean in Hin. destruct Hin as (x' & Hx' & Hf).
  rewrite <- Hy', (Hfg x' y' Hf). now apply in_map.
Qed.

Lemma EMOTION_KEYWORDS_labels_distinct : NoDup (map Emotion.emotion EMOTION_KEYWORDS).
Proof.
  unfold EMOTION_KEYWORDS. cbn [map Emotion.emotion].
  repeat (constructor;
          [cbn [In]; intros H;
           repeat match goal with
                  | H : _ \/ _ |- _ => destruct H as [H | H]
                  end; try contradiction; discriminate|]).
  constructor.
Qed.

Lemma emotionalPatterns_facts (sentences : list string) :
  Forall (fun s => s <> "") sentences ->
  Forall (fun f => In (trigger f) sentences) (emotionalPatterns sentences)
  /\ NoDup (map emotion (emotionalPatterns sentences))
  /\ (sentences <> [] -> emotionalPatterns sentences <> []).
Proof.
  intros Hne. unfold emotionalPatterns.
  destruct (filter_Boolean (map (emotionalPatternOf sentences) EMOTION_KEYWORDS))
    as [|f0 fs] eqn:E.
  - cbn [List.length Nat.eqb app]. split; [now apply implicitEmotions_triggers|].
    split; [apply implicitEmotions_labels | apply implicitEmotions_nonempty].
  - cbn [List.length Nat.eqb]. rewrite <- E. split; [|split].
    + apply Forall_forall. intros f Hf. apply In_filter_Boolean in Hf.
      destruct Hf as (e & _ & Hf). now apply (emotionalPatternOf_Some sentences e).
    + apply (table_labels_NoDup _ _ Emotion.emotion);
        [|exact EMOTION_KEYWORDS_labels_distinct].
      intros e f Hf. unfold emotionalPatternOf in Hf.
      destruct (List.length _ =? 0)%nat; [discriminate|]. now inversion Hf.
    + intros _. rewrite E. discriminate.
Qed.

End EmotionProofs.

(** X11.  The loop that tallies the sentiments of the sentences counts,
    for each sentiment, the sentences that [inferSentiment] gives it, and
    keeps as its example the first of them in the order of the text. *)
Theorem tally_counts_and_examples (text : string) (k : Sentiment) :
  counts (tally (extractSentences text)) k
  = List.length (filter (has_sentiment k) (extractSentences text))
  /\ examples (tally (extractSentences text)) k
     = hd_error (filter (has_sentiment k) (extractSentences text)).
Proof.
  apply tally_spec, sentences_nonempty.
Qed.

(** X12.  The report has no emotional pattern exactly when the text has no
    sentence: as soon as there is one sentence, the explicit stage or the
    fallback reports something.  The labels of the patterns are pairwise
    different, and the trigger of every pattern is a sentence of the text
    (the empty-string default is never what is shown). *)
Theorem emotional_patterns_of_report (rawText : string) :
  exists r,
    analyzeUserFeedback rawText = Some r
    /\ match extractSentences rawText with
       | [] => emotional_patterns r = []
       | _ :: _ => emotional_patterns r <> []
       end
    /\ NoDup (map emotion (emotional_patterns r))
    /\ Forall (fun e => In (trigger e) (extractSentences rawText)) (emotional_patterns r).
Proof.
  destruct (analyzeUserFeedback_in_total IMPLICIT_THEME_PATTERNS rawText) as (r & Hr & _).
  exists r. split; [exact Hr|].
  destruct (analyzeUserFeedback_parts rawText r Hr) as (_ & -> & _).
  destruct (emotionalPatterns_facts _ (sentences_nonempty rawText)) as (Htrig & Hnd & Hne).
  split; [|split; assumption].
  destruct (extractSentences rawText) as [|s ss]; [reflexivity|].
  apply Hne. discriminate.
Qed.

(** ** Numerals: what is printed is what is parsed *)

Section NumeralProofs.

Lemma uint_fold_of_lu (d : Decimal.uint) :
  forall d', Z.of_N (DecimalPos.Unsigned.of_lu (Decimal.revapp d d'))
             = uint_fold d (Z.of_N (DecimalPos.Unsigned.of_lu d')).
Proof.
  induction d; intros d'; cbn [Decimal.revapp uint_fold]; [reflexivity|..];
    rewrite IHd; f_equal; cbn [DecimalPos.Unsigned.of_lu]; lia.
Qed.

Lemma uint_fold_to_uint (p : BinNums.positive) : uint_fold (Pos.to_uint p) 0 = Zpos p.
Proof.
  pose proof (uint_fold_of_lu (Pos.to_uint p) Decimal.Nil) as H.
  cbn [DecimalPos.Unsigned.of_lu Z.of_N] in H. rewrite <- H.
  change (Decimal.revapp (Pos.to_uint p) Decimal.Nil) with (Decimal.rev (Pos.to_uint p)).
  now rewrite <- DecimalPos.Unsigned.of_uint_alt, DecimalPos.Unsigned.of_to.
Qed.

Lemma digitsPrefix_uint (d : Decimal.uint) (rest : string) :
  forall acc,
    digitsPrefix 10 (NilEmpty.string_of_uint d ++ rest) acc
    = digitsPrefix 10 rest
        (match d with
         | Decimal.Nil => acc
         | _ => Some (uint_fold d (value_so_far acc))
         end).
Proof.
  induction d; intros acc; [reflexivity|..];
    cbn [NilEmpty.string_of_uint append digitsPrefix];
    match goal with
    | |- context [digitValue 10 ?c] =>
        let v := eval vm_compute in (digitValue 10 c) in
        change (digitValue 10 c) with v
    end;
    cbv iota; rewrite IHd; cbn [uint_fold value_so_far];
    destruct d; reflexivity.
Qed.

(** The numeral starts with a digit, and what follows the first unit is
    not [x]: [parseInt] reads it in radix 10 from its first unit. *)
Lemma string_of_uint_shape (d : Decimal.uint) (rest : string) :
  d <> Decimal.Nil ->
  exists c tail,
    NilEmpty.string_of_uint d ++ " " ++ rest = String c tail
    /\ JS.in_range 48 57 c = true
    /\ match tail with
       | String x _ => (Ascii.eqb x "x" || Ascii.eqb x "X")%bool = false
       | EmptyString => True
       end.
Proof.
  intros Hd.
  destruct d as [|d|d|d|d|d|d|d|d|d|d]; [contradiction|..];
    cbn [NilEmpty.string_of_uint append];
    (eexists; eexists; split; [reflexivity|]; split; [reflexivity|]);
    destruct d; reflexivity.
Qed.

Lemma parseInt_numeral (p : BinNums.positive) (rest : string) :
  parseInt (NilEmpty.string_of_uint (Pos.to_uint p) ++ " " ++ rest) = Some (Zpos p).
Proof.
  pose proof (digitsPrefix_uint (Pos.to_uint p) (" " ++ rest) None) as Hd.
  destruct (string_of_uint_shape (Pos.to_uint p) rest (DecimalPos.Unsigned.to_uint_nonnil p))
    as (c & tail & Hs & Hc & Hx).
  unfold parseInt. rewrite Hs in *.
  assert (Hws : JS.isWhiteSpace c = false).
  { revert Hc. clear. destruct c as [[] [] [] [] [] [] [] []]; intros H;
      try discriminate H; reflexivity. }
  assert (Hminus : Ascii.eqb c "-" = false /\ Ascii.eqb c "+" = false).
  { revert Hc. clear. destruct c as [[] [] [] [] [] [] [] []]; intros H;
      try discriminate H; split; reflexivity. }
  cbn [JS.trimStart]. rewrite Hws. destruct Hminus as [-> ->].
  assert (Hradix :
            match String c tail with
            | String c0 (String x r) =>
                if (Ascii.eqb c0 "0" && (Ascii.eqb x "x" || Ascii.eqb x "X"))%bool
                then (16%Z, r) else (10%Z, String c tail)
            | _ => (10%Z, String c tail)
            end = (10%Z, String c tail)).
  { destruct tail as [|x r]; [reflexivity|]. rewrite Hx. now rewrite andb_false_r. }
  rewrite Hradix, Hd.
  assert (Hval : match Pos.to_uint p with
                 | Decimal.Nil => None
                 | _ => Some (uint_fold (Pos.to_uint p) (value_so_far None))
                 end = Some (Zpos p)).
  { pose proof (DecimalPos.Unsigned.to_uint_nonnil p) as Hnn.
    pose proof (uint_fold_to_uint p) as Hv.
    destruct (Pos.to_uint p); [contradiction|..]; cbn [value_so_far]; now rewrite Hv. }
  rewrite Hval. cbn [append digitsPrefix].
  change (digitValue 10 " ") with (@None Z). cbv iota. reflexivity.
Qed.

Lemma countOf_mentions (n : Z) : (1 <= n)%Z -> countOf (mentions n) = n.
Proof.
  intros Hn. destruct n as [|p|p]; try lia.
  unfold countOf, mentions, JS.show_Z.
  cbn [Z.to_int NilEmpty.string_of_int].
  change (NilEmpty.string_of_uint (Pos.to_uint p)
          ++ " mention" ++ (if (1 <? Z.pos p)%Z then "s" else ""))
    with (NilEmpty.string_of_uint (Pos.to_uint p)
          ++ " " ++ ("mention" ++ (if (1 <? Z.pos p)%Z then "s" else ""))).
  rewrite parseInt_numeral. reflexivity.
Qed.

End NumeralProofs.

(** ** Pain points: when there are none, and what each carries *)

Section PainFacts.

Variable sentences : list string.
Variable threshold : Q.

Let clusters := clusterSentences sentences threshold.

Lemma totalMentions_bounds (keywords : list string) :
  let matching := filter (matchesAny keywords) sentences in
  (matching = [] -> totalMentions clusters matching = 0%Z)
  /\ (matching <> [] ->
      (Z.of_nat (List.length matching) <= totalMentions clusters matching)%Z
      /\ (1 <= totalMentions clusters matching)%Z).
Proof.
  intros matching. split.
  - intros ->. reflexivity.
  - intros Hne. unfold totalMentions, clusterBoost.
    assert (Hpos : 0 < List.length matching)
      by (destruct matching; [contradiction | simpl; lia]).
    apply Nat.ltb_lt in Hpos as Hb. rewrite Hb, fold_sum_lengths.
    pose proof (clusterBoost_nonneg (matchesAny keywords) sentences threshold) as Hboost.
    cbn zeta in Hboost. fold matching in Hboost. fold clusters in Hboost.
    cbn [Nat.add].
    match goal with |- context [(?b / 2)%Z] =>
      assert (Hhalf : (0 <= b / 2)%Z) by (apply Z.div_pos; lia) end.
    lia.
Qed.

Lemma painPointOf_shape (p : Pain.t) (f : PainPoint) :
  painPointOf sentences clusters p = Some f ->
  let matching := filter (matchesAny (Pain.keywords p)) sentences in
  matching <> []
  /\ issue f = Pain.issue p
  /\ quotes f = firstn 3 matching
  /\ exists n, (1 <= n)%Z /\ frequency f = mentions n /\ severity f = tier n.
Proof.
  unfold painPointOf. cbn zeta.
  destruct (totalMentions_bounds (Pain.keywords p)) as [Hnil Hsome].
  destruct (filter (matchesAny (Pain.keywords p)) sentences) as [|m ms] eqn:E.
  - rewrite (Hnil eq_refl). discriminate.
  - destruct (Hsome ltac:(discriminate)) as [_ Hone].
    destruct (totalMentions clusters (m :: ms) =? 0)%Z; [discriminate|].
    intros H. injection H as <-. cbn [issue quotes frequency severity].
    split; [discriminate|]. split; [reflexivity|]. split; [reflexivity|].
    eexists. split; [exact Hone|]. split; reflexivity.
Qed.

Lemma painPointOf_matched (p : Pain.t) :
  filter (matchesAny (Pain.keywords p)) sentences <> [] ->
  exists f, painPointOf sentences clusters p = Some f.
Proof.
  intros Hne. unfold painPointOf.
  destruct (totalMentions_bounds (Pain.keywords p)) as [_ Hsome].
  destruct (Hsome Hne) as [_ Hone].
  destruct (Z.eqb_spec (totalMentions clusters
                          (filter (matchesAny (Pain.keywords p)) sentences)) 0);
    [lia | eauto].
Qed.

End PainFacts.

Section PainReportFacts.

Lemma sort_nil {A : Type} (cmp : A -> A -> Z) (l : list A) : sort cmp l = [] -> l = [].
Proof.
  intros H. apply Permutation_nil. rewrite <- H. apply sort_perm.
Qed.

Lemma mapM_length {A B : Type} (f : A -> option B) (l : list A) (ys : list B) :
  mapM f l = Some ys -> List.length ys = List.length l.
Proof.
  revert ys. induction l as [|x l IH]; simpl; intros ys H.
  - now inversion H.
  - destruct (f x); [|discriminate]. destruct (mapM f l) as [ys'|]; [|discriminate].
    inversion H. simpl. now rewrite (IH ys' eq_refl).
Qed.

Lemma In_firstn {A : Type} (n : nat) (l : list A) (x : A) : In x (firstn n l) -> In x l.
Proof.
  intros H. rewrite <- (firstn_skipn n l). apply in_app_iff. now left.
Qed.

Lemma cluster_member (sentences : list string) (threshold : Q) (c : list string) (s : string) :
  In c (clusterSentences sentences threshold) -> In s c -> In s sentences.
Proof.
  intros Hc Hs. apply (Permutation_in _ (clusterSentences_concat threshold sentences)).
  apply in_concat. eauto.
Qed.

Lemma clusterSentences_nil (sentences : list string) (threshold : Q) :
  clusterSentences sentences threshold = [] -> sentences = [].
Proof.
  intros H. pose proof (clusterSentences_concat threshold sentences) as Hp.
  rewrite H in Hp. simpl in Hp. now apply Permutation_nil.
Qed.

(** The fallback, when the explicit stage found nothing. *)
Lemma painPoints_inferred (sentences : list string) (clusters : list (list string))
      (pain : list PainPoint) :
  explicitPainPoints sentences clusters = [] ->
  painPoints sentences clusters = Some pain ->
  let negativeSentences := filter (has_sentiment negative) sentences in
  (negativeSentences = [] /\ pain = [])
  \/ (negativeSentences <> []
      /\ mapM inferredIssue (firstn 3 (clusterSentences negativeSentences (25 # 100)))
         = Some pain).
Proof.
  intros Hexp. unfold painPoints, has_sentiment. rewrite Hexp.
  cbn [List.length Nat.eqb app]. cbn zeta.
  destruct (filter (fun s => Sentiment_eqb (inferSentiment s) negative) sentences)
    as [|s ss] eqn:E.
  - cbn. intros H. inversion H. now left.
  - cbn [List.length Nat.ltb Nat.leb]. intros H. right. split; [discriminate|].
    destruct (mapM inferredIssue _) as [inferred|]; [now inversion H | discriminate].
Qed.

Lemma inferredIssue_shape (c : list string) (f : PainPoint) :
  inferredIssue c = Some f ->
  c <> []
  /\ quotes f = firstn 2 c
  /\ exists n, (1 <= n)%Z /\ frequency f = mentions n /\ severity f = tier n.
Proof.
  destruct c as [|first rest]; [discriminate|].
  intros H. injection H as <-. cbn [quotes frequency severity].
  split; [discriminate|]. split; [reflexivity|].
  eexists. split; [|split; reflexivity]. cbn [List.length]. lia.
Qed.

Lemma firstn_few {A : Type} (n : nat) (l : list A) :
  l <> [] -> 0 < n -> firstn n l <> [] /\ List.length (firstn n l) <= n.
Proof.
  intros Hl Hn. split; [|apply firstn_le_length].
  destruct l; [contradiction|]. destruct n; [lia | discriminate].
Qed.

Lemma pain_point_shape (sentences : list string) (pain : list PainPoint) (f : PainPoint) :
  painPoints sentences (clusterSentences sentences default_threshold) = Some pain ->
  In f pain ->
  (exists n, (1 <= n)%Z /\ frequency f = mentions n /\ severity f = tier n)
  /\ quotes f <> []
  /\ List.length (quotes f) <= 3
  /\ Forall (fun q => In q sentences) (quotes f).
Proof.
  intros Hpain Hf.
  destruct (painPoints_cases _ _ _ Hpain) as [[_ Hexp] | [Hnil _]].
  - rewrite Hexp in Hf. unfold explicitPainPoints in Hf.
    apply (Permutation_in _ (sort_perm _ _)), In_filter_Boolean in Hf.
    destruct Hf as (p & _ & Hf).
    destruct (painPointOf_shape sentences default_threshold p f Hf)
      as (Hne & _ & Hq & Hn).
    split; [exact Hn|]. rewrite Hq.
    destruct (firstn_few 3 _ Hne ltac:(lia)) as [H1 H2].
    split; [exact H1|]. split; [exact H2|].
    apply Forall_forall. intros q Hin. apply In_firstn, filter_In in Hin. tauto.
  - destruct (painPoints_inferred _ _ _ Hnil Hpain) as [[_ ->] | [_ Hm]]; [contradiction|].
    destruct (mapM_In _ _ _ _ Hm Hf) as (c & Hc & Hfc).
    apply In_firstn in Hc.
    destruct (inferredIssue_shape c f Hfc) as (Hne & Hq & Hn).
    split; [exact Hn|]. rewrite Hq.
    destruct (firstn_few 2 _ Hne ltac:(lia)) as [H1 H2].
    split; [exact H1|]. split; [lia|].
    apply Forall_forall. intros q Hin. apply In_firstn in Hin.
    pose proof (cluster_member _ _ c q Hc Hin) as Hneg.
    apply filter_In in Hneg. tauto.
Qed.

Lemma quiet_eq (s : string) :
  quiet s = (negb (has_sentiment negative s)
             && forallb (fun p => negb (matchesAny (Pain.keywords p) s)) PAIN_KEYWORDS)%bool.
Proof. reflexivity. Qed.

Lemma quiet_sentences (sentences : list string) :
  forallb quiet sentences = true ->
  filter (has_sentiment negative) sentences = []
  /\ forall p, In p PAIN_KEYWORDS ->
               filter (matchesAny (Pain.keywords p)) sentences = [].
Proof.
  intros H. rewrite forallb_forall in H. split.
  - destruct (filter (has_sentiment negative) sentences) as [|s l] eqn:E; [reflexivity|].
    assert (Hs : In s (filter (has_sentiment negative) sentences)) by (rewrite E; now left).
    apply filter_In in Hs. destruct Hs as [Hs Hneg].
    specialize (H s Hs). rewrite quiet_eq in H. apply andb_true_iff in H.
    destruct H as [H _]. rewrite Hneg in H. discriminate.
  - intros p Hp.
    destruct (filter (matchesAny (Pain.keywords p)) sentences) as [|s l] eqn:E; [reflexivity|].
    assert (Hs : In s (filter (matchesAny (Pain.keywords p)) sentences))
      by (rewrite E; now left).
    apply filter_In in Hs. destruct Hs as [Hs Hm].
    specialize (H s Hs). rewrite quiet_eq in H. apply andb_true_iff in H. destruct H as [_ H].
    rewrite forallb_forall in H. specialize (H p Hp). rewrite Hm in H. discriminate.
Qed.

Lemma explicitPainPoints_eq (sentences : list string) (clusters : list (list string)) :
  explicitPainPoints sentences clusters
  = sort bySeverity (filter_Boolean (map (painPointOf sentences clusters) PAIN_KEYWORDS)).
Proof. reflexivity. Qed.

Lemma forallb_false {A : Type} (f : A -> bool) (l : list A) :
  forallb f l = false -> exists x, In x l /\ f x = false.
Proof.
  induction l as [|x l IH]; cbn [forallb]; [discriminate|].
  intros H. apply andb_false_iff in H. destruct H as [H | H].
  - exists x. split; [now left | exact H].
  - destruct (IH H) as (y & Hy & Hf). exists y. split; [now right | exact Hf].
Qed.

Lemma filter_none {A : Type} (f : A -> bool) (l : list A) (x : A) :
  filter f l = [] -> In x l -> f x = true -> False.
Proof.
  intros Hnil Hx Hf.
  assert (Hin : In x (filter f l)) by (apply filter_In; auto).
  rewrite Hnil in Hin. contradiction.
Qed.

Lemma explicitPainPoints_none (sentences : list string) (threshold : Q) :
  (forall p, In p PAIN_KEYWORDS ->
             filter (matchesAny (Pain.keywords p)) sentences = []) ->
  explicitPainPoints sentences (clusterSentences sentences threshold) = [].
Proof.
  intros Hkw. rewrite explicitPainPoints_eq.
  destruct (filter_Boolean
              (map (painPointOf sentences (clusterSentences sentences threshold))
                   PAIN_KEYWORDS)) as [|f l] eqn:E; [reflexivity|].
  exfalso.
  assert (Hf : In f (filter_Boolean
                       (map (painPointOf sentences (clusterSentences sentences threshold))
                            PAIN_KEYWORDS)))
    by (rewrite E; now left).
  apply In_filter_Boolean in Hf. destruct Hf as (p & Hp & Hf).
  destruct (painPointOf_shape sentences threshold p f Hf) as (Hne & _).
  apply Hne. now apply Hkw.
Qed.

Lemma explicitPainPoints_some (sentences : list string) (threshold : Q)
      (p : Pain.t) (s : string) :
  In p PAIN_KEYWORDS -> In s sentences -> matchesAny (Pain.keywords p) s = true ->
  explicitPainPoints sentences (clusterSentences sentences threshold) <> [].
Proof.
  intros Hp Hs Hm Hnil.
  destruct (painPointOf_matched sentences threshold p) as [f Hf].
  { intros Hnone. exact (filter_none _ _ s Hnone Hs Hm). }
  assert (Hin : In f (filter_Boolean
                        (map (painPointOf sentences (clusterSentences sentences threshold))
                             PAIN_KEYWORDS)))
    by (apply In_filter_Boolean; eauto).
  rewrite explicitPainPoints_eq in Hnil. apply sort_nil in Hnil.
  rewrite Hnil in Hin. contradiction.
Qed.

Lemma inferred_some (negativeSentences : list string) (pain : list PainPoint) :
  negativeSentences <> [] ->
  mapM inferredIssue (firstn 3 (clusterSentences negativeSentences (25 # 100))) = Some pain ->
  pain <> [].
Proof.
  intros Hnn Hm Hnil. subst pain. apply mapM_length in Hm. cbn [List.length] in Hm.
  symmetry in Hm. apply length_zero_iff_nil in Hm.
  assert (Hc : clusterSentences negativeSentences (25 # 100) <> []).
  { intros Hc. apply Hnn. exact (clusterSentences_nil _ _ Hc). }
  destruct (clusterSentences negativeSentences (25 # 100)); [contradiction | discriminate].
Qed.

Lemma painPoints_quiet (sentences : list string) (pain : list PainPoint) :
  painPoints sentences (clusterSentences sentences default_threshold) = Some pain ->
  (List.length pain =? 0)%nat = forallb quiet sentences.
Proof.
  intros Hpain. destruct (forallb quiet sentences) eqn:Hq.
  - destruct (quiet_sentences sentences Hq) as [Hneg Hkw].
    pose proof (explicitPainPoints_none sentences default_threshold Hkw) as Hexp.
    destruct (painPoints_inferred _ _ _ Hexp Hpain) as [[_ ->] | [Hne _]];
      [reflexivity | contradiction].
  - destruct (forallb_false _ _ Hq) as (s & Hs & Hqs).
    assert (Hne : pain <> []).
    { destruct (painPoints_cases _ _ _ Hpain) as [[Hne ->] | [Hnil _]]; [exact Hne|].
      rewrite quiet_eq in Hqs. apply andb_false_iff in Hqs. destruct Hqs as [Hneg | Hkw].
      - apply negb_false_iff in Hneg.
        destruct (painPoints_inferred _ _ _ Hnil Hpain) as [[Hnone _] | [Hnn Hm]].
        + exfalso. exact (filter_none _ _ s Hnone Hs Hneg).
        + exact (inferred_some _ _ Hnn Hm).
      - exfalso. destruct (forallb_false _ _ Hkw) as (p & Hp & Hm).
        apply negb_false_iff in Hm.
        exact (explicitPainPoints_some sentences default_threshold p s Hp Hs Hm Hnil). }
    destruct pain; [contradiction | reflexivity].
Qed.

End PainReportFacts.

(** X13.  The report has no pain point exactly when every sentence is
    quiet: not negative for [inferSentiment] and without any keyword of the
    pain table.  One sentence with a keyword, or one negative sentence, is
    enough for a pain point. *)
Theorem pain_points_empty_iff_quiet (rawText : string) :
  exists r,
    analyzeUserFeedback rawText = Some r
    /\ (List.length (pain_points r) =? 0)%nat = forallb quiet (extractSentences rawText).
Proof.
  destruct (analyzeUserFeedback_in_total IMPLICIT_THEME_PATTERNS rawText) as (r & Hr & _).
  exists r. split; [exact Hr|].
  destruct (analyzeUserFeedback_parts rawText r Hr) as (Hpain & _).
  now apply painPoints_quiet.
Qed.

(** X14.  Every pain point of a report carries evidence: between one and
    three quotes, each of them a sentence of the text. *)
Theorem pain_points_quote_sentences (rawText : string) :
  exists r,
    analyzeUserFeedback rawText = Some r
    /\ Forall (fun f =>
                 quotes f <> []
                 /\ List.length (quotes f) <= 3
                 /\ Forall (fun q => In q (extractSentences rawText)) (quotes f))
              (pain_points r).
Proof.
  destruct (analyzeUserFeedback_in_total IMPLICIT_THEME_PATTERNS rawText) as (r & Hr & _).
  exists r. split; [exact Hr|].
  destruct (analyzeUserFeedback_parts rawText r Hr) as (Hpain & _).
  apply Forall_forall. intros f Hf.
  now destruct (pain_point_shape _ _ f Hpain Hf) as (_ & H).
Qed.

(** X15.  The bar chart reads the mention count back from the frequency
    text of a pain point ([parseInt(p.frequency) || 1]).  For every pain
    point of a report this gives the count that the engine printed, which
    is at least 1 (so the default 1 never replaces a count), and the
    severity of the pain point is the tier of that count. *)
Theorem chart_count_is_mention_count (rawText : string) :
  exists r,
    analyzeUserFeedback rawText = Some r
    /\ map PainBar.fullName (painChartData r) = map issue (pain_points r)
    /\ map PainBar.count (painChartData r) = map (fun f => countOf (frequency f)) (pain_points r)
    /\ Forall (fun f =>
                 (1 <= countOf (frequency f))%Z
                 /\ frequency f = mentions (countOf (frequency f))
                 /\ severity f = tier (countOf (frequency f)))
              (pain_points r).
Proof.
  destruct (analyzeUserFeedback_in_total IMPLICIT_THEME_PATTERNS rawText) as (r & Hr & _).
  exists r. split; [exact Hr|].
  unfold painChartData. rewrite !map_map. cbn [PainBar.fullName PainBar.count].
  split; [reflexivity|]. split; [reflexivity|].
  destruct (analyzeUserFeedback_parts rawText r Hr) as (Hpain & _).
  apply Forall_forall. intros f Hf.
  destruct (pain_point_shape _ _ f Hpain Hf) as ((n & Hn & Hfreq & Hsev) & _).
  assert (Hc : countOf (frequency f) = n)
    by (rewrite Hfreq; exact (countOf_mentions n Hn)).
  rewrite Hc. repeat split; assumption.
Qed.

(** ** Themes, recommendations, personas, biases of a report *)

Section SynthesisFacts.

Lemma analyzeUserFeedback_synthesis (rawText : string) (r : AnalysisResult) :
  analyzeUserFeedback rawText = Some r ->
  let sentences := extractSentences rawText in
  fst (behavioralThemes IMPLICIT_THEME_PATTERNS (JS.toLowerCase rawText) sentences
         (clusterSentences sentences default_threshold))
  = Some (behavioral_themes r)
  /\ personas r
     = buildPersonas sentences (pain_points r)
         (countSentiment negative (emotional_patterns r))
         (countSentiment positive (emotional_patterns r))
  /\ recommendations r
     = buildRecommendations (pain_points r) (emotional_patterns r) (behavioral_themes r).
Proof.
  unfold analyzeUserFeedback, analyzeUserFeedback_in. cbn zeta.
  destruct (painPoints _ _) as [pain|]; [|discriminate].
  destruct (behavioralThemes _ _ _ _) as [[themes|] table']; [|discriminate].
  cbn [fst]. intros H. inversion H. now cbn.
Qed.

Lemma explicitThemes_length (lowerText : string) :
  List.length (explicitThemes lowerText) <= 4.
Proof.
  unfold explicitThemes.
  repeat match goal with
         | |- context [if ?c then _ else _] => destruct c
         end; simpl; lia.
Qed.

Lemma implicitThemes_extends (sentences existing : list string) :
  forall table themes,
  exists added,
    fst (implicitThemes table sentences existing themes) = (themes ++ added)%list
    /\ List.length added <= List.length table.
Proof.
  induction table as [|p table IH]; intros themes; simpl.
  - exists []. split; [now rewrite app_nil_r | simpl; lia].
  - destruct (JS.mem (ImplicitTheme.theme p) existing).
    + destruct (IH themes) as (added & Ha & Hl).
      destruct (implicitThemes table sentences existing themes) as [themes' rest].
      exists added. simpl in *. split; [exact Ha | lia].
    + destruct (countMatches (ImplicitTheme.patterns p) sentences) as [n patterns'].
      destruct (0 <? n)%nat.
      * match goal with |- context [implicitThemes table sentences existing ?t] =>
          destruct (IH t) as (added & Ha & Hl);
          destruct (implicitThemes table sentences existing t) as [themes' rest]
        end.
        simpl in *. eexists. rewrite Ha, <- app_assoc. split; [reflexivity|].
        simpl. lia.
      * destruct (IH themes) as (added & Ha & Hl).
        destruct (implicitThemes table sentences existing themes) as [themes' rest].
        exists added. simpl in *. split; [exact Ha | lia].
Qed.

Lemma fallbackLoop_extends (themes : list BehavioralTheme) (existing : list string) :
  exists added,
    fallbackLoop themes existing = (themes ++ added)%list
    /\ List.length (fallbackLoop themes existing) <= Nat.max 2 (List.length themes).
Proof.
  funelim (fallbackLoop themes existing).
  - exists []. split; [now rewrite app_nil_r | apply Nat.le_max_r].
  - destruct H as (added & Ha & Hl). exists (fb :: added). split.
    + rewrite Ha, <- app_assoc. reflexivity.
    + etransitivity; [exact Hl|]. rewrite length_app. cbn [List.length].
      apply Nat.max_lub; [apply Nat.le_max_l|].
      transitivity 2; [lia | apply Nat.le_max_l].
  - exists []. split; [now rewrite app_nil_r | apply Nat.le_max_r].
Qed.

Lemma behavioralThemes_shape (table : list ImplicitTheme.t) (lowerText : string)
      (sentences : list string) (clusters : list (list string))
      (themes : list BehavioralTheme) :
  fst (behavioralThemes table lowerText sentences clusters) = Some themes ->
  (exists rest, themes = (explicitThemes lowerText ++ rest)%list)
  /\ List.length themes <= 4 + List.length table.
Proof.
  unfold behavioralThemes.
  destruct (implicitThemes_extends sentences
              (JS.Set_of (map theme (explicitThemes lowerText))) table
              (explicitThemes lowerText)) as (added & Ha & Hl).
  destruct (implicitThemes table sentences _ _) as [found table'].
  cbn [fst] in Ha. subst found.
  pose proof (explicitThemes_length lowerText) as H4.
  destruct (List.length (explicitThemes lowerText ++ added) <? 2)%nat eqn:E.
  - destruct (mapM recurringTheme _) as [recurring|] eqn:Em; [|discriminate].
    cbn [fst]. intros H. inversion H. clear H.
    apply mapM_length in Em.
    pose proof (firstn_le_length (2 - List.length (explicitThemes lowerText ++ added))
                  (sort bySize (filter (fun c => (2 <=? List.length c)%nat) clusters)))
      as Hfew.
    rewrite <- Em in Hfew.
    destruct (fallbackLoop_extends ((explicitThemes lowerText ++ added) ++ recurring)
                (JS.Set_of (map theme (explicitThemes lowerText)))) as (more & Hm & Hmax).
    split.
    + exists (added ++ recurring ++ more)%list. rewrite Hm. now rewrite <- !app_assoc.
    + apply Nat.ltb_lt in E. rewrite length_app in Hmax. lia.
  - cbn [fst]. intros H. inversion H. subst themes. split; [now exists added|].
    rewrite length_app. lia.
Qed.

Lemma fold_pushes {A : Type} (add : list Recommendation -> A -> list Recommendation) :
  pushes_one add ->
  forall l acc,
  exists added,
    fold_left add l acc = (acc ++ added)%list /\ List.length added <= List.length l.
Proof.
  intros Hadd. induction l as [|x l IH]; intros acc; simpl.
  - exists []. split; [now rewrite app_nil_r | simpl; lia].
  - destruct (Hadd acc x) as [-> | [y ->]].
    + destruct (IH acc) as (added & Ha & Hl). exists added. split; [exact Ha | lia].
    + destruct (IH (acc ++ [y])%list) as (added & Ha & Hl).
      exists (y :: added). rewrite Ha, <- app_assoc. split; [reflexivity | simpl; lia].
Qed.

Lemma addEmotionRecommendation_pushes : pushes_one addEmotionRecommendation.
Proof.
  intros acc e. unfold addEmotionRecommendation.
  destruct (negb _); [right; eauto | now left].
Qed.

Lemma addThemeRecommendation_pushes : pushes_one addThemeRecommendation.
Proof.
  intros acc t. unfold addThemeRecommendation.
  destruct (negb _); [right; eauto | now left].
Qed.

Lemma addDefault_pushes : pushes_one addDefault.
Proof.
  intros acc d. unfold addDefault.
  destruct (_ && _)%bool; [right; eauto | now left].
Qed.

Lemma mapi_from_pain (pain : list PainPoint) :
  forall i,
    List.length (mapi_from i painRecommendation pain) = List.length pain
    /\ map category (mapi_from i painRecommendation pain) = map issue pain.
Proof.
  induction pain as [|p pain IH]; intros i; simpl; [auto|].
  destruct (IH (S i)) as [Hl Hc]. now rewrite Hl, Hc.
Qed.

Lemma pain_priorities (pain : list PainPoint) :
  map priority (mapi_from 0 painRecommendation (firstn 3 pain))
  = firstn (List.length (firstn 3 pain)) [high; medium; low].
Proof.
  destruct pain as [|a [|b [|c rest]]]; reflexivity.
Qed.

Lemma pain_first (pain : list PainPoint) (tail : list Recommendation) :
  let top := firstn 3 pain in
  let fromPain := mapi_from 0 painRecommendation top in
  firstn (List.length top) (map category (fromPain ++ tail)) = map issue top
  /\ firstn (List.length top) (map priority (fromPain ++ tail))
     = firstn (List.length top) [high; medium; low].
Proof.
  destruct pain as [|a [|b [|c rest]]]; split; reflexivity.
Qed.

Lemma buildRecommendations_shape (pain : list PainPoint)
      (emotions : list EmotionalPattern) (themes : list BehavioralTheme) :
  let top := firstn 3 pain in
  let recs := buildRecommendations pain emotions themes in
  List.length recs <= 7
  /\ firstn (List.length top) (map category recs) = map issue top
  /\ firstn (List.length top) (map priority recs)
     = firstn (List.length top) [high; medium; low].
Proof.
  cbn zeta. unfold buildRecommendations.
  set (fromPain := mapi_from 0 painRecommendation (firstn 3 pain)).
  destruct (mapi_from_pain (firstn 3 pain) 0) as [Hlen Hcat]. fold fromPain in Hlen, Hcat.
  pose proof (pain_priorities pain) as Hprio. fold fromPain in Hprio.
  pose proof (firstn_le_length 3 pain) as H3.
  match goal with |- context [fold_left addEmotionRecommendation ?l fromPain] =>
    destruct (fold_pushes _ addEmotionRecommendation_pushes l fromPain)
      as (e & He & Hel);
    pose proof (firstn_le_length 2 (filter (fun e => (Sentiment_eqb (sentiment e) negative
                            && negb (String.eqb (intensity e) "Low"))%bool) emotions)) as He2
  end.
  rewrite He.
  destruct (fold_pushes _ addThemeRecommendation_pushes (firstn 2 themes)
              (fromPain ++ e)%list) as (t & Ht & Htl).
  pose proof (firstn_le_length 2 themes) as Ht2.
  rewrite Ht.
  destruct (fold_pushes _ addDefault_pushes defaults ((fromPain ++ e) ++ t)%list)
    as (d & Hd & Hdl).
  pose proof (pain_first pain) as Hfirst. fold fromPain in Hfirst.
  destruct (List.length ((fromPain ++ e) ++ t) <? 2)%nat eqn:E.
  - rewrite Hd. rewrite <- !app_assoc. split; [|apply Hfirst].
    apply Nat.ltb_lt in E. rewrite !length_app in *. simpl in Hdl. lia.
  - rewrite <- !app_assoc. split; [|apply Hfirst].
    rewrite !length_app in *. lia.
Qed.

Lemma explicitBiases_length (lowerText : string) :
  List.length (explicitBiases lowerText) <= 6.
Proof.
  unfold explicitBiases.
  assert (H : forall {A B : Type} (l : list (option B)), List.length (filter_Boolean l) <= List.length l).
  { intros A B l. induction l as [|[y|] l IH]; simpl; lia. }
  etransitivity; [apply (H Bias.t)|]. rewrite length_map. reflexivity.
Qed.

Lemma cognitiveBiases_labels (lowerText : string) (sentences : list string) :
  NoDup (map bias (cognitiveBiases lowerText sentences))
  /\ List.length (cognitiveBiases lowerText sentences) <= 6.
Proof.
  unfold cognitiveBiases.
  pose proof (explicitBiases_length lowerText) as Hlen.
  destruct (explicitBiases lowerText) as [|f fs] eqn:E.
  - cbn [List.length Nat.eqb app]. unfold implicitBiases. cbn zeta.
    repeat match goal with
           | |- context [if ?c then _ else _] => destruct c
           end;
      cbn [app map bias List.length];
      (split; [|lia]);
      repeat (constructor; [cbn [In]; intros H;
                            repeat match goal with
                                   | H : _ \/ _ |- _ => destruct H as [H | H]
                                   end; try contradiction; discriminate|]);
      constructor.
  - cbn [List.length Nat.eqb]. split; [rewrite <- E | exact Hlen].
    apply (table_labels_NoDup _ _ Bias.bias); [|exact BIAS_PATTERNS_labels_distinct].
    intros b g Hg. now destruct (biasOf_Some _ _ _ Hg).
Qed.

Lemma countSentiment_cover (emotions : list EmotionalPattern) :
  countSentiment positive emotions + countSentiment negative emotions
  + countSentiment neutral emotions = List.length emotions.
Proof.
  unfold countSentiment. induction emotions as [|e emotions IH]; simpl; [reflexivity|].
  destruct (sentiment e); simpl; lia.
Qed.

End SynthesisFacts.

(** X16.  The behavioral themes of a report start with the themes of the
    explicit stage, in the order of its four tests, and there are at least
    2 and at most 12 of them (4 explicit ones and the 8 of the table of
    implicit themes). *)
Theorem behavioral_themes_of_report (rawText : string) :
  exists r rest,
    analyzeUserFeedback rawText = Some r
    /\ behavioral_themes r = (explicitThemes (JS.toLowerCase rawText) ++ rest)%list
    /\ 2 <= List.length (behavioral_themes r) <= 12.
Proof.
  destruct (analyzeUserFeedback_in_total IMPLICIT_THEME_PATTERNS rawText)
    as (r & Hr & H2 & _).
  destruct (analyzeUserFeedback_synthesis rawText r Hr) as (Hthemes & _).
  destruct (behavioralThemes_shape _ _ _ _ _ Hthemes) as ([rest Hrest] & Hmax).
  exists r, rest. split; [exact Hr|]. split; [exact Hrest|].
  split; [exact H2 | exact Hmax].
Qed.

(** X17.  A report has between 2 and 7 recommendations.  The first ones
    are the first pain points of the report, up to three, in their order:
    the categories are the issues, and the priorities are high, medium and
    low by position, whatever the severity of the pain point. *)
Theorem recommendations_of_report (rawText : string) :
  exists r,
    analyzeUserFeedback rawText = Some r
    /\ 2 <= List.length (recommendations r) <= 7
    /\ firstn (List.length (firstn 3 (pain_points r))) (map category (recommendations r))
       = map issue (firstn 3 (pain_points r))
    /\ firstn (List.length (firstn 3 (pain_points r))) (map priority (recommendations r))
       = firstn (List.length (firstn 3 (pain_points r))) [high; medium; low].
Proof.
  destruct (analyzeUserFeedback_in_total IMPLICIT_THEME_PATTERNS rawText)
    as (r & Hr & _ & H2 & _).
  destruct (analyzeUserFeedback_synthesis rawText r Hr) as (_ & _ & Hrecs).
  exists r. split; [exact Hr|].
  pose proof (buildRecommendations_shape (pain_points r) (emotional_patterns r)
                (behavioral_themes r)) as H.
  cbn zeta in H. rewrite <- Hrecs in H. destruct H as (H7 & Hc & Hp).
  split; [split; assumption|]. split; assumption.
Qed.

(** X18.  The quotes of the two personas are sentences of the text as soon
    as the text has one: the first sentence for the first persona and the
    sentence at the middle index for the second, an index that is always
    within the list.  The two fixed quotes are used only for a text
    without sentences. *)
Theorem persona_quotes_of_report (rawText : string) :
  exists r,
    analyzeUserFeedback rawText = Some r
    /\ match extractSentences rawText with
       | [] =>
           map quote (personas r)
           = ["I use this daily but there's room to grow.";
              "I just want it to be straightforward."]
       | first :: _ =>
           exists middle,
             nth_error (extractSentences rawText)
                       (List.length (extractSentences rawText) / 2) = Some middle
             /\ map quote (personas r) = [first; middle]
       end.
Proof.
  destruct (analyzeUserFeedback_in_total IMPLICIT_THEME_PATTERNS rawText) as (r & Hr & _).
  destruct (analyzeUserFeedback_synthesis rawText r Hr) as (_ & Hpersonas & _).
  exists r. split; [exact Hr|]. rewrite Hpersonas. unfold buildPersonas. cbn [map quote].
  pose proof (sentences_nonempty rawText) as Hne.
  destruct (extractSentences rawText) as [|first rest] eqn:E; [reflexivity|].
  assert (Hmid : List.length (first :: rest) / 2 < List.length (first :: rest)).
  { apply Nat.div_lt; simpl; lia. }
  destruct (nth_error (first :: rest) (List.length (first :: rest) / 2)) as [middle|] eqn:Em.
  - exists middle. split; [reflexivity|].
    assert (Hin : In middle (first :: rest)) by (eapply nth_error_In; exact Em).
    cbn [nth_error]. rewrite !or_else_nonempty; [reflexivity|..].
    + exact (proj1 (Forall_forall _ _) Hne middle Hin).
    + exact (proj1 (Forall_forall _ _) Hne first (or_introl eq_refl)).
  - apply nth_error_None in Em. lia.
Qed.

(** X19.  The cognitive biases of a report have pairwise different labels,
    and there are at most 6 of them. *)
Theorem cognitive_biases_of_report (rawText : string) :
  exists r,
    analyzeUserFeedback rawText = Some r
    /\ NoDup (map bias (cognitive_biases r))
    /\ List.length (cognitive_biases r) <= 6.
Proof.
  destruct (analyzeUserFeedback_in_total IMPLICIT_THEME_PATTERNS rawText) as (r & Hr & _).
  exists r. split; [exact Hr|].
  destruct (analyzeUserFeedback_parts rawText r Hr) as (_ & _ & ->).
  apply cognitiveBiases_labels.
Qed.

(** X20.  The slices of the sentiment pie: every slice that is drawn has a
    positive value, and the values add up to the number of emotional
    patterns of the result, so every pattern is in exactly one slice. *)
Theorem sentimentPieData_covers (result : AnalysisResult) :
  Forall (fun d => 0 < PieSlice.value d) (sentimentPieData result)
  /\ list_sum (map PieSlice.value (sentimentPieData result))
     = List.length (emotional_patterns result).
Proof.
  unfold sentimentPieData.
  pose proof (countSentiment_cover (emotional_patterns result)) as Hcover.
  cbn [filter PieSlice.value].
  destruct (countSentiment positive (emotional_patterns result)) as [|p];
    destruct (countSentiment negative (emotional_patterns result)) as [|n];
    destruct (countSentiment neutral (emotional_patterns result)) as [|u];
    cbn [Nat.ltb Nat.leb map list_sum PieSlice.value fold_right];
    (split; [repeat (apply Forall_cons; [simpl; lia|]); apply Forall_nil
           | simpl in *; lia]).
Qed.

(** ** The first version of the engine *)

Section LegacyFacts.

Lemma Legacy_parts (rawText : string) :
  let r := Legacy.analyzeUserFeedback rawText in
  pain_points r = Legacy.painPoints (extractSentences rawText)
  /\ emotional_patterns r = Legacy.emotionalPatterns (extractSentences rawText)
  /\ behavioral_themes r = Legacy.behavioralThemes (JS.toLowerCase rawText)
  /\ cognitive_biases r
     = Legacy.cognitiveBiases (extractSentences rawText) (JS.toLowerCase rawText)
  /\ List.length (personas r) = 2
  /\ recommendations r = Legacy.buildRecommendations (pain_points r).
Proof. cbn zeta. repeat split. Qed.

Lemma filter_Boolean_length {A : Type} (l : list (option A)) :
  List.length (filter_Boolean l) <= List.length l.
Proof. induction l as [|[y|] l IH]; simpl; lia. Qed.




Lemma Legacy_painPointOf_Some (sentences : list string) (e : Pain.t) (p : PainPoint) :
  Legacy.painPointOf sentences e = Some p ->
  let matching := filter (matchesAny (Pain.keywords e)) sentences in
  matching <> []
  /\ issue p = Pain.issue e
  /\ frequency p = mentions (Z.of_nat (List.length matching))
  /\ severity p = tier (Z.of_nat (List.length matching))
  /\ quotes p = firstn 2 matching.
Proof.
  unfold Legacy.painPointOf. cbn zeta.
  destruct (filter (matchesAny (Pain.keywords e)) sentences) as [|m ms] eqn:E.
  - discriminate.
  - cbn [List.length Nat.eqb]. intros H. injection H as <-.
    cbn [issue frequency severity quotes]. repeat split. discriminate.
Qed.

Lemma Legacy_PAIN_KEYWORDS_issues_distinct :
  NoDup (map Pain.issue Legacy.PAIN_KEYWORDS).
Proof.
  cbn [map Legacy.PAIN_KEYWORDS Pain.issue].
  repeat (constructor; [cbn [In]; intros H;
                        repeat match goal with
                               | H : _ \/ _ |- _ => destruct H as [H | H]
                               end; try contradiction; discriminate|]).
  constructor.
Qed.

Lemma Legacy_biasOf_Some (sentences : list string) (lowerText : string)
      (b : Bias.t) (c : CognitiveBias) :
  Legacy.biasOf sentences lowerText b = Some c ->
  (exists s k, In s sentences /\ In k (Bias.keywords b)
               /\ JS.includes (JS.toLowerCase s) k = true)
  /\ bias c = Bias.bias b
  /\ impact c = Bias.impact b
  /\ evidence c
     = "Keywords detected: "
       ++ JS.join ", " (filter (fun k => JS.includes lowerText k) (Bias.keywords b)).
Proof.
  unfold Legacy.biasOf. cbn zeta.
  destruct (existsb (fun s => matchesAny (Bias.keywords b) s) sentences) eqn:E;
    cbn [negb]; [|discriminate].
  intros H. injection H as <-. cbn [bias impact evidence].
  split; [|repeat split].
  apply existsb_exists in E. destruct E as (s & Hs & Hm).
  unfold matchesAny in Hm. apply existsb_exists in Hm. destruct Hm as (k & Hk & Hi).
  now exists s, k.
Qed.

Lemma Legacy_recommendations_length (pain : list PainPoint) :
  List.length (Legacy.buildRecommendations pain)
  = Nat.max 1 (Nat.min 3 (List.length pain)).
Proof.
  destruct pain as [|a [|b [|c rest]]]; reflexivity.
Qed.

Lemma Legacy_themes_length (lowerText : string) :
  1 <= List.length (Legacy.behavioralThemes lowerText) <= 4.
Proof.
  unfold Legacy.behavioralThemes. cbn zeta.
  pose proof (explicitThemes_length lowerText) as H4.
  destruct (explicitThemes lowerText) as [|t ts].
  - cbn. lia.
  - cbn [List.length Nat.eqb] in *. lia.
Qed.

End LegacyFacts.


(** X22.  In the first version a bias is found in the sentences and its
    evidence is collected from the whole text.  The evidence of a reported
    bias is never an empty list: the keyword that a sentence contains is
    contained in the text, so it is among the keywords listed. *)
Theorem Legacy_bias_evidence (rawText : string) (c : CognitiveBias) :
  In c (cognitive_biases (Legacy.analyzeUserFeedback rawText)) ->
  exists b s k,
    In b Legacy.BIAS_PATTERNS
    /\ bias c = Bias.bias b
    /\ In s (Legacy.extractSentences rawText)
    /\ JS.includes (JS.toLowerCase s) k = true
    /\ In k (filter (fun k => JS.includes (JS.toLowerCase rawText) k) (Bias.keywords b))
    /\ evidence c
       = "Keywords detected: "
         ++ JS.join ", " (filter (fun k => JS.includes (JS.toLowerCase rawText) k)
                                 (Bias.keywords b)).
Proof.
  intros Hc. destruct (Legacy_parts rawText) as (_ & _ & _ & Hb & _).
  rewrite Hb in Hc. unfold Legacy.cognitiveBiases in Hc.
  apply In_filter_Boolean in Hc. destruct Hc as (b & Hin & Hsome).
  destruct (Legacy_biasOf_Some _ _ _ _ Hsome) as ((s & k & Hs & Hk & Hi) & Hbias & _ & Hev).
  exists b, s, k. repeat split; try assumption.
  apply filter_In. split; [exact Hk|].
  apply includes_substring. apply includes_substring in Hi.
  apply (substring_of_trans _ _ _ Hi), substring_of_lower.
  exact (sentence_substring rawText s Hs).
Qed.

Lemma Legacy_bias_evidence_witness :
  exists b s k,
    In b Legacy.BIAS_PATTERNS
    /\ "Frequency Illusion" = Bias.bias b
    /\ In s (Legacy.extractSentences "The page ALWAYS crashes. It never loads on my phone")
    /\ JS.includes (JS.toLowerCase s) k = true
    /\ In k (filter (fun k => JS.includes
                                (JS.toLowerCase
                                   "The page ALWAYS crashes. It never loads on my phone") k)
                    (Bias.keywords b))
    /\ "Keywords detected: always, never"
       = "Keywords detected: "
         ++ JS.join ", "
              (filter (fun k => JS.includes
                                  (JS.toLowerCase
                                     "The page ALWAYS crashes. It never loads on my phone") k)
                      (Bias.keywords b)).
Proof.
  apply (Legacy_bias_evidence "The page ALWAYS crashes. It never loads on my phone"
           {| bias := "Frequency Illusion";
              evidence := "Keywords detected: always, never";
              impact := "Users may overstate issue frequency" |}).
  vm_compute. now left.
Defined.

(** X23.  The sizes of a report of the first version: at most 8 pain
    points, 6 emotional patterns and 5 biases, from 1 to 4 behavioral
    themes, exactly 2 personas, and as many recommendations as pain
    points, but at least 1 and at most 3. *)
Theorem Legacy_report_counts (rawText : string) :
  let r := Legacy.analyzeUserFeedback rawText in
  List.length (pain_points r) <= 8
  /\ List.length (emotional_patterns r) <= 6
  /\ 1 <= List.length (behavioral_themes r) <= 4
  /\ List.length (cognitive_biases r) <= 5
  /\ List.length (personas r) = 2
  /\ List.length (recommendations r) = Nat.max 1 (Nat.min 3 (List.length (pain_points r))).
Proof.
  cbn zeta. destruct (Legacy_parts rawText) as (Hp & He & Ht & Hb & H2 & Hr).
  rewrite Hr, Ht, Hb, He. rewrite Hp at 1.
  split; [|split; [|split; [|split; [|split]]]].
  - unfold Legacy.painPoints.
    rewrite (Permutation_length (sort_perm _ _)).
    etransitivity; [apply filter_Boolean_length|]. rewrite length_map. reflexivity.
  - unfold Legacy.emotionalPatterns.
    etransitivity; [apply filter_Boolean_length|]. rewrite length_map. reflexivity.
  - apply Legacy_themes_length.
  - unfold Legacy.cognitiveBiases.
    etransitivity; [apply filter_Boolean_length|]. rewrite length_map. reflexivity.
  - exact H2.
  - apply Legacy_recommendations_length.
Qed.

(** X24.  Every pain point of the first version stands for one entry of
    its table and for the sentences of the text that contain a keyword of
    the entry: there is at least one such sentence, the number that the
    chart reads back from the frequency is their number, the severity is
    high exactly from three of them on, and the quotes are the first two.
    No issue is reported twice. *)
Theorem Legacy_pain_point_evidence (rawText : string) :
  let r := Legacy.analyzeUserFeedback rawText in
  NoDup (map issue (pain_points r))
  /\ forall p, In p (pain_points r) ->
       exists e,
         In e Legacy.PAIN_KEYWORDS
         /\ issue p = Pain.issue e
         /\ let matching :=
              filter (matchesAny (Pain.keywords e)) (Legacy.extractSentences rawText) in
            1 <= List.length matching
            /\ countOf (frequency p) = Z.of_nat (List.length matching)
            /\ (isHigh p = true <-> 3 <= List.length matching)
            /\ quotes p = firstn 2 matching.
Proof.
  cbn zeta. destruct (Legacy_parts rawText) as (-> & _).
  unfold Legacy.painPoints. split.
  - apply (Permutation_NoDup (l := map issue
             (filter_Boolean (map (Legacy.painPointOf (extractSentences rawText))
                                  Legacy.PAIN_KEYWORDS)))).
    + apply Permutation_map, Permutation_sym, sort_perm.
    + apply (table_labels_NoDup _ _ Pain.issue);
        [|exact Legacy_PAIN_KEYWORDS_issues_distinct].
      intros e p H. now destruct (Legacy_painPointOf_Some _ _ _ H) as (_ & ? & _).
  - intros p Hp.
    apply (Permutation_in _ (sort_perm _ _)) in Hp.
    apply In_filter_Boolean in Hp. destruct Hp as (e & He & Hsome).
    destruct (Legacy_painPointOf_Some _ _ _ Hsome) as (Hne & Hi & Hf & Hs & Hq).
    exists e. split; [exact He|]. split; [exact Hi|].
    change (Legacy.extractSentences rawText) with (extractSentences rawText).
    set (matching := filter (matchesAny (Pain.keywords e)) (extractSentences rawText)) in *.
    assert (H1 : 1 <= List.length matching).
    { destruct matching; [contradiction | simpl; lia]. }
    split; [exact H1|]. split; [|split; [|exact Hq]].
    + rewrite Hf. apply countOf_mentions. lia.
    + unfold isHigh. rewrite Hs. unfold tier.
      destruct (3 <=? Z.of_nat (List.length matching))%Z eqn:E3.
      * apply Z.leb_le in E3. split; [lia | reflexivity].
      * apply Z.leb_gt in E3.
        destruct (2 <=? Z.of_nat (List.length matching))%Z; split;
          try discriminate; lia.
Qed.

(** ** The short names of the bar chart *)

Section ChartFacts.

Lemma firstWord_spec (s : string) :
  exists rest,
    s = firstWord s ++ rest
    /\ all_units (fun c => negb (Ascii.eqb c " ")) (firstWord s) = true
    /\ (rest = "" \/ exists r, rest = String " " r).
Proof.
  induction s as [|c s (rest & Hs & Hw & Hr)]; cbn [firstWord].
  - exists "". repeat split. now left.
  - destruct (Ascii.eqb c " ") eqn:E.
    + apply Ascii.eqb_eq in E. subst c. exists (String " " s).
      repeat split. right. now exists s.
    + exists rest. cbn [append all_units]. rewrite E, Hw. cbn [negb andb].
      repeat split; [now rewrite <- Hs | exact Hr].
Qed.

End ChartFacts.

(** X25.  The short name of a bar of the pain chart is the issue up to its
    first space: the issue is the short name followed by nothing or by a
    space and the rest, and the short name holds no space (it is empty
    for an issue that starts with a space). *)
Theorem painChartData_short_names (result : AnalysisResult) :
  Forall (fun b =>
            exists rest,
              PainBar.fullName b = PainBar.name b ++ rest
              /\ all_units (fun c => negb (Ascii.eqb c " ")) (PainBar.name b) = true
              /\ (rest = "" \/ exists r, rest = String " " r))
         (painChartData result).
Proof.
  unfold painChartData. apply Forall_forall. intros b Hb.
  apply in_map_iff in Hb. destruct Hb as (p & <- & _).
  cbn [PainBar.fullName PainBar.name]. apply firstWord_spec.
Qed.
